(** * IndiaMART lead scraper: a shallow embedding of [scraper.py]

    The development follows the source file top to bottom: the Python
    string primitives the code relies on, the [retry] decorator, the field
    validators, the browser the scraper drives, listing and profile
    extraction, relevancy scoring, the scraping loop and the CSV export;
    then login, search, shutdown and the command line that runs them all.
    All definitions come first; the lemmas about them follow.

    The web site is the environment: what a card or a page shows, and
    whether a lookup on it raises, is data the functions are given.  Log
    records, pauses and screenshots are left out, except in [retry], where
    formatting a log record decides what the wrapper does. *)

From Stdlib Require Import ZArith String Ascii List Bool Lia Floats Uint63.
From Stdlib Require Import Sorting.Sorted Sorting.Permutation.
From stdpp Require Import gmap strings.

Local Open Scope Z_scope.

(* ===================================================================== *)
(** * Python [str] primitives *)
(* ===================================================================== *)

(** A Python [str] is modelled as a [string] whose 8-bit characters are read
    as the code points U+0000 to U+00FF.  The character classes below are
    the ones CPython uses on that range. *)
Module Py.

(** [c.isspace()], the class [str.strip()] removes: TAB..CR, FS..US, SPACE,
    NEL and NBSP. *)
Definition isspace (c : ascii) : bool :=
  let n := N_of_ascii c in
  ((9 <=? n) && (n <=? 13) || (28 <=? n) && (n <=? 32)
   || (n =? 133) || (n =? 160))%N.

(** [c.isdigit()]: the decimal digits and the superscripts two, three, one. *)
Definition isdigit (c : ascii) : bool :=
  let n := N_of_ascii c in
  ((48 <=? n) && (n <=? 57) || (n =? 178) || (n =? 179) || (n =? 185))%N.

(** [c.lower()]: A..Z and the accented capitals (all of U+00C0..U+00DE but
    the multiplication sign) move up by 32. *)
Definition lower_char (c : ascii) : ascii :=
  let n := N_of_ascii c in
  if ((65 <=? n) && (n <=? 90)
      || (192 <=? n) && (n <=? 222) && negb (n =? 215))%N
  then ascii_of_N (n + 32) else c.

Fixpoint lower (s : string) : string :=
  match s with
  | EmptyString => EmptyString
  | String c s' => String (lower_char c) (lower s')
  end.

(** Truth value of a string: [if s:] holds for the non-empty ones. *)
Definition truthy (s : string) : bool :=
  match s with EmptyString => false | String _ _ => true end.

Fixpoint lstrip (s : string) : string :=
  match s with
  | EmptyString => EmptyString
  | String c s' => if isspace c then lstrip s' else s
  end.

Fixpoint rstrip (s : string) : string :=
  match s with
  | EmptyString => EmptyString
  | String c s' =>
      match rstrip s' with
      | EmptyString => if isspace c then EmptyString else String c EmptyString
      | r => String c r
      end
  end.

(** [s.strip()] *)
Definition strip (s : string) : string := rstrip (lstrip s).

(** [s.startswith(p)] *)
Definition startswith (p s : string) : bool := String.prefix p s.

(** [sub in s] *)
Fixpoint contains (sub s : string) : bool :=
  startswith sub s
  || match s with
     | EmptyString => false
     | String _ s' => contains sub s'
     end.

(** [s.count(sub)] scans left to right and skips over each occurrence it
    has counted; [skip] is the number of characters of the last occurrence
    still to be passed.  For the empty [sub] CPython answers [len(s) + 1]. *)
Fixpoint count_aux (sub : string) (skip : nat) (s : string) : nat :=
  match s with
  | EmptyString => O
  | String _ s' =>
      match skip with
      | S k => count_aux sub k s'
      | O => if startswith sub s
             then S (count_aux sub (String.length sub - 1) s')
             else count_aux sub O s'
      end
  end.

Definition count (sub s : string) : nat :=
  match sub with
  | EmptyString => S (String.length s)
  | _ => count_aux sub O s
  end.

(** [s.replace(old, new)], same scan as [count]. *)
Fixpoint replace_aux (old new : string) (skip : nat) (s : string) : string :=
  match s with
  | EmptyString => EmptyString
  | String c s' =>
      match skip with
      | S k => replace_aux old new k s'
      | O => if startswith old s
             then String.append new (replace_aux old new (String.length old - 1) s')
             else String c (replace_aux old new O s')
      end
  end.

Fixpoint intersperse (new s : string) : string :=
  match s with
  | EmptyString => new
  | String c s' => String.append new (String c (intersperse new s'))
  end.

Definition replace (old new s : string) : string :=
  match old with
  | EmptyString => intersperse new s
  | _ => replace_aux old new O s
  end.

(** [s.split(sep)] for a non-empty separator: [cur] holds the piece being
    read, most recent character first. *)
Fixpoint rev_string (acc s : string) : string :=
  match s with
  | EmptyString => acc
  | String c s' => rev_string (String c acc) s'
  end.

Fixpoint split_aux (sep : string) (skip : nat) (cur : string) (s : string)
  : list string :=
  match s with
  | EmptyString => [rev_string EmptyString cur]
  | String c s' =>
      match skip with
      | S k => split_aux sep k cur s'
      | O => if startswith sep s
             then rev_string EmptyString cur
                  :: split_aux sep (String.length sep - 1) EmptyString s'
             else split_aux sep O (String c cur) s'
      end
  end.

Definition split (sep s : string) : list string :=
  split_aux sep O EmptyString s.

(** [''.join(filter(p, s))] *)
Fixpoint filter_chars (p : ascii -> bool) (s : string) : string :=
  match s with
  | EmptyString => EmptyString
  | String c s' => if p c then String c (filter_chars p s') else filter_chars p s'
  end.

Fixpoint drop (n : nat) (s : string) : string :=
  match n, s with
  | O, _ => s
  | S k, EmptyString => EmptyString
  | S k, String _ s' => drop k s'
  end.

(** [s[-n:]] for [n > 0] *)
Definition last_chars (n : nat) (s : string) : string :=
  drop (String.length s - n) s.

(** [int(x)] on a float truncates toward zero. *)
Definition int_of_float (x : float) : Z :=
  match Prim2SF x with
  | S754_finite sgn m e =>
      let v := if 0 <=? e then Z.pos m * 2 ^ e else Z.pos m / 2 ^ (- e) in
      if sgn then - v else v
  | _ => 0
  end.

(** The float an [int] is converted to when it meets a float in a product. *)
Definition float_of_int (z : Z) : float :=
  if z <? 0 then PrimFloat.opp (PrimFloat.of_uint63 (Uint63.of_Z (- z)))
  else PrimFloat.of_uint63 (Uint63.of_Z z).

End Py.


(* ===================================================================== *)
(** * Exceptions, results and the monad of stateful, fallible code *)
(* ===================================================================== *)

(** The exception classes the scraper distinguishes.  The first four are
    Selenium's ([WebDriverException] stands for any other subclass of
    it); [KeyboardInterrupt] is the one that is not an [Exception]. *)
Inductive exn : Type :=
| NoSuchElementException
| TimeoutException
| NoSuchWindowException
| WebDriverException
| AttributeError
| TypeError
| RuntimeError
| KeyboardInterrupt.

(** [except Exception] *)
Definition is_Exception (e : exn) : bool :=
  match e with KeyboardInterrupt => false | _ => true end.

(** [except WebDriverException] *)
Definition is_WebDriverException (e : exn) : bool :=
  match e with
  | NoSuchElementException | TimeoutException
  | NoSuchWindowException | WebDriverException => true
  | _ => false
  end.

(** [except NoSuchElementException] *)
Definition is_NoSuchElement (e : exn) : bool :=
  match e with NoSuchElementException => true | _ => false end.

(** [except TimeoutException] *)
Definition is_Timeout (e : exn) : bool :=
  match e with TimeoutException => true | _ => false end.

(** [except (NoSuchElementException, TimeoutException)] *)
Definition is_absent (e : exn) : bool :=
  is_NoSuchElement e || is_Timeout e.

Inductive result (A : Type) : Type :=
| Return (a : A)
| Raise (e : exn).
Arguments Return {A} a.
Arguments Raise {A} e.

(** A computation over the mutable state [S] that returns or raises. *)
Definition M (S A : Type) : Type := S -> result A * S.

Definition ret {S A} (a : A) : M S A := fun s => (Return a, s).

Definition raise {S A} (e : exn) : M S A := fun s => (Raise e, s).

Definition bind {S A B} (c : M S A) (k : A -> M S B) : M S B :=
  fun s =>
    match c s with
    | (Return a, s') => k a s'
    | (Raise e, s') => (Raise e, s')
    end.

Definition get {S} : M S S := fun s => (Return s, s).

Definition modify {S} (f : S -> S) : M S unit := fun s => (Return tt, f s).

(** An observation the environment supplies: it is there or the lookup
    raises. *)
Definition observe {S A} (o : result A) : M S A := fun s => (o, s).

Declare Scope py_scope.
Delimit Scope py_scope with py.
Notation "x <- c ;; k" := (bind c (fun x => k))
  (at level 100, c at next level, right associativity) : py_scope.
Notation "c ;; k" := (bind c (fun _ => k))
  (at level 100, right associativity) : py_scope.
Local Open Scope py_scope.

(** [try: body except <catches> as e: handler e] *)
Definition try_except {S A} (body : M S A) (catches : exn -> bool)
  (handler : exn -> M S A) : M S A :=
  fun s =>
    match body s with
    | (Raise e, s') => if catches e then handler e s' else (Raise e, s')
    | r => r
    end.

(** [try: body finally: cleanup]: the cleanup runs on every exit of the
    body; what the body returned or raised stands unless the cleanup
    itself raises. *)
Definition try_finally {S A} (body : M S A) (cleanup : M S unit) : M S A :=
  fun s =>
    let '(r, s') := body s in
    match cleanup s' with
    | (Return _, s'') => (r, s'')
    | (Raise e, s'') => (Raise e, s'')
    end.

(** [if c: body] *)
Definition when {S} (c : bool) (body : M S unit) : M S unit :=
  if c then body else ret tt.

(* ===================================================================== *)
(** * The [retry] decorator *)
(* ===================================================================== *)

(** A function object: its [__name__], the attributes set on it (its
    [__dict__]) and its code, run on the arguments and the state the
    arguments give access to. *)
Record function (Args S A : Type) : Type := Function_ {
  fn_name : string;
  fn_dict : gmap string string;
  fn_call : Args -> M S A }.
Arguments Function_ {Args S A}.
Arguments fn_name {Args S A}.
Arguments fn_dict {Args S A}.
Arguments fn_call {Args S A}.

(** What a [def] statement builds: no attribute of the object's own. *)
Definition def {Args S A} (name : string) (body : Args -> M S A)
  : function Args S A :=
  {| fn_name := name; fn_dict := ∅; fn_call := body |}.

(** Attribute lookup [func.attr]; [None] is the [AttributeError]. *)
Definition getattr {Args S A} (func : function Args S A) (attr : string)
  : option string :=
  if String.eqb attr "__name__" then Some (fn_name func)
  else fn_dict func !! attr.

(** What the wrapper does besides running the function, in order. *)
Inductive event : Type :=
| Invoked
| LogWarning (attempts max_attempts : nat) (name : string) (e : exn)
| Sleep (delay : nat)
| LogError (name : string) (max_attempts : nat).

Section Retry.
Context {Args S A : Type}.
Variables (max_attempts delay : nat) (func : function Args S A).

(** The [while attempts < max_attempts] loop of [wrapper].  [turns] is
    [max_attempts - attempts], the number of turns the loop test still
    lets through: a turn either leaves the loop or adds one to
    [attempts], and the loop starts with [attempts = 0].
    The result is what the call returned ([None] when the loop ends
    without a call returning, Python's implicit [return None]), the state
    and the events in order.  Formatting the warning reads [func._name_];
    when the function object has no such attribute that raises
    [AttributeError] from inside the handler. *)
Fixpoint wrapper_loop (turns attempts : nat) (args : Args) (s : S)
  : result (option A) * S * list event :=
  match turns with
  | O => (Return None, s, [])
  | Datatypes.S turns' =>
      match fn_call func args s with
      | (Return a, s') => (Return (Some a), s', [Invoked])
      | (Raise e, s') =>
          if is_Exception e then
            let attempts := (attempts + 1)%nat in
            match getattr func "_name_" with
            | None => (Raise AttributeError, s', [Invoked])
            | Some name =>
                let evs :=
                  [Invoked; LogWarning attempts max_attempts name e;
                   Sleep delay] in
                if (attempts =? max_attempts)%nat then
                  (Raise e, s', evs ++ [LogError name max_attempts])
                else
                  let '(r, s'', evs') := wrapper_loop turns' attempts args s' in
                  (r, s'', evs ++ evs')
            end
          else (Raise e, s', [Invoked])
      end
  end.

(** [retry(max_attempts, delay)(func)], the decorated function. *)
Definition retry (args : Args) (s : S)
  : result (option A) * S * list event :=
  wrapper_loop max_attempts O args s.

End Retry.

(** Number of times the wrapped function was invoked. *)
Definition invocations (evs : list event) : nat :=
  length (List.filter (fun ev => match ev with Invoked => true | _ => false end) evs).

(* ===================================================================== *)
(** * Field validators *)
(* ===================================================================== *)

Definition NEWLINE : string := String (ascii_of_nat 10) "".
Definition TAB : string := String (ascii_of_nat 9) "".

(** A value held in a dictionary: a [str] or an [int]. *)
Inductive value : Type :=
| VStr (s : string)
| VInt (z : Z).

(** The [while '  ' in v: v = v.replace('  ', ' ')] loop.  Every turn
    shortens the string, so [fuel = len(v)] turns are enough. *)
Fixpoint collapse_spaces (fuel : nat) (v : string) : string :=
  match fuel with
  | O => v
  | Datatypes.S fuel' =>
      if Py.contains "  " v then collapse_spaces fuel' (Py.replace "  " " " v)
      else v
  end.

(** What [sanitize_data] stores back under a key holding a [str]. *)
Definition sanitize_str (v : string) : string :=
  let v := Py.strip v in
  let v := Py.replace TAB " " (Py.replace NEWLINE " " v) in
  collapse_spaces (String.length v) v.

Definition sanitize_value (v : value) : value :=
  match v with
  | VStr s => VStr (sanitize_str s)
  | VInt _ => v
  end.

(** The argument of [sanitize_data]: a dictionary or anything else. *)
Inductive data : Type :=
| Dict (d : gmap string value)
| NotDict (v : value).

Definition sanitize_data (d : data) : data :=
  match d with
  | Dict d => Dict (sanitize_value <$> d)
  | NotDict _ => d
  end.

Definition validate_phone (phone : string) : string :=
  if negb (Py.truthy phone) then ""
  else
    let digits := Py.filter_chars Py.isdigit phone in
    if (String.length digits =? 10)%nat then digits
    else if ((String.length digits =? 11)%nat || (String.length digits =? 12)%nat)
            && (Py.startswith "91" digits || Py.startswith "0" digits)
    then Py.last_chars 10 digits
    else phone.

(** [email.split('@')[1]]; [None] is the [IndexError]. *)
Definition split_at_1 (email : string) : option string :=
  Py.split "@" email !! 1%nat.

Definition validate_email (email : string) : string :=
  if negb (Py.truthy email) then ""
  else if Py.contains "@" email
          && match split_at_1 email with
             | Some domain => Py.contains "." domain
             | None => false
             end
  then Py.lower (Py.strip email)
  else "".

(* ===================================================================== *)
(** * Lead records *)
(* ===================================================================== *)

(** The dictionary [_extract_seller_info_from_listing] creates, with its
    nine keys.  An [href] that Selenium reports as [None] is kept as the
    empty string: both are falsy and both are exported as an empty field. *)
Record Lead : Type := {
  Company_Name : string;
  Company_Profile_URL : string;
  Product_Title_Description : string;
  Product_Catalog_URL : string;
  Price : string;
  Address : string;
  Phone_Number : string;
  Email : string;
  Relevancy_Score : Z }.

Definition set_Company_Name (v : string) (l : Lead) : Lead :=
  {| Company_Name := v; Company_Profile_URL := Company_Profile_URL l;
     Product_Title_Description := Product_Title_Description l;
     Product_Catalog_URL := Product_Catalog_URL l; Price := Price l;
     Address := Address l; Phone_Number := Phone_Number l; Email := Email l;
     Relevancy_Score := Relevancy_Score l |}.

Definition set_Company_Profile_URL (v : string) (l : Lead) : Lead :=
  {| Company_Name := Company_Name l; Company_Profile_URL := v;
     Product_Title_Description := Product_Title_Description l;
     Product_Catalog_URL := Product_Catalog_URL l; Price := Price l;
     Address := Address l; Phone_Number := Phone_Number l; Email := Email l;
     Relevancy_Score := Relevancy_Score l |}.

Definition set_Product_Title_Description (v : string) (l : Lead) : Lead :=
  {| Company_Name := Company_Name l;
     Company_Profile_URL := Company_Profile_URL l;
     Product_Title_Description := v;
     Product_Catalog_URL := Product_Catalog_URL l; Price := Price l;
     Address := Address l; Phone_Number := Phone_Number l; Email := Email l;
     Relevancy_Score := Relevancy_Score l |}.

Definition set_Product_Catalog_URL (v : string) (l : Lead) : Lead :=
  {| Company_Name := Company_Name l;
     Company_Profile_URL := Company_Profile_URL l;
     Product_Title_Description := Product_Title_Description l;
     Product_Catalog_URL := v; Price := Price l;
     Address := Address l; Phone_Number := Phone_Number l; Email := Email l;
     Relevancy_Score := Relevancy_Score l |}.

Definition set_Price (v : string) (l : Lead) : Lead :=
  {| Company_Name := Company_Name l;
     Company_Profile_URL := Company_Profile_URL l;
     Product_Title_Description := Product_Title_Description l;
     Product_Catalog_URL := Product_Catalog_URL l; Price := v;
     Address := Address l; Phone_Number := Phone_Number l; Email := Email l;
     Relevancy_Score := Relevancy_Score l |}.

Definition set_Address (v : string) (l : Lead) : Lead :=
  {| Company_Name := Company_Name l;
     Company_Profile_URL := Company_Profile_URL l;
     Product_Title_Description := Product_Title_Description l;
     Product_Catalog_URL := Product_Catalog_URL l; Price := Price l;
     Address := v; Phone_Number := Phone_Number l; Email := Email l;
     Relevancy_Score := Relevancy_Score l |}.

Definition set_Phone_Number (v : string) (l : Lead) : Lead :=
  {| Company_Name := Company_Name l;
     Company_Profile_URL := Company_Profile_URL l;
     Product_Title_Description := Product_Title_Description l;
     Product_Catalog_URL := Product_Catalog_URL l; Price := Price l;
     Address := Address l; Phone_Number := v; Email := Email l;
     Relevancy_Score := Relevancy_Score l |}.

Definition set_Email (v : string) (l : Lead) : Lead :=
  {| Company_Name := Company_Name l;
     Company_Profile_URL := Company_Profile_URL l;
     Product_Title_Description := Product_Title_Description l;
     Product_Catalog_URL := Product_Catalog_URL l; Price := Price l;
     Address := Address l; Phone_Number := Phone_Number l; Email := v;
     Relevancy_Score := Relevancy_Score l |}.

Definition set_Relevancy_Score (v : Z) (l : Lead) : Lead :=
  {| Company_Name := Company_Name l;
     Company_Profile_URL := Company_Profile_URL l;
     Product_Title_Description := Product_Title_Description l;
     Product_Catalog_URL := Product_Catalog_URL l; Price := Price l;
     Address := Address l; Phone_Number := Phone_Number l; Email := Email l;
     Relevancy_Score := v |}.

(** The record as the Python dictionary it is. *)
Definition to_dict (l : Lead) : gmap string value :=
  list_to_map
    [("Company Name", VStr (Company_Name l));
     ("Company Profile URL", VStr (Company_Profile_URL l));
     ("Product Title/Description", VStr (Product_Title_Description l));
     ("Product Catalog URL", VStr (Product_Catalog_URL l));
     ("Price", VStr (Price l));
     ("Address", VStr (Address l));
     ("Phone Number", VStr (Phone_Number l));
     ("Email", VStr (Email l));
     ("Relevancy Score (%)", VInt (Relevancy_Score l))].

(** [sanitize_data] applied to a lead: the same dictionary comes back. *)
Definition sanitize_lead (l : Lead) : gmap string value :=
  match sanitize_data (Dict (to_dict l)) with
  | Dict d => d
  | NotDict _ => to_dict l
  end.

(* ===================================================================== *)
(** * Listing extraction *)
(* ===================================================================== *)

(** What a listing card shows: for each selector the element found (its
    text, and its [href] or whether it is displayed) or the exception
    [find_element] raises. *)
Record Card : Type := {
  card_product : result (string * option string);
  card_price : result string;
  card_company : result (string * option string);
  card_short_location : result string;
  card_full_address : result string;
  card_phone : result (bool * string) }.

Definition href_or_empty (href : option string) : string :=
  match href with Some u => u | None => "" end.

Definition new_seller_info : Lead :=
  {| Company_Name := ""; Company_Profile_URL := "";
     Product_Title_Description := ""; Product_Catalog_URL := "";
     Price := "Not Listed"; Address := ""; Phone_Number := ""; Email := "";
     Relevancy_Score := 0 |}.

(** The body of the outer [try] of [_extract_seller_info_from_listing]. *)
Definition listing_fields (seller_element : Card) : M Lead unit :=
  (try_except
     (p <- observe (card_product seller_element) ;;
      modify (set_Product_Title_Description (Py.strip (fst p))) ;;
      modify (set_Company_Profile_URL (href_or_empty (snd p))))
     is_NoSuchElement (fun _ => ret tt) ;;
   try_except
     (t <- observe (card_price seller_element) ;;
      modify (set_Price (Py.strip t)))
     is_NoSuchElement (fun _ => ret tt) ;;
   try_except
     (c <- observe (card_company seller_element) ;;
      modify (set_Company_Name (Py.strip (fst c))) ;;
      seller_info <- get ;;
      when (negb (Py.truthy (Company_Profile_URL seller_info)))
        (modify (set_Company_Profile_URL (href_or_empty (snd c)))))
     is_NoSuchElement (fun _ => ret tt) ;;
   try_except
     (t <- observe (card_short_location seller_element) ;;
      modify (set_Address (Py.strip t)))
     is_NoSuchElement (fun _ => ret tt) ;;
   try_except
     (t <- observe (card_full_address seller_element) ;;
      when (Py.truthy (Py.strip t)) (modify (set_Address (Py.strip t))))
     is_NoSuchElement (fun _ => ret tt) ;;
   try_except
     (d <- observe (card_phone seller_element) ;;
      when (fst d)
        (modify (set_Phone_Number (validate_phone (Py.strip (snd d))))))
     is_NoSuchElement (fun _ => ret tt)).

Definition _extract_seller_info_from_listing (seller_element : Card)
  : result Lead :=
  match try_except (listing_fields seller_element) is_Exception
          (fun _ => ret tt) new_seller_info with
  | (Return _, seller_info) => Return seller_info
  | (Raise e, _) => Raise e
  end.

(* ===================================================================== *)
(** * The browser *)
(* ===================================================================== *)

(** Window handles are opaque names; numbers do. *)
Abbreviation handle := nat (only parsing).

(** What a profile page shows once its tab is open.  Waits raise
    [TimeoutException] when the element does not come, lookups raise
    [NoSuchElementException]; any other exception is possible too. *)
Record ProfilePage : Type := {
  pf_opens : bool;
  pf_body : result unit;
  pf_title : result string;
  pf_price : result string;
  pf_company : result string;
  pf_location : result string;
  pf_seller_address : result string;
  pf_view_mobile : result unit;
  pf_revealed_phone : result string;
  pf_mailto_links : result (list (option string));
  pf_email_candidates : result (list string);
  pf_catalog_links : result (list (option string)) }.

(** The driver: the open windows, the one commands go to, and the profile
    pages the site will serve to the next [window.open] calls. *)
Record Browser : Type := {
  window_handles : list handle;
  current_window_handle : handle;
  upcoming : list ProfilePage }.

(** The page served when the site has nothing more to serve: no tab. *)
Definition no_page : ProfilePage :=
  {| pf_opens := false; pf_body := Raise TimeoutException;
     pf_title := Raise TimeoutException; pf_price := Raise TimeoutException;
     pf_company := Raise TimeoutException;
     pf_location := Raise TimeoutException;
     pf_seller_address := Raise TimeoutException;
     pf_view_mobile := Raise TimeoutException;
     pf_revealed_phone := Raise TimeoutException;
     pf_mailto_links := Raise TimeoutException;
     pf_email_candidates := Return [];
     pf_catalog_links := Return [] |}.

Definition fresh_handle (hs : list handle) : handle := Datatypes.S (max_list hs).

(** [driver.execute_script("window.open(url, '_blank')")]: a new tab with a
    handle of its own when the page opens; the focus stays where it was. *)
Definition window_open : M Browser ProfilePage :=
  fun b =>
    let page := match upcoming b with p :: _ => p | [] => no_page end in
    (Return page,
     {| window_handles :=
          if pf_opens page
          then window_handles b ++ [fresh_handle (window_handles b)]
          else window_handles b;
        current_window_handle := current_window_handle b;
        upcoming := tail (upcoming b) |}).

(** [driver.switch_to.window(h)] *)
Definition switch_to_window (h : handle) : M Browser unit :=
  fun b =>
    if bool_decide (h ∈ window_handles b)
    then (Return tt,
          {| window_handles := window_handles b;
             current_window_handle := h;
             upcoming := upcoming b |})
    else (Raise NoSuchWindowException, b).

(** [driver.close()]: closes the window commands go to. *)
Definition close_window : M Browser unit :=
  fun b =>
    if bool_decide (current_window_handle b ∈ window_handles b)
    then (Return tt,
          {| window_handles :=
               List.filter (fun h => negb (h =? current_window_handle b)%nat)
                 (window_handles b);
             current_window_handle := current_window_handle b;
             upcoming := upcoming b |})
    else (Raise NoSuchWindowException, b).

(* ===================================================================== *)
(** * Profile enrichment *)
(* ===================================================================== *)

(** The state a call of the undecorated function works on: the dictionary
    and the driver it was passed, and its local [new_window_handle]. *)
Record Frame : Type := {
  seller_info : Lead;
  frame_driver : Browser;
  new_window_handle : option handle }.

Definition on_driver {A} (c : M Browser A) : M Frame A :=
  fun f =>
    let '(r, b) := c (frame_driver f) in
    (r, {| seller_info := seller_info f; frame_driver := b;
           new_window_handle := new_window_handle f |}).

Definition on_seller_info {A} (c : M Lead A) : M Frame A :=
  fun f =>
    let '(r, l) := c (seller_info f) in
    (r, {| seller_info := l; frame_driver := frame_driver f;
           new_window_handle := new_window_handle f |}).

Definition set_new_window_handle (h : option handle) : M Frame unit :=
  modify (fun f => {| seller_info := seller_info f;
                      frame_driver := frame_driver f;
                      new_window_handle := h |}).

(** The first candidate text that [validate_email] accepts. *)
Fixpoint first_valid_email (candidates : list string) : option string :=
  match candidates with
  | [] => None
  | candidate :: rest =>
      let extracted_email := validate_email (Py.strip candidate) in
      if Py.truthy extracted_email then Some extracted_email
      else first_valid_email rest
  end.

(** The test a catalog link's [href] has to pass. *)
Definition is_catalog_href (href : option string) : bool :=
  match href with
  | Some u =>
      Py.truthy u
      && (Py.contains ".pdf" (Py.lower u)
          || Py.contains "catalog.indiamart.com" u
          || Py.contains "brochure.indiamart.com" u)
  | None => false
  end.

(** What the function reads off the profile tab once it has switched to
    it, from the wait for [body] to the catalog links. *)
Definition profile_fields (page : ProfilePage) : M Lead unit :=
  (observe (pf_body page) ;;
   seller_info <- get ;;
   when (negb (Py.truthy (Product_Title_Description seller_info)))
     (try_except
        (t <- observe (pf_title page) ;;
         modify (set_Product_Title_Description (Py.strip t)))
        is_absent (fun _ => ret tt)) ;;
   seller_info <- get ;;
   when (String.eqb (Price seller_info) "Not Listed")
     (try_except
        (t <- observe (pf_price page) ;; modify (set_Price (Py.strip t)))
        is_absent (fun _ => ret tt)) ;;
   seller_info <- get ;;
   when (negb (Py.truthy (Company_Name seller_info)))
     (try_except
        (t <- observe (pf_company page) ;;
         modify (set_Company_Name (Py.strip t)))
        is_absent (fun _ => ret tt)) ;;
   try_except
     (t <- observe (pf_location page) ;; modify (set_Address (Py.strip t)))
     is_absent
     (fun _ =>
        try_except
          (t <- observe (pf_seller_address page) ;;
           modify (set_Address (Py.strip t)))
          is_absent (fun _ => ret tt)) ;;
   seller_info <- get ;;
   when (negb (Py.truthy (Phone_Number seller_info)))
     (try_except
        (observe (pf_view_mobile page) ;;
         t <- observe (pf_revealed_phone page) ;;
         modify (set_Phone_Number (validate_phone (Py.strip t))))
        is_Exception (fun _ => ret tt)) ;;
   seller_info <- get ;;
   when (negb (Py.truthy (Email seller_info)))
     (try_except
        (mailto_link_element <- observe (pf_mailto_links page) ;;
         match mailto_link_element with
         | Some mailto_href :: _ =>
             modify (set_Email (validate_email
                       (Py.strip (Py.replace "mailto:" "" mailto_href))))
         | None :: _ => raise AttributeError
         | [] =>
             email_text_candidates <- observe (pf_email_candidates page) ;;
             match first_valid_email email_text_candidates with
             | Some extracted_email => modify (set_Email extracted_email)
             | None => ret tt
             end
         end)
        is_Exception (fun _ => ret tt)) ;;
   seller_info <- get ;;
   when (negb (Py.truthy (Product_Catalog_URL seller_info)))
     (try_except
        (catalog_links <- observe (pf_catalog_links page) ;;
         match List.find is_catalog_href catalog_links with
         | Some href => modify (set_Product_Catalog_URL (href_or_empty href))
         | None => ret tt
         end)
        is_Exception (fun _ => ret tt))).

(** The [finally] block. *)
Definition cleanup (search_results_window_handle : handle) : M Frame unit :=
  (f <- get ;;
   match new_window_handle f with
   | Some h =>
       when (bool_decide (h ∈ window_handles (frame_driver f)))
         (try_except
            (on_driver (switch_to_window h) ;; on_driver close_window)
            is_WebDriverException (fun _ => ret tt))
   | None => ret tt
   end ;;
   try_except (on_driver (switch_to_window search_results_window_handle))
     is_WebDriverException (fun _ => ret tt)).

(** The [try] statement: open the tab, find its handle, switch to it and
    read the fields; both [except] clauses take a screenshot and raise
    again; the [finally] block closes the tab and switches back. *)
Definition visit_profile (search_results_window_handle : handle)
  : M Frame unit :=
  try_finally
    (try_except
       (old_handles <- on_driver (f <- get ;; ret (window_handles f)) ;;
        page <- on_driver window_open ;;
        handles <- on_driver (f <- get ;; ret (window_handles f)) ;;
        (if (length old_handles <? length handles)%nat then ret tt
         else raise TimeoutException) ;;
        set_new_window_handle
          (List.find (fun h => negb (bool_decide (h ∈ old_handles))) handles) ;;
        f <- get ;;
        match new_window_handle f with
        | Some h =>
            on_driver (switch_to_window h) ;;
            on_seller_info (profile_fields page)
        | None => raise NoSuchElementException
        end)
       is_Exception (fun e => raise e))
    (cleanup search_results_window_handle).

(** Whether phone, email or catalog reference is still missing. *)
Definition lacks_contact (seller_info : Lead) : bool :=
  negb (Py.truthy (Phone_Number seller_info))
  || negb (Py.truthy (Email seller_info))
  || negb (Py.truthy (Product_Catalog_URL seller_info)).

(** The function as written, before decoration.  Its state is what the
    caller and the callee share: the dictionary and the driver. *)
Definition profile_function (search_results_window_handle : handle)
  : M (Lead * Browser) unit :=
  fun '(info, drv) =>
    if lacks_contact info && Py.truthy (Company_Profile_URL info) then
      let '(r, f) :=
        visit_profile search_results_window_handle
          {| seller_info := info; frame_driver := drv;
             new_window_handle := None |} in
      (r, (seller_info f, frame_driver f))
    else (Return tt, (info, drv)).

(** [@retry(max_attempts=2, delay=1)] *)
Definition _extract_detailed_info_from_profile
  (search_results_window_handle : handle) (s : Lead * Browser)
  : result (option unit) * (Lead * Browser) * list event :=
  retry 2 1 (def "_extract_detailed_info_from_profile" profile_function)
    search_results_window_handle s.

(* ===================================================================== *)
(** * Relevancy scoring *)
(* ===================================================================== *)

Section Scoring.

(** [fuzz.partial_ratio], the fuzzy-match primitive. *)
Variable partial_ratio : string -> string -> Z.

(** [int(ratio * w)] for a float weight [w]. *)
Definition weighted (ratio : Z) (w : float) : Z :=
  Py.int_of_float (PrimFloat.mul (Py.float_of_int ratio) w).

(** The doubles written [0.6] and [0.3]. *)
Definition w06 : float := 0x1.3333333333333p-1%float.
Definition w03 : float := 0x1.3333333333333p-2%float.

(** What the product description adds to the score. *)
Definition description_points (keyword_lower product_desc_lower : string) : Z :=
  if Py.truthy product_desc_lower then
    if Py.contains keyword_lower product_desc_lower then
      60 + Z.min 10 (Z.of_nat (Py.count keyword_lower product_desc_lower) * 2)
    else weighted (partial_ratio keyword_lower product_desc_lower) w06
  else 0.

(** What the company name adds to the score. *)
Definition company_points (keyword_lower company_name_lower : string) : Z :=
  if Py.truthy company_name_lower then
    if Py.contains keyword_lower company_name_lower then 30
    else weighted (partial_ratio keyword_lower company_name_lower) w03
  else 0.

Definition _calculate_relevancy_score (seller_info : Lead) (keyword : string)
  : Z :=
  let score := 0 in
  let keyword_lower := Py.lower keyword in
  let product_desc_lower := Py.lower (Product_Title_Description seller_info) in
  let score := score + description_points keyword_lower product_desc_lower in
  let company_name_lower := Py.lower (Company_Name seller_info) in
  let score := score + company_points keyword_lower company_name_lower in
  let score := if Py.truthy (Phone_Number seller_info) then score + 3 else score in
  let score := if Py.truthy (Email seller_info) then score + 2 else score in
  let score := if Py.truthy (Address seller_info) then score + 5 else score in
  let score :=
    if Py.truthy (Product_Catalog_URL seller_info) then score + 5 else score in
  Z.min 100 score.

(* ===================================================================== *)
(** * The scraping loop *)
(* ===================================================================== *)

(** What a results page shows once "Show more results" has been clicked
    for as long as it was there: the wait for the card container, the
    cards, and the wait for and click on "Next". *)
Record ResultsPage : Type := {
  pg_container : result unit;
  pg_cards : result (list Card);
  pg_next : result unit }.

(** What the browser shows when the site has no further page. *)
Definition blank_page : ResultsPage :=
  {| pg_container := Raise TimeoutException;
     pg_cards := Return [];
     pg_next := Raise TimeoutException |}.

(** The scraper object: [self.driver] and [self.leads]. *)
Record Scraper : Type := {
  driver : Browser;
  leads : list (gmap string value) }.

Definition on_self_driver {A} (c : M Browser A) : M Scraper A :=
  fun self =>
    let '(r, b) := c (driver self) in
    (r, {| driver := b; leads := leads self |}).

Definition set_leads (ls : list (gmap string value)) : M Scraper unit :=
  modify (fun self => {| driver := driver self; leads := ls |}).

(** [self.driver.current_window_handle] *)
Definition get_current_window_handle : M Browser handle :=
  fun b =>
    if bool_decide (current_window_handle b ∈ window_handles b)
    then (Return (current_window_handle b), b)
    else (Raise NoSuchWindowException, b).

(** The call of the decorated profile function on [seller_info]; the
    dictionary is changed in place whether the call returns or raises. *)
Definition enrich (info : Lead) (search_results_window_handle : handle)
  : M Scraper Lead :=
  fun self =>
    let '(r, (info', drv), _) :=
      _extract_detailed_info_from_profile search_results_window_handle
        (info, driver self) in
    match r with
    | Return _ => (Return info', {| driver := drv; leads := leads self |})
    | Raise e => (Raise e, {| driver := drv; leads := leads self |})
    end.

Fixpoint extract_all (seller_elements : list Card) : result (list Lead) :=
  match seller_elements with
  | [] => Return []
  | seller_element :: rest =>
      match _extract_seller_info_from_listing seller_element with
      | Return basic_seller_info =>
          match extract_all rest with
          | Return infos => Return (basic_seller_info :: infos)
          | Raise e => Raise e
          end
      | Raise e => Raise e
      end
  end.

(** The [for seller_info in leads_to_process_from_current_page] loop. *)
Fixpoint process_leads (keyword : string) (min_leads : nat)
  (search_results_window_handle : handle) (infos : list Lead)
  : M Scraper unit :=
  match infos with
  | [] => ret tt
  | info :: rest =>
      (self <- get ;;
       if (min_leads <=? length (leads self))%nat then ret tt
       else
         info <- (if lacks_contact info
                  then enrich info search_results_window_handle
                  else ret info) ;;
         let info :=
           set_Relevancy_Score (_calculate_relevancy_score info keyword) info in
         when (Py.truthy (Company_Name info)
               || Py.truthy (Product_Title_Description info))
           (self <- get ;; set_leads (leads self ++ [sanitize_lead info])) ;;
         process_leads keyword min_leads search_results_window_handle rest)
  end.

Inductive loop : Type := Continue | Break.

(** The [try] block of one turn of the [while] loop. *)
Definition page_body (keyword : string) (min_leads : nat)
  (search_results_window_handle : handle) (page : ResultsPage)
  : M Scraper loop :=
  (on_self_driver (switch_to_window search_results_window_handle) ;;
   observe (pg_container page) ;;
   seller_elements <- observe (pg_cards page) ;;
   match seller_elements with
   | [] => ret Break
   | _ =>
       leads_to_process <- observe (extract_all seller_elements) ;;
       process_leads keyword min_leads search_results_window_handle
         leads_to_process ;;
       self <- get ;;
       if (length (leads self) <? min_leads)%nat then
         try_except
           (on_self_driver (switch_to_window search_results_window_handle) ;;
            observe (pg_next page) ;;
            ret Continue)
           is_absent (fun _ => ret Break)
       else ret Continue
   end).

(** The [while len(self.leads) < min_leads] loop over the pages the site
    serves, one per successful click on "Next". *)
Fixpoint scrape_loop (keyword : string) (min_leads : nat)
  (search_results_window_handle : handle) (pages : list ResultsPage)
  : M Scraper unit :=
  fun self =>
    if (length (leads self) <? min_leads)%nat then
      match pages with
      | [] =>
          let '(_, self') :=
            try_except
              (page_body keyword min_leads search_results_window_handle
                 blank_page)
              is_Exception (fun _ => ret Break) self in
          (Return tt, self')
      | page :: rest =>
          match try_except
                  (page_body keyword min_leads search_results_window_handle
                     page)
                  is_Exception (fun _ => ret Break) self with
          | (Return Continue, self') =>
              scrape_loop keyword min_leads search_results_window_handle
                rest self'
          | (Return Break, self') => (Return tt, self')
          | (Raise e, self') => (Raise e, self')
          end
      end
    else (Return tt, self).

Definition scrape_search_results (keyword : string) (min_leads : nat)
  (pages : list ResultsPage) : M Scraper (list (gmap string value)) :=
  (set_leads [] ;;
   search_results_window_handle <- on_self_driver get_current_window_handle ;;
   scrape_loop keyword min_leads search_results_window_handle pages ;;
   self <- get ;;
   ret (leads self)).

End Scoring.

(* ===================================================================== *)
(** * Export *)
(* ===================================================================== *)

Definition fields : list string :=
  ["Company Name"; "Product Title/Description"; "Price"; "Address";
   "Phone Number"; "Email"; "Product Catalog URL"; "Company Profile URL";
   "Relevancy Score (%)"].

(** [a < b] on dictionary values: an [int] and a [str] do not compare. *)
Definition value_lt (a b : value) : result bool :=
  match a, b with
  | VInt x, VInt y => Return (x <? y)
  | VStr x, VStr y => Return (String.ltb x y)
  | _, _ => Raise TypeError
  end.

Section Sorted.
Context {A : Type}.
Variable key : A -> value.

(** [x], which stood before every element of the sorted [l], goes in
    front of the first element that is not smaller than it. *)
Fixpoint insert_sorted (x : A) (l : list A) : result (list A) :=
  match l with
  | [] => Return [x]
  | y :: l' =>
      match value_lt (key y) (key x) with
      | Return true =>
          match insert_sorted x l' with
          | Return r => Return (y :: r)
          | Raise e => Raise e
          end
      | Return false => Return (x :: l)
      | Raise e => Raise e
      end
  end.

(** A stable sort by [<] on the keys. *)
Fixpoint sort_stable (l : list A) : result (list A) :=
  match l with
  | [] => Return []
  | x :: l' =>
      match sort_stable l' with
      | Return r => insert_sorted x r
      | Raise e => Raise e
      end
  end.

(** [sorted(l, key=key, reverse=reverse)]: with [reverse] the list is
    reversed, sorted and reversed again, which keeps equal elements in
    their original order. *)
Definition sorted (reverse : bool) (l : list A) : result (list A) :=
  if reverse then
    match sort_stable (rev l) with
    | Return r => Return (rev r)
    | Raise e => Raise e
    end
  else sort_stable l.

End Sorted.

(** A data frame: the column labels and the rows; a row lacks the keys of
    the cells that hold NaN. *)
Record DataFrame : Type := {
  columns : list string;
  rows : list (gmap string value) }.

(** [pd.DataFrame(records)]: one column per key that occurs in a record.
    The order pandas lists them in is given up by [reindex] below. *)
Definition pd_DataFrame (records : list (gmap string value)) : DataFrame :=
  {| columns := elements (⋃ (dom <$> records) : gset string);
     rows := records |}.

(** [df.reindex(columns=cols, fill_value=fill_value)]: the columns that
    exist are kept as they are, NaN cells included; the new ones are
    filled with [fill_value]; the others are dropped. *)
Definition reindex (cols : list string) (fill_value : value) (df : DataFrame)
  : DataFrame :=
  {| columns := cols;
     rows :=
       (fun r : gmap string value =>
          filter (fun kv => kv.1 ∈ cols) r
          ∪ gset_to_gmap fill_value
              (list_to_set cols ∖ list_to_set (columns df) : gset string))
       <$> rows df |}.

(** The file [to_csv(index=False)] writes: the header and one line per
    row, a NaN cell as the empty field.  A cell is kept as the value it
    holds; how pandas prints a number is not modelled. *)
Record CSV : Type := {
  header : list string;
  lines : list (list value) }.

Definition to_csv (df : DataFrame) : CSV :=
  {| header := columns df;
     lines :=
       (fun r : gmap string value =>
          (fun c => default (VStr "") (r !! c)) <$> columns df)
       <$> rows df |}.

(** [x.get("Relevancy Score (%)", 0)] *)
Definition score_key (x : gmap string value) : value :=
  default (VInt 0) (x !! "Relevancy Score (%)").

(** [export_to_csv] on [self.leads]: what it returns and the file it
    writes, if any.  An exception in the [try] block is logged and answered
    with [False]. *)
Definition export_to_csv (self_leads : list (gmap string value))
  : bool * option CSV :=
  match self_leads with
  | [] => (false, None)
  | _ =>
      match sorted score_key true self_leads with
      | Return sorted_leads =>
          let df := pd_DataFrame sorted_leads in
          let df := reindex fields (VStr "") df in
          (true, Some (to_csv df))
      | Raise _ => (false, None)
      end
  end.

(* ===================================================================== *)
(** * Predicates the statements use *)
(* ===================================================================== *)

(** A string starts, or ends, with a character [strip] removes. *)
Definition starts_space (s : string) : bool :=
  match s with
  | EmptyString => false
  | String c _ => Py.isspace c
  end.

Fixpoint ends_space (s : string) : bool :=
  match s with
  | EmptyString => false
  | String c EmptyString => Py.isspace c
  | String _ s' => ends_space s'
  end.

(** [c] keeps the property [P] of the state, whether it returns or raises. *)
Definition preserves {S A} (P : S -> Prop) (c : M S A) : Prop :=
  forall s, P s -> P (snd (c s)).

(** The name and the title of a lead are as [strip] leaves them. *)
Definition tidy (l : Lead) : Prop :=
  Py.strip (Company_Name l) = Company_Name l
  /\ Py.strip (Product_Title_Description l) = Product_Title_Description l.

(** A stored record names a company or a product. *)
Definition identified (d : gmap string value) : Prop :=
  exists name title,
    d !! "Company Name" = Some (VStr name)
    /\ d !! "Product Title/Description" = Some (VStr title)
    /\ (name <> "" \/ title <> "").

Definition stored (self : Scraper) : Prop := Forall identified (leads self).

(** What a call of the profile function, decorated or not, leaves of the
    state [s] it started in: the same windows, the focus on [h] if it was
    there, and a tidy lead if it was tidy. *)
Definition restored (h : handle) (s s' : Lead * Browser) : Prop :=
  window_handles (snd s') = window_handles (snd s)
  /\ (current_window_handle (snd s) = h -> h ∈ window_handles (snd s) ->
      current_window_handle (snd s') = h)
  /\ (tidy (fst s) -> tidy (fst s')).

(** The relevancy score of a stored record, [0] when it has none. *)
Definition int_score (x : gmap string value) : Z :=
  match score_key x with
  | VInt z => z
  | VStr _ => 0
  end.

Definition has_score (z : Z) (x : gmap string value) : bool :=
  int_score x =? z.

(** The row of a record: its value under each of the nine fields, the
    empty string where it has none. *)
Definition row_of (x : gmap string value) : list value :=
  (fun c => default (VStr "") (x !! c)) <$> fields.

(* ===================================================================== *)
(** * The specification's wording, where it differs from the code *)
(* ===================================================================== *)

(** "The substring after [@]": what follows the first [@]. *)
Fixpoint text_after_at (email : string) : option string :=
  match email with
  | EmptyString => None
  | String c rest =>
      if Ascii.eqb c "@" then Some rest else text_after_at rest
  end.

(** Email normalization as the specification words it. *)
Definition claimed_validate_email (email : string) : string :=
  match text_after_at email with
  | None => ""
  | Some domain =>
      if Py.contains "." domain then Py.lower (Py.strip email) else ""
  end.

(** The description term as the specification words it: 60, and 2 for
    each occurrence after the first, up to 10. *)
Definition claimed_description_points (k : nat) : Z :=
  60 + Z.min 10 (2 * (Z.of_nat k - 1)).

(* ===================================================================== *)
(** * Scenarios *)
(* ===================================================================== *)

(** An operation that fails on its first call and succeeds from then on;
    its state counts the calls. *)
Definition flaky (_ : unit) : M nat string :=
  fun calls =>
    if (calls =? 0)%nat then (Raise TimeoutException, Datatypes.S calls)
    else (Return "ok", Datatypes.S calls).

(** The lead of the end-to-end scenario, after enrichment. *)
Definition acme_lead : Lead :=
  {| Company_Name := "Acme Sports"; Company_Profile_URL := "";
     Product_Title_Description := "Leather Cricket Ball, size 5";
     Product_Catalog_URL := ""; Price := "Not Listed"; Address := "";
     Phone_Number := "9876543210"; Email := "sales@acme.com";
     Relevancy_Score := 0 |}.

(** The same lead as the listing shows it, with a profile to visit. *)
Definition acme_listing : Lead :=
  {| Company_Name := "Acme Sports";
     Company_Profile_URL := "https://www.indiamart.com/acme-sports/";
     Product_Title_Description := "Leather Cricket Ball, size 5";
     Product_Catalog_URL := ""; Price := "Not Listed"; Address := "";
     Phone_Number := ""; Email := ""; Relevancy_Score := 0 |}.

Definition acme_profile : ProfilePage :=
  {| pf_opens := true; pf_body := Return tt;
     pf_title := Raise TimeoutException; pf_price := Raise TimeoutException;
     pf_company := Raise TimeoutException;
     pf_location := Raise TimeoutException;
     pf_seller_address := Raise TimeoutException;
     pf_view_mobile := Return tt;
     pf_revealed_phone := Return "9876543210";
     pf_mailto_links := Return [Some "mailto:sales@acme.com"];
     pf_email_candidates := Return [];
     pf_catalog_links := Return [] |}.

(** Two windows open: the home page [1] and the search results [2]. *)
Definition on_results : Browser :=
  {| window_handles := [1; 2]%nat; current_window_handle := 2%nat;
     upcoming := [acme_profile] |}.

Definition acme_card : Card :=
  {| card_product :=
       Return ("Leather Cricket Ball, size 5",
               Some "https://www.indiamart.com/acme-sports/");
     card_price := Raise NoSuchElementException;
     card_company := Return ("Acme Sports", None);
     card_short_location := Raise NoSuchElementException;
     card_full_address := Raise NoSuchElementException;
     card_phone := Raise NoSuchElementException |}.

Definition one_page : ResultsPage :=
  {| pg_container := Return tt; pg_cards := Return [acme_card];
     pg_next := Raise TimeoutException |}.

(** The leads of the export scenario: scores 70 and 95, the first without
    a price. *)
Definition lead_70 : gmap string value :=
  {[ "Company Name" := VStr "Bat Makers"; "Relevancy Score (%)" := VInt 70 ]}.

Definition lead_95 : gmap string value :=
  {[ "Company Name" := VStr "Acme Sports"; "Price" := VStr "250";
     "Relevancy Score (%)" := VInt 95 ]}.

(* ===================================================================== *)
(** * Login *)
(* ===================================================================== *)





(* ===================================================================== *)
(** * Search *)
(* ===================================================================== *)

(** What the buyer page and the results tab show to [search_product]:
    for each element the wait for it together with the action on it,
    which returns or raises.  The click on the second search button is
    the one that opens the results tab, or does not.  [sp_all_india] is
    the body of the [try] that sets the city filter, [sp_show_more] the
    successive waits for and clicks on "Show more results"; when the
    list is used up the button is gone and the wait times out. *)
Record SearchPage : Type := {
  sp_search_box : result unit;
  sp_first_button : result unit;
  sp_second_button : result unit;
  sp_opens_tab : bool;
  sp_container : result unit;
  sp_all_india : result unit;
  sp_show_more : list (result unit) }.

(** A click that opens a tab: one more window, with a handle of its own;
    the focus stays where it was. *)
Definition open_tab : M Browser unit :=
  modify (fun b =>
            {| window_handles :=
                 window_handles b ++ [fresh_handle (window_handles b)];
               current_window_handle := current_window_handle b;
               upcoming := upcoming b |}).

(** [WebDriverWait(driver, t).until(EC.number_of_windows_to_be(n))] *)
Definition wait_number_of_windows (n : nat) : M Browser unit :=
  fun b =>
    if (length (window_handles b) =? n)%nat then (Return tt, b)
    else (Raise TimeoutException, b).

(** [[h for h in driver.window_handles if h != main_window_handle][0]].
    On an empty list that is an [IndexError], an [Exception] of none of
    the classes the handlers tell apart: [RuntimeError] stands for it. *)
Definition other_window (main_window_handle : handle) : M Browser handle :=
  fun b =>
    match List.filter (fun h => negb (h =? main_window_handle)%nat)
            (window_handles b) with
    | h :: _ => (Return h, b)
    | [] => (Raise RuntimeError, b)
    end.

(** The [while True] loop on "Show more results": it goes on while the
    click succeeds and breaks on any [Exception]. *)
Fixpoint show_more {S} (clicks : list (result unit)) : M S unit :=
  match clicks with
  | [] => ret tt
  | Return _ :: rest => show_more rest
  | Raise e :: _ => if is_Exception e then ret tt else raise e
  end.

(** What both [except] clauses of [search_product] do after logging. *)
Definition back_to_main (main_window_handle : handle) : M Browser bool :=
  (b <- get ;;
   (if (1 <? length (window_handles b))%nat then
      (current <- get_current_window_handle ;;
       when (negb (current =? main_window_handle)%nat)
         (try_except close_window is_WebDriverException (fun _ => ret tt)))
    else ret tt) ;;
   switch_to_window main_window_handle ;;
   ret false).

(** The function as written, before decoration. *)
Definition search_function (page : SearchPage) (keyword : string)
  : M Browser bool :=
  (main_window_handle <- get_current_window_handle ;;
   try_except
     (observe (sp_search_box page) ;;
      observe (sp_first_button page) ;;
      observe (sp_second_button page) ;;
      when (sp_opens_tab page) open_tab ;;
      wait_number_of_windows 2 ;;
      new_window_handle <- other_window main_window_handle ;;
      switch_to_window new_window_handle ;;
      observe (sp_container page) ;;
      try_except (observe (sp_all_india page)) is_Exception (fun _ => ret tt) ;;
      show_more (sp_show_more page) ;;
      ret true)
     is_Exception (fun _ => back_to_main main_window_handle)).

(** [@retry(max_attempts=3, delay=2)] *)
Definition search_product (page : SearchPage) (keyword : string) (b : Browser)
  : result (option bool) * Browser * list event :=
  retry 3 2 (def "search_product" (search_function page)) keyword b.

(* ===================================================================== *)
(** * Shutdown *)
(* ===================================================================== *)

(** A driver object and whether [quit] has ended its browser. *)
Record Session : Type := {
  session_driver : Browser;
  session_ended : bool }.

Definition on_session {A} (c : M Browser A) : M Session A :=
  fun s =>
    let '(r, b) := c (session_driver s) in
    (r, {| session_driver := b; session_ended := session_ended s |}).

(** [driver.quit()] *)
Definition quit : M Session unit :=
  modify (fun s => {| session_driver := session_driver s;
                      session_ended := true |}).

(** The [for handle in all_handles[1:]] loop. *)
Fixpoint close_tabs (handles : list handle) : M Session unit :=
  match handles with
  | [] => ret tt
  | handle :: rest =>
      (try_except
         (on_session (switch_to_window handle) ;; on_session close_window)
         is_WebDriverException (fun _ => ret tt) ;;
       close_tabs rest)
  end.

(** [close] on [self.driver], which is [None] or a driver.  With no
    window [all_handles[0]] is an [IndexError], which the [except] clause
    does not catch; [RuntimeError] stands for it. *)
Definition close (self_driver : option Session)
  : result unit * option Session :=
  match self_driver with
  | None => (Return tt, None)
  | Some s =>
      let all_handles := window_handles (session_driver s) in
      let '(r, s') :=
        (when (1 <? length all_handles)%nat (close_tabs (tail all_handles)) ;;
         match all_handles with
         | main_window :: _ =>
             try_except (on_session (switch_to_window main_window) ;; quit)
               is_WebDriverException (fun _ => ret tt)
         | [] => raise RuntimeError
         end) s in
      (r, Some s')
  end.

(* ===================================================================== *)
(** * The command line *)
(* ===================================================================== *)














Section Run.
Variable partial_ratio : string -> string -> Z.



End Run.

(* ===================================================================== *)
(** * Further predicates *)
(* ===================================================================== *)

(** The characters of a string that are not white space, in order. *)
Definition visible (s : string) : string :=
  Py.filter_chars (fun c => negb (Py.isspace c)) s.

(** Every character of the string passes the test. *)
Fixpoint all_chars (p : ascii -> bool) (s : string) : bool :=
  match s with
  | EmptyString => true
  | String c s' => p c && all_chars p s'
  end.

(** The test of [validate_email] as one scan: [dot_in_segment] looks for a
    dot up to the next [@], [dot_after_at] does so from the first [@]. *)
Fixpoint dot_in_segment (s : string) : bool :=
  match s with
  | EmptyString => false
  | String c s' =>
      if bool_decide ("@"%char = c) then false
      else bool_decide ("."%char = c) || dot_in_segment s'
  end.

Fixpoint dot_after_at (s : string) : bool :=
  match s with
  | EmptyString => false
  | String c s' =>
      if bool_decide ("@"%char = c) then dot_in_segment s' else dot_after_at s'
  end.

(** The fields a listing card never fills. *)
Definition unfilled (l : Lead) : Prop :=
  Email l = "" /\ Product_Catalog_URL l = "" /\ Relevancy_Score l = 0.

(** Every field of the lead is as the dictionary was created or as the
    card shows it. *)
Definition read_from (seller_element : Card) (l : Lead) : Prop :=
  (Product_Title_Description l = ""
   \/ exists p, card_product seller_element = Return p
                /\ Product_Title_Description l = Py.strip (fst p))
  /\ (Price l = "Not Listed"
      \/ exists t, card_price seller_element = Return t /\ Price l = Py.strip t)
  /\ (Company_Name l = ""
      \/ exists c, card_company seller_element = Return c
                   /\ Company_Name l = Py.strip (fst c))
  /\ (Company_Profile_URL l = ""
      \/ (exists p, card_product seller_element = Return p
                    /\ Company_Profile_URL l = href_or_empty (snd p))
      \/ (exists c, card_company seller_element = Return c
                    /\ Company_Profile_URL l = href_or_empty (snd c)))
  /\ (Address l = ""
      \/ (exists t, card_short_location seller_element = Return t
                    /\ Address l = Py.strip t)
      \/ (exists t, card_full_address seller_element = Return t
                    /\ Address l = Py.strip t))
  /\ (Phone_Number l = ""
      \/ exists t, card_phone seller_element = Return (true, t)
                   /\ Phone_Number l = validate_phone (Py.strip t)).

(** The product link of the card was read: its text and its address are
    in the lead. *)
Definition product_link_kept (title url : string) (l : Lead) : Prop :=
  Product_Title_Description l = title /\ Company_Profile_URL l = url.

(** What a profile visit may do to the lead [l]: fill a field that was
    empty (the price: that was "Not Listed") and set the address.  The
    profile address and the score are as they were. *)
Definition kept (l l' : Lead) : Prop :=
  Company_Profile_URL l' = Company_Profile_URL l
  /\ Relevancy_Score l' = Relevancy_Score l
  /\ (Company_Name l <> "" -> Company_Name l' = Company_Name l)
  /\ (Product_Title_Description l <> "" ->
      Product_Title_Description l' = Product_Title_Description l)
  /\ (Price l <> "Not Listed" -> Price l' = Price l)
  /\ (Phone_Number l <> "" -> Phone_Number l' = Phone_Number l)
  /\ (Email l <> "" -> Email l' = Email l)
  /\ (Product_Catalog_URL l <> "" ->
      Product_Catalog_URL l' = Product_Catalog_URL l).

(** The email address and the catalog reference of the lead are empty
    or such as the code accepts. *)
Definition vetted (l : Lead) : Prop :=
  validate_email (Email l) = Email l
  /\ (Product_Catalog_URL l = ""
      \/ is_catalog_href (Some (Product_Catalog_URL l)) = true).

(** The browser has the windows [hs] open and its focus on [h], one of
    them. *)
Definition on_window (h : handle) (hs : list handle) (b : Browser) : Prop :=
  window_handles b = hs /\ current_window_handle b = h /\ h ∈ hs.


(** The state of the scraping loop: the browser on the results window,
    at most [min_leads] records stored, each of them in [Q]. *)
Definition scraping (Q : gmap string value -> Prop) (h : handle)
  (hs : list handle) (min_leads : nat) (self : Scraper) : Prop :=
  on_window h hs (driver self)
  /\ (length (leads self) <= min_leads)%nat
  /\ Forall Q (leads self).







(* ===================================================================== *)
(** * Further scenarios *)
(* ===================================================================== *)

(** [flaky] as an object that has the attribute the wrapper reads. *)
Definition named_flaky : function unit nat string :=
  {| fn_name := "operation"; fn_dict := {[ "_name_" := "operation" ]};
     fn_call := flaky |}.

(** The results window of a site that serves no profile page. *)
Definition no_profiles : Browser :=
  {| window_handles := [1; 2]%nat; current_window_handle := 2%nat;
     upcoming := [] |}.

(** A search that goes through: every element is there, the second
    button opens the results tab, "Show more results" is there once. *)
Definition smooth_search : SearchPage :=
  {| sp_search_box := Return tt; sp_first_button := Return tt;
     sp_second_button := Return tt; sp_opens_tab := true;
     sp_container := Return tt; sp_all_india := Raise TimeoutException;
     sp_show_more := [Return tt] |}.

(** The browser after login: the buyer page [1] alone. *)
Definition on_home : Browser :=
  {| window_handles := [1]%nat; current_window_handle := 1%nat;
     upcoming := [] |}.





(* ===================================================================== *)
(** * Facts about the string primitives *)
(* ===================================================================== *)

(** ** What CPython answers *)

Example strip_example :
  Py.strip (String.append TAB (String.append "  Acme  Sports " NEWLINE))
  = "Acme  Sports".
Proof. reflexivity. Qed.

Example count_example :
  Py.count "aa" "aaaaa" = 2%nat /\ Py.count "" "abc" = 4%nat
  /\ Py.count "" "" = 1%nat.
Proof. repeat split. Qed.

Example replace_example :
  Py.replace "  " " " "a     b" = "a   b" /\ Py.replace "" "-" "abc" = "-a-b-c-".
Proof. repeat split. Qed.

Example split_example :
  Py.split "@" "a@b@c.com" = ["a"; "b"; "c.com"]
  /\ Py.split "@" "abc" = ["abc"] /\ Py.split "@" "@" = [""; ""].
Proof. repeat split. Qed.

Example contains_example :
  Py.contains "" "" = true /\ Py.contains "ball" "cricket ball" = true
  /\ Py.contains "cricket ball" "acme sports" = false.
Proof. repeat split. Qed.

Example sanitize_str_example :
  sanitize_str
    (String.append "  Leather   Cricket"
       (String.append NEWLINE (String.append TAB "Ball  ")))
  = "Leather Cricket Ball".
Proof. reflexivity. Qed.

Example validate_phone_example :
  validate_phone "+91 98765-43210" = "9876543210"
  /\ validate_phone "098765 43210" = "9876543210"
  /\ validate_phone "1800 11" = "1800 11"
  /\ validate_phone "" = "".
Proof. repeat split. Qed.

Example validate_email_example :
  validate_email " Sales@Acme.COM " = "sales@acme.com"
  /\ validate_email "sales.acme.com" = ""
  /\ validate_email "sales@acme" = "".
Proof. repeat split. Qed.

Lemma append_cons c s t :
  String.append (String c s) t = String c (String.append s t).
Proof. reflexivity. Qed.

Lemma append_char n t : String.append (String n "") t = String n t.
Proof. reflexivity. Qed.

Lemma append_nil_r s : String.append s "" = s.
Proof. induction s as [|c s IH]; [reflexivity|]. rewrite append_cons. now rewrite IH. Qed.

Lemma length_append s t :
  String.length (String.append s t) = (String.length s + String.length t)%nat.
Proof.
  induction s as [|c s IH]; [reflexivity|].
  rewrite append_cons. cbn [String.length]. now rewrite IH.
Qed.

Lemma truthy_true s : Py.truthy s = true <-> s <> "".
Proof. destruct s; simpl; split; congruence. Qed.

Lemma lower_empty s : Py.lower s = "" <-> s = "".
Proof. destruct s; simpl; split; congruence. Qed.

(** ** Slices *)

Lemma drop_split n s :
  (n <= String.length s)%nat ->
  exists skipped,
    s = String.append skipped (Py.drop n s) /\ String.length skipped = n.
Proof.
  revert s. induction n as [|n IH]; intros s Hn.
  - exists "". split; reflexivity.
  - destruct s as [|c s]; cbn [String.length] in Hn; [lia|].
    destruct (IH s) as [skipped [Hs Hl]]; [lia|].
    exists (String c skipped). split.
    + rewrite append_cons. cbn [Py.drop]. now rewrite <- Hs.
    + cbn [String.length]. now rewrite Hl.
Qed.

Lemma last_chars_split n s :
  (n <= String.length s)%nat ->
  exists skipped,
    s = String.append skipped (Py.last_chars n s)
    /\ String.length (Py.last_chars n s) = n.
Proof.
  intros Hn. unfold Py.last_chars.
  destruct (drop_split (String.length s - n) s) as [skipped [Hs Hl]]; [lia|].
  exists skipped. split; [exact Hs|].
  apply (f_equal String.length) in Hs. rewrite length_append in Hs. lia.
Qed.

(** ** Prefixes and occurrences of one character *)

Lemma startswith_cons x p c s :
  Py.startswith (String x p) (String c s)
  = bool_decide (x = c) && Py.startswith p s.
Proof.
  unfold Py.startswith. cbn [String.prefix]. destruct (ascii_dec x c) as [->|Hne].
  - now rewrite bool_decide_eq_true_2.
  - now rewrite bool_decide_eq_false_2.
Qed.

Lemma startswith_char x c s :
  Py.startswith (String x "") (String c s) = bool_decide (x = c).
Proof.
  rewrite startswith_cons. destruct s; cbn; apply andb_true_r.
Qed.

Lemma contains_char_cons x c s :
  Py.contains (String x "") (String c s)
  = bool_decide (x = c) || Py.contains (String x "") s.
Proof. cbn [Py.contains]. now rewrite startswith_char. Qed.

Lemma contains_char_append x s t :
  Py.contains (String x "") (String.append s t)
  = Py.contains (String x "") s || Py.contains (String x "") t.
Proof.
  induction s as [|c s IH]; [reflexivity|].
  rewrite append_cons, !contains_char_cons, IH. now rewrite orb_assoc.
Qed.

Lemma first_occurrence x s :
  Py.contains (String x "") s = true ->
  exists before after,
    s = String.append before (String x after)
    /\ Py.contains (String x "") before = false.
Proof.
  induction s as [|c s IH]; [discriminate|].
  rewrite contains_char_cons. destruct (bool_decide (x = c)) eqn:Hc.
  - intros _. apply bool_decide_eq_true_1 in Hc. subst c.
    exists "", s. split; reflexivity.
  - cbn [orb]. intros Hs. destruct (IH Hs) as [before [after [-> Hno]]].
    exists (String c before), after. split; [reflexivity|].
    rewrite contains_char_cons, Hc. exact Hno.
Qed.

Lemma up_to_next x s :
  exists segment rest,
    s = String.append segment rest
    /\ Py.contains (String x "") segment = false
    /\ (rest = "" \/ Py.startswith (String x "") rest = true).
Proof.
  induction s as [|c s [segment [rest [-> [Hno Hrest]]]]].
  - exists "", "". repeat split; auto.
  - destruct (bool_decide (x = c)) eqn:Hc.
    + exists "", (String c (String.append segment rest)).
      repeat split. right. now rewrite startswith_char.
    + exists (String c segment), rest. repeat split; [|exact Hrest].
      rewrite contains_char_cons, Hc. exact Hno.
Qed.

(** ** [count] *)

Lemma count_aux_contains sub s :
  sub <> "" ->
  Py.contains sub s = true -> (1 <= Py.count_aux sub 0 s)%nat.
Proof.
  intros Hsub. induction s as [|c s IH].
  - destruct sub; [contradiction|discriminate].
  - cbn [Py.contains Py.count_aux].
    destruct (Py.startswith sub (String c s)); [lia|]. exact IH.
Qed.

Lemma count_contains sub s :
  Py.contains sub s = true -> (1 <= Py.count sub s)%nat.
Proof.
  destruct sub as [|x sub]; [cbn [Py.count]; lia|].
  intros H. unfold Py.count. now apply count_aux_contains.
Qed.

(** ** [split] on one character *)

Lemma rev_string_rev_string s acc acc' :
  Py.rev_string acc (Py.rev_string acc' s)
  = Py.rev_string (String.append s acc) acc'.
Proof.
  revert acc acc'. induction s as [|c s IH]; intros acc acc'; [reflexivity|].
  cbn [Py.rev_string]. now rewrite IH.
Qed.

Lemma rev_string_involutive s :
  Py.rev_string "" (Py.rev_string "" s) = s.
Proof. rewrite rev_string_rev_string. cbn [Py.rev_string]. apply append_nil_r. Qed.

Lemma split_aux_char_skip x cur s t :
  Py.contains (String x "") s = false ->
  Py.split_aux (String x "") 0 cur (String.append s t)
  = Py.split_aux (String x "") 0 (Py.rev_string cur s) t.
Proof.
  revert cur. induction s as [|c s IH]; intros cur Hno; [reflexivity|].
  rewrite contains_char_cons in Hno. apply orb_false_iff in Hno as [Hc Hs].
  rewrite append_cons. cbn [Py.split_aux]. rewrite startswith_char, Hc.
  cbn [Py.rev_string]. now apply IH.
Qed.

Lemma split_aux_char_hit x cur t :
  Py.split_aux (String x "") 0 cur (String x t)
  = Py.rev_string "" cur :: Py.split_aux (String x "") 0 "" t.
Proof.
  cbn [Py.split_aux]. rewrite startswith_char.
  now rewrite bool_decide_eq_true_2.
Qed.

(** [split('@')[1]] is the text between the first [@] and the next one,
    or the end when there is no other. *)
Lemma split_at_1_segment local_part segment rest :
  Py.contains "@" local_part = false ->
  Py.contains "@" segment = false ->
  rest = "" \/ Py.startswith "@" rest = true ->
  split_at_1 (String.append local_part (String "@" (String.append segment rest)))
  = Some segment.
Proof.
  intros Hl Hs Hrest. unfold split_at_1, Py.split.
  rewrite split_aux_char_skip by exact Hl.
  rewrite split_aux_char_hit.
  rewrite split_aux_char_skip by exact Hs.
  destruct Hrest as [->|Hrest].
  - cbn. now rewrite rev_string_involutive.
  - destruct rest as [|c rest]; [discriminate|].
    rewrite startswith_char in Hrest. apply bool_decide_eq_true_1 in Hrest.
    subst c. rewrite split_aux_char_hit. cbn.
    now rewrite rev_string_involutive.
Qed.

(** ** [strip] *)

Lemma lstrip_id s : starts_space s = false -> Py.lstrip s = s.
Proof. destruct s as [|c s]; [reflexivity|]. cbn. now intros ->. Qed.

Lemma starts_space_lstrip s : starts_space (Py.lstrip s) = false.
Proof.
  induction s as [|c s IH]; [reflexivity|]. cbn [Py.lstrip].
  destruct (Py.isspace c) eqn:Hc; [exact IH|]. cbn. exact Hc.
Qed.

Lemma rstrip_id s : ends_space s = false -> Py.rstrip s = s.
Proof.
  induction s as [|c s IH]; [reflexivity|]. intros He. cbn [Py.rstrip].
  destruct s as [|c' s'].
  - cbn in *. now rewrite He.
  - rewrite IH by exact He. reflexivity.
Qed.

Lemma ends_space_rstrip s : ends_space (Py.rstrip s) = false.
Proof.
  induction s as [|c s IH]; [reflexivity|]. cbn [Py.rstrip].
  destruct (Py.rstrip s) as [|c' r] eqn:Hr.
  - destruct (Py.isspace c) eqn:Hc; [reflexivity|]. cbn. exact Hc.
  - exact IH.
Qed.

Lemma starts_space_rstrip s :
  starts_space s = false -> starts_space (Py.rstrip s) = false.
Proof.
  destruct s as [|c s]; [reflexivity|]. cbn [starts_space Py.rstrip]. intros Hc.
  destruct (Py.rstrip s); [rewrite Hc|]; cbn; exact Hc.
Qed.

Lemma strip_trimmed s :
  starts_space (Py.strip s) = false /\ ends_space (Py.strip s) = false.
Proof.
  unfold Py.strip. split.
  - apply starts_space_rstrip, starts_space_lstrip.
  - apply ends_space_rstrip.
Qed.

Lemma strip_id s :
  starts_space s = false -> ends_space s = false -> Py.strip s = s.
Proof.
  intros Hs He. unfold Py.strip. rewrite (lstrip_id s Hs). now apply rstrip_id.
Qed.

Lemma strip_idempotent s : Py.strip (Py.strip s) = Py.strip s.
Proof. destruct (strip_trimmed s). now apply strip_id. Qed.

(** ** [replace] of one character by one character *)

Lemma replace_char_cons o n c s :
  Py.replace (String o "") n (String c s)
  = if bool_decide (o = c) then String.append n (Py.replace (String o "") n s)
    else String c (Py.replace (String o "") n s).
Proof.
  unfold Py.replace. cbn [Py.replace_aux]. rewrite startswith_char.
  reflexivity.
Qed.

Lemma replace_char_id o n s :
  Py.contains (String o "") s = false -> Py.replace (String o "") n s = s.
Proof.
  induction s as [|c s IH]; [reflexivity|].
  rewrite contains_char_cons, replace_char_cons.
  intros H. apply orb_false_iff in H as [Hc Hs]. rewrite Hc. now rewrite IH.
Qed.

Lemma replace_char_removes o n s :
  o <> n ->
  Py.contains (String o "") (Py.replace (String o "") (String n "") s) = false.
Proof.
  intros Hne. induction s as [|c s IH]; [reflexivity|].
  rewrite replace_char_cons. destruct (bool_decide (o = c)) eqn:Hc.
  - rewrite append_char, contains_char_cons, IH.
    now rewrite bool_decide_eq_false_2.
  - now rewrite contains_char_cons, Hc, IH.
Qed.

Lemma replace_char_keeps_out x o n s :
  x <> n ->
  Py.contains (String x "") s = false ->
  Py.contains (String x "") (Py.replace (String o "") (String n "") s) = false.
Proof.
  intros Hne. induction s as [|c s IH]; [reflexivity|].
  rewrite contains_char_cons, replace_char_cons.
  intros H. apply orb_false_iff in H as [Hc Hs].
  destruct (bool_decide (o = c)).
  - rewrite append_char, contains_char_cons, (IH Hs).
    now rewrite bool_decide_eq_false_2.
  - now rewrite contains_char_cons, Hc, IH.
Qed.

Lemma starts_space_replace_char o n s :
  Py.isspace o = true -> Py.isspace n = true ->
  starts_space (Py.replace (String o "") (String n "") s) = starts_space s.
Proof.
  intros Ho Hn. destruct s as [|c s]; [reflexivity|].
  rewrite replace_char_cons. destruct (bool_decide (o = c)) eqn:Hc; [|reflexivity].
  apply bool_decide_eq_true_1 in Hc. subst c. rewrite append_char.
  cbn [starts_space]. now rewrite Ho, Hn.
Qed.

Lemma replace_char_empty o n s :
  Py.replace (String o "") (String n "") s = "" -> s = "".
Proof.
  destruct s as [|c s]; [reflexivity|]. rewrite replace_char_cons.
  destruct (bool_decide (o = c)); discriminate.
Qed.

Lemma ends_space_replace_char o n s :
  Py.isspace o = true -> Py.isspace n = true ->
  ends_space (Py.replace (String o "") (String n "") s) = ends_space s.
Proof.
  intros Ho Hn. induction s as [|c s IH]; [reflexivity|].
  rewrite replace_char_cons.
  destruct s as [|c' s'].
  - change (Py.replace (String o "") (String n "") "") with "".
    destruct (bool_decide (o = c)) eqn:Hc; [|reflexivity].
    apply bool_decide_eq_true_1 in Hc. subst c. rewrite append_char.
    cbn [ends_space]. now rewrite Ho, Hn.
  - assert (Hne : Py.replace (String o "") (String n "") (String c' s') <> "").
    { intros H. apply replace_char_empty in H. discriminate. }
    destruct (Py.replace (String o "") (String n "") (String c' s')) as [|d r] eqn:Hr;
      [contradiction|].
    destruct (bool_decide (o = c)); rewrite ?append_char;
      cbn [ends_space]; cbn [ends_space] in IH; exact IH.
Qed.

(** ** Runs of spaces *)

Lemma squeeze_nil : Py.replace "  " " " "" = "".
Proof. reflexivity. Qed.

Lemma squeeze_hit s :
  Py.replace "  " " " (String " " (String " " s))
  = String " " (Py.replace "  " " " s).
Proof. destruct s; reflexivity. Qed.

Lemma squeeze_miss c s :
  Py.startswith "  " (String c s) = false ->
  Py.replace "  " " " (String c s) = String c (Py.replace "  " " " s).
Proof. intros H. unfold Py.replace. cbn [Py.replace_aux]. now rewrite H. Qed.

Lemma startswith_double_space c s :
  Py.startswith "  " (String c s) = true ->
  exists s', c = " "%char /\ s = String " " s'.
Proof.
  rewrite startswith_cons. intros H. apply andb_true_iff in H as [Hc H].
  apply bool_decide_eq_true_1 in Hc. subst c.
  destruct s as [|c' s']; [discriminate|].
  rewrite startswith_cons in H. apply andb_true_iff in H as [Hc _].
  apply bool_decide_eq_true_1 in Hc. subst c'. eauto.
Qed.

Lemma double_space_ind (P : string -> Prop) :
  P "" ->
  (forall s, P s -> P (String " " (String " " s))) ->
  (forall c s, Py.startswith "  " (String c s) = false -> P s -> P (String c s)) ->
  forall s, P s.
Proof.
  intros Hnil Hhit Hmiss s.
  assert (H : forall n s, (String.length s <= n)%nat -> P s).
  { clear s. induction n as [|n IH]; intros s Hlen.
    - destruct s; [exact Hnil|simpl in Hlen; lia].
    - destruct s as [|c s]; [exact Hnil|]. simpl in Hlen.
      destruct (Py.startswith "  " (String c s)) eqn:Hpre.
      + destruct (startswith_double_space _ _ Hpre) as [s' [-> ->]].
        apply Hhit, IH. simpl in Hlen. lia.
      + apply Hmiss; [exact Hpre|]. apply IH. lia. }
  apply (H (String.length s)). lia.
Qed.

Lemma squeeze_empty s : Py.replace "  " " " s = "" -> s = "".
Proof.
  destruct s as [|c s]; [reflexivity|].
  destruct (Py.startswith "  " (String c s)) eqn:Hpre.
  - destruct (startswith_double_space _ _ Hpre) as [s' [-> ->]].
    rewrite squeeze_hit. discriminate.
  - rewrite squeeze_miss by exact Hpre. discriminate.
Qed.

Lemma length_squeeze s :
  (String.length (Py.replace "  " " " s) <= String.length s)%nat.
Proof.
  induction s as [| s IH | c s Hpre IH] using double_space_ind.
  - rewrite squeeze_nil. cbn [String.length]. lia.
  - rewrite squeeze_hit. cbn [String.length]. lia.
  - rewrite squeeze_miss by exact Hpre. cbn [String.length]. lia.
Qed.

Lemma length_squeeze_lt s :
  Py.contains "  " s = true ->
  (String.length (Py.replace "  " " " s) < String.length s)%nat.
Proof.
  induction s as [| s IH | c s Hpre IH] using double_space_ind.
  - discriminate.
  - intros _. rewrite squeeze_hit. cbn [String.length].
    pose proof (length_squeeze s). lia.
  - cbn [Py.contains]. rewrite Hpre. cbn [orb]. intros H.
    rewrite squeeze_miss by exact Hpre. cbn [String.length].
    apply IH in H. lia.
Qed.

Lemma squeeze_keeps_out x s :
  Py.contains (String x "") s = false ->
  Py.contains (String x "") (Py.replace "  " " " s) = false.
Proof.
  induction s as [| s IH | c s Hpre IH] using double_space_ind.
  - reflexivity.
  - rewrite squeeze_hit, !contains_char_cons.
    intros H. apply orb_false_iff in H as [Hc H].
    apply orb_false_iff in H as [_ H]. now rewrite Hc, IH.
  - rewrite squeeze_miss by exact Hpre. rewrite !contains_char_cons.
    intros H. apply orb_false_iff in H as [Hc H]. now rewrite Hc, IH.
Qed.

Lemma starts_space_squeeze s :
  starts_space (Py.replace "  " " " s) = starts_space s.
Proof.
  destruct s as [|c s]; [reflexivity|].
  destruct (Py.startswith "  " (String c s)) eqn:Hpre.
  - destruct (startswith_double_space _ _ Hpre) as [s' [-> ->]].
    now rewrite squeeze_hit.
  - now rewrite squeeze_miss.
Qed.

Lemma ends_space_cons c s :
  ends_space (String c s) = match s with "" => Py.isspace c | _ => ends_space s end.
Proof. destruct s; reflexivity. Qed.

Lemma ends_space_squeeze s :
  ends_space (Py.replace "  " " " s) = ends_space s.
Proof.
  induction s as [| s IH | c s Hpre IH] using double_space_ind.
  - reflexivity.
  - rewrite squeeze_hit. rewrite (ends_space_cons _ (String " " s)).
    rewrite !ends_space_cons.
    destruct s as [|c s]; [reflexivity|].
    destruct (Py.replace "  " " " (String c s)) eqn:Hr.
    + apply squeeze_empty in Hr. discriminate.
    + exact IH.
  - rewrite squeeze_miss by exact Hpre. rewrite !ends_space_cons.
    destruct s as [|c' s]; [reflexivity|].
    destruct (Py.replace "  " " " (String c' s)) eqn:Hr.
    + apply squeeze_empty in Hr. discriminate.
    + exact IH.
Qed.

(** ** The collapsing loop *)

Lemma collapse_spaces_done fuel v :
  (String.length v <= fuel)%nat ->
  Py.contains "  " (collapse_spaces fuel v) = false.
Proof.
  revert v. induction fuel as [|fuel IH]; intros v Hlen.
  - destruct v; [reflexivity|simpl in Hlen; lia].
  - cbn [collapse_spaces]. destruct (Py.contains "  " v) eqn:Hc; [|exact Hc].
    apply IH. apply length_squeeze_lt in Hc. lia.
Qed.

Lemma collapse_spaces_id fuel v :
  Py.contains "  " v = false -> collapse_spaces fuel v = v.
Proof. intros H. destruct fuel; [reflexivity|]. cbn [collapse_spaces]. now rewrite H. Qed.

Lemma collapse_spaces_keeps_out x fuel v :
  Py.contains (String x "") v = false ->
  Py.contains (String x "") (collapse_spaces fuel v) = false.
Proof.
  revert v. induction fuel as [|fuel IH]; intros v Hv; [exact Hv|].
  cbn [collapse_spaces]. destruct (Py.contains "  " v); [|exact Hv].
  apply IH. now apply squeeze_keeps_out.
Qed.

Lemma starts_space_collapse fuel v :
  starts_space (collapse_spaces fuel v) = starts_space v.
Proof.
  revert v. induction fuel as [|fuel IH]; intros v; [reflexivity|].
  cbn [collapse_spaces]. destruct (Py.contains "  " v); [|reflexivity].
  rewrite IH. apply starts_space_squeeze.
Qed.

Lemma ends_space_collapse fuel v :
  ends_space (collapse_spaces fuel v) = ends_space v.
Proof.
  revert v. induction fuel as [|fuel IH]; intros v; [reflexivity|].
  cbn [collapse_spaces]. destruct (Py.contains "  " v); [|reflexivity].
  rewrite IH. apply ends_space_squeeze.
Qed.

Lemma collapse_spaces_empty fuel v : collapse_spaces fuel v = "" -> v = "".
Proof.
  revert v. induction fuel as [|fuel IH]; intros v; [auto|].
  cbn [collapse_spaces]. destruct (Py.contains "  " v); [|auto].
  intros H. apply IH in H. now apply squeeze_empty.
Qed.

(** ** [sanitize_str] *)

Lemma sanitize_str_clean v :
  Py.strip (sanitize_str v) = sanitize_str v
  /\ Py.contains NEWLINE (sanitize_str v) = false
  /\ Py.contains TAB (sanitize_str v) = false
  /\ Py.contains "  " (sanitize_str v) = false.
Proof.
  unfold sanitize_str, NEWLINE, TAB.
  set (v1 := Py.strip v).
  set (v2 := Py.replace _ " " v1).
  set (v3 := Py.replace _ " " v2).
  destruct (strip_trimmed v) as [Hs He]. fold v1 in Hs, He.
  repeat split.
  - apply strip_id.
    + rewrite starts_space_collapse. subst v3 v2.
      now rewrite !starts_space_replace_char.
    + rewrite ends_space_collapse. subst v3 v2.
      now rewrite !ends_space_replace_char.
  - apply collapse_spaces_keeps_out. subst v3 v2.
    apply replace_char_keeps_out; [discriminate|].
    apply replace_char_removes. discriminate.
  - apply collapse_spaces_keeps_out. subst v3.
    apply replace_char_removes. discriminate.
  - apply collapse_spaces_done. lia.
Qed.

Lemma sanitize_str_fixpoint v :
  Py.strip v = v ->
  Py.contains NEWLINE v = false ->
  Py.contains TAB v = false ->
  Py.contains "  " v = false ->
  sanitize_str v = v.
Proof.
  intros Hs Hn Ht Hd. unfold sanitize_str. rewrite Hs.
  unfold NEWLINE, TAB in *. rewrite (replace_char_id _ _ v Hn).
  rewrite (replace_char_id _ _ v Ht). now apply collapse_spaces_id.
Qed.

Lemma sanitize_str_idempotent v : sanitize_str (sanitize_str v) = sanitize_str v.
Proof.
  destruct (sanitize_str_clean v) as [Hs [Hn [Ht Hd]]].
  now apply sanitize_str_fixpoint.
Qed.

Lemma sanitize_value_idempotent v :
  sanitize_value (sanitize_value v) = sanitize_value v.
Proof. destruct v; simpl; [|reflexivity]. now rewrite sanitize_str_idempotent. Qed.

(* ===================================================================== *)
(** * The field validators *)
(* ===================================================================== *)

(** C10.  [sanitize_data] is idempotent; every string it leaves in a
    dictionary is trimmed, holds no newline and no tab, and holds no two
    spaces in a row.  Values that are not strings, and arguments that are
    not dictionaries, come back as they were. *)
Theorem sanitize_data_idempotent (d : data) :
  sanitize_data (sanitize_data d) = sanitize_data d
  /\ forall d' key s,
       sanitize_data d = Dict d' ->
       d' !! key = Some (VStr s) ->
       Py.strip s = s
       /\ Py.contains NEWLINE s = false
       /\ Py.contains TAB s = false
       /\ Py.contains "  " s = false.
Proof.
  split.
  - destruct d as [d|v]; [|reflexivity]. cbn [sanitize_data]. f_equal.
    rewrite <- map_fmap_compose. apply map_fmap_ext.
    intros k v _. apply sanitize_value_idempotent.
  - intros d' key s Hd Hk. destruct d as [d|v]; [|discriminate].
    cbn [sanitize_data] in Hd. injection Hd as <-.
    rewrite lookup_fmap in Hk.
    destruct (d !! key) as [[s0|z]|]; cbn in Hk; try discriminate.
    injection Hk as <-. apply sanitize_str_clean.
Qed.

Lemma sanitize_data_idempotent_witness :
  Py.contains "  " "Acme Sports" = false.
Proof.
  apply (proj2 (sanitize_data_idempotent
                  (Dict {[ "Company Name" := VStr "  Acme   Sports " ]}))
           {[ "Company Name" := VStr "Acme Sports" ]} "Company Name").
  - vm_compute. reflexivity.
  - vm_compute. reflexivity.
Defined.

(** C4.  [validate_phone]: ten digits in the input give those ten digits;
    eleven or twelve digits that start with 91 or 0 give the last ten of
    them; any other non-empty input comes back unchanged. *)
Theorem validate_phone_cases (phone : string) :
  let digits := Py.filter_chars Py.isdigit phone in
  (String.length digits = 10%nat -> validate_phone phone = digits)
  /\ ((String.length digits = 11%nat \/ String.length digits = 12%nat) ->
      (Py.startswith "91" digits = true \/ Py.startswith "0" digits = true) ->
      String.length (validate_phone phone) = 10%nat
      /\ exists skipped, digits = String.append skipped (validate_phone phone))
  /\ (phone <> "" ->
      String.length digits <> 10%nat ->
      ~ ((String.length digits = 11%nat \/ String.length digits = 12%nat)
         /\ (Py.startswith "91" digits = true
             \/ Py.startswith "0" digits = true)) ->
      validate_phone phone = phone).
Proof.
  intros digits. unfold validate_phone. fold digits.
  destruct phone as [|c phone'] eqn:Hphone.
  - cbn in digits. subst digits. cbn.
    split; [intros H; discriminate|]. split; [intros [H|H]; discriminate|].
    intros H; congruence.
  - cbn [Py.truthy negb]. rewrite <- Hphone in *. clearbody digits.
    split; [|split].
    + intros H10. now rewrite H10.
    + intros Hlen Hpre.
      assert (Hc : ((String.length digits =? 11)%nat
                    || (String.length digits =? 12)%nat)
                   && (Py.startswith "91" digits || Py.startswith "0" digits)
                   = true).
      { apply andb_true_iff. split; apply orb_true_iff.
        - destruct Hlen as [H|H]; rewrite H; auto.
        - exact Hpre. }
      rewrite Hc.
      destruct (Nat.eqb_spec (String.length digits) 10) as [H10|_]; [lia|].
      destruct (last_chars_split 10 digits) as [sk [Hs Hl]]; [lia|]. eauto.
    + intros _ Hne Hnot.
      destruct (Nat.eqb_spec (String.length digits) 10); [contradiction|].
      destruct (_ && _) eqn:Hc; [|reflexivity].
      exfalso. apply Hnot.
      apply andb_true_iff in Hc as [Hlen Hpre].
      apply orb_true_iff in Hlen. apply orb_true_iff in Hpre.
      split.
      * destruct Hlen as [Hlen|Hlen]; apply Nat.eqb_eq in Hlen; auto.
      * exact Hpre.
Qed.

Lemma validate_phone_cases_witness :
  validate_phone "98765 43210" = "9876543210"
  /\ String.length (validate_phone "+91 98765-43210") = 10%nat
  /\ validate_phone "12345" = "12345".
Proof.
  split; [|split].
  - apply (proj1 (validate_phone_cases "98765 43210")). reflexivity.
  - apply (proj1 (proj2 (validate_phone_cases "+91 98765-43210"))).
    + right. reflexivity.
    + left. reflexivity.
  - apply (proj2 (proj2 (validate_phone_cases "12345"))).
    + discriminate.
    + vm_compute. lia.
    + vm_compute. intros [[H|H] _]; lia.
Defined.

(** C5, as the code has it.  [validate_email] answers the empty string
    when the input has no [@], and otherwise decides on the text between
    the first [@] and the next one (the end of the input when there is no
    other): without a dot there the answer is the empty string, with one
    it is the input, stripped and lower-cased.  Text after a second [@]
    is not looked at. *)
Theorem validate_email_cases (email : string) :
  (Py.contains "@" email = false -> validate_email email = "")
  /\ (forall local_part segment rest,
        email = String.append local_part (String "@" (String.append segment rest)) ->
        Py.contains "@" local_part = false ->
        Py.contains "@" segment = false ->
        rest = "" \/ Py.startswith "@" rest = true ->
        validate_email email
        = if Py.contains "." segment then Py.lower (Py.strip email) else "")
  /\ (Py.contains "@" email = true ->
      exists local_part segment rest,
        email = String.append local_part (String "@" (String.append segment rest))
        /\ Py.contains "@" local_part = false
        /\ Py.contains "@" segment = false
        /\ (rest = "" \/ Py.startswith "@" rest = true)).
Proof.
  split; [|split].
  - intros Hno. unfold validate_email. rewrite Hno.
    now destruct (negb (Py.truthy email)).
  - intros local_part segment rest Hemail Hl Hs Hrest.
    unfold validate_email.
    assert (Hat : Py.contains "@" email = true).
    { rewrite Hemail, contains_char_append, contains_char_cons.
      rewrite bool_decide_eq_true_2 by reflexivity. apply orb_true_r. }
    rewrite Hat.
    assert (Ht : Py.truthy email = true).
    { destruct email; [discriminate Hat|reflexivity]. }
    rewrite Ht. cbn [negb andb].
    rewrite Hemail at 1. now rewrite split_at_1_segment.
  - intros Hat. destruct (first_occurrence _ _ Hat) as [l [after [-> Hl]]].
    destruct (up_to_next "@" after) as [segment [rest [-> [Hs Hrest]]]].
    exists l, segment, rest. auto.
Qed.

Lemma validate_email_cases_witness :
  validate_email " Sales@Acme.COM "
  = (if Py.contains "." "Acme.COM " then Py.lower (Py.strip " Sales@Acme.COM ")
     else "").
Proof.
  apply (proj1 (proj2 (validate_email_cases " Sales@Acme.COM "))
           " Sales" "Acme.COM " "").
  - reflexivity.
  - reflexivity.
  - reflexivity.
  - left. reflexivity.
Defined.

(** C5, as stated, fails: [a@b@c.com] has an [@] and a dot after it, so
    the specification's wording gives the address back, but the code looks
    for the dot in [b] only and answers the empty string. *)
Lemma validate_email_second_at :
  Py.contains "@" "a@b@c.com" = true
  /\ text_after_at "a@b@c.com" = Some "b@c.com"
  /\ Py.contains "." "b@c.com" = true
  /\ claimed_validate_email "a@b@c.com" = "a@b@c.com"
  /\ validate_email "a@b@c.com" = ""
  /\ validate_email "a@b@c.com" <> claimed_validate_email "a@b@c.com".
Proof. repeat split; discriminate. Qed.

(* ===================================================================== *)
(** * The retry decorator *)
(* ===================================================================== *)

Lemma getattr_def {Args S A} name (body : Args -> M S A) :
  getattr (def name body) "_name_" = None.
Proof. unfold getattr, def. cbn. apply lookup_empty. Qed.

Lemma retry_returns_first {Args S A} max_attempts delay
  (func : function Args S A) args s a s' :
  (0 < max_attempts)%nat ->
  fn_call func args s = (Return a, s') ->
  retry max_attempts delay func args s = (Return (Some a), s', [Invoked]).
Proof.
  intros Hmax Hcall. unfold retry.
  destruct max_attempts as [|n]; [lia|]. cbn [wrapper_loop].
  now rewrite Hcall.
Qed.

(** Were [_name_] an attribute of the function, the wrapper would do what
    its docstring says: a success on the second call is returned after
    two invocations ... *)
Lemma retry_named_second_success {Args S A} delay
  (func : function Args S A) name args s e s1 a s2 :
  getattr func "_name_" = Some name ->
  fn_call func args s = (Raise e, s1) ->
  is_Exception e = true ->
  fn_call func args s1 = (Return a, s2) ->
  retry 3 delay func args s
  = (Return (Some a), s2,
     [Invoked; LogWarning 1 3 name e; Sleep delay; Invoked]).
Proof.
  intros Hname H1 He H2. unfold retry. cbn [wrapper_loop].
  rewrite H1, He, Hname. cbn [Nat.add Nat.eqb]. now rewrite H2.
Qed.

(** ... and three failures in a row raise the third after three
    invocations. *)
Lemma retry_named_all_fail {Args S A} delay
  (func : function Args S A) name args s e1 s1 e2 s2 e3 s3 :
  getattr func "_name_" = Some name ->
  fn_call func args s = (Raise e1, s1) -> is_Exception e1 = true ->
  fn_call func args s1 = (Raise e2, s2) -> is_Exception e2 = true ->
  fn_call func args s2 = (Raise e3, s3) -> is_Exception e3 = true ->
  exists evs,
    retry 3 delay func args s = (Raise e3, s3, evs)
    /\ invocations evs = 3%nat.
Proof.
  intros Hname H1 He1 H2 He2 H3 He3. unfold retry. cbn [wrapper_loop].
  rewrite H1, He1, Hname. cbn [Nat.add Nat.eqb].
  rewrite H2, He2. cbn [Nat.add Nat.eqb].
  rewrite H3, He3. cbn [Nat.add Nat.eqb].
  eexists. split; reflexivity.
Qed.

(** C1 does not hold of the code.  Whatever [max_attempts] is, a function
    made by [def] whose first call fails is invoked once: formatting the
    warning reads [func._name_], which the function object does not have,
    so the handler raises [AttributeError], not the failure of the
    operation, and no second call is made. *)
Theorem retry_gives_up_after_first_failure {Args S A} max_attempts delay name
  (body : Args -> M S A) args s e s' :
  (0 < max_attempts)%nat ->
  body args s = (Raise e, s') ->
  is_Exception e = true ->
  retry max_attempts delay (def name body) args s
  = (Raise AttributeError, s', [Invoked])
  /\ invocations [Invoked] = 1%nat.
Proof.
  intros Hmax Hcall He. split; [|reflexivity]. unfold retry.
  destruct max_attempts as [|n]; [lia|]. cbn [wrapper_loop].
  change (fn_call (def name body)) with body. rewrite Hcall, He.
  now rewrite getattr_def.
Qed.

(** With [max_attempts = 3], the operation that fails once and would then
    succeed is given up after its first call. *)
Lemma retry_gives_up_after_first_failure_witness :
  retry 3 2 (def "operation" flaky) tt 0%nat
  = (Raise AttributeError, 1%nat, [Invoked])
  /\ invocations [Invoked] = 1%nat.
Proof.
  apply (retry_gives_up_after_first_failure 3 2 "operation" flaky tt 0%nat
           TimeoutException 1%nat).
  - lia.
  - reflexivity.
  - reflexivity.
Defined.

Lemma flaky_second_call :
  fn_call (def "operation" flaky) tt 1%nat = (Return "ok", 2%nat).
Proof. reflexivity. Qed.

(* ===================================================================== *)
(** * Relevancy scoring *)
(* ===================================================================== *)

(** On a ratio between 0 and 100 the float products [ratio * 0.6] and
    [ratio * 0.3], truncated by [int], are the integer quotients. *)
Lemma weighted_table :
  forallb
    (fun n =>
       let r := Z.of_nat n in
       (weighted r w06 =? r * 6 / 10) && (weighted r w03 =? r * 3 / 10))
    (seq 0 101) = true.
Proof. vm_compute. reflexivity. Qed.

Lemma weighted_exact r :
  0 <= r <= 100 ->
  weighted r w06 = r * 6 / 10 /\ weighted r w03 = r * 3 / 10.
Proof.
  intros Hr. pose proof weighted_table as H.
  rewrite forallb_forall in H. specialize (H (Z.to_nat r)).
  rewrite Z2Nat.id in H by lia.
  assert (Hin : In (Z.to_nat r) (seq 0 101)) by (apply in_seq; lia).
  apply H in Hin. apply andb_true_iff in Hin as [H6 H3].
  split; now apply Z.eqb_eq.
Qed.

Lemma weighted_06_bounds r : 0 <= r <= 100 -> 0 <= weighted r w06 <= 60.
Proof.
  intros Hr. destruct (weighted_exact r Hr) as [-> _].
  split; [apply Z.div_pos; lia|].
  apply Z.div_le_upper_bound; lia.
Qed.

Lemma weighted_03_bounds r : 0 <= r <= 100 -> 0 <= weighted r w03 <= 30.
Proof.
  intros Hr. destruct (weighted_exact r Hr) as [_ ->].
  split; [apply Z.div_pos; lia|].
  apply Z.div_le_upper_bound; lia.
Qed.

Lemma description_points_substring partial_ratio
  keyword_lower product_desc_lower :
  product_desc_lower <> "" ->
  Py.contains keyword_lower product_desc_lower = true ->
  description_points partial_ratio keyword_lower product_desc_lower
  = 60 + Z.min 10 (2 * Z.of_nat (Py.count keyword_lower product_desc_lower)).
Proof.
  intros Hne Hin. unfold description_points.
  destruct product_desc_lower; [contradiction|]. cbn [Py.truthy].
  rewrite Hin. f_equal. f_equal. lia.
Qed.

Section ScoringFacts.
Variable partial_ratio : string -> string -> Z.

Lemma description_points_bounds keyword_lower product_desc_lower :
  (forall a b, 0 <= partial_ratio a b <= 100) ->
  0 <= description_points partial_ratio keyword_lower product_desc_lower <= 70.
Proof.
  intros Hr. unfold description_points.
  destruct (Py.truthy product_desc_lower); [|lia].
  destruct (Py.contains keyword_lower product_desc_lower).
  - lia.
  - pose proof (weighted_06_bounds _ (Hr keyword_lower product_desc_lower)). lia.
Qed.

Lemma company_points_bounds keyword_lower company_name_lower :
  (forall a b, 0 <= partial_ratio a b <= 100) ->
  0 <= company_points partial_ratio keyword_lower company_name_lower <= 30.
Proof.
  intros Hr. unfold company_points.
  destruct (Py.truthy company_name_lower); [|lia].
  destruct (Py.contains keyword_lower company_name_lower); [lia|].
  apply weighted_03_bounds, Hr.
Qed.

(** The end-to-end scenario: one occurrence in the description gives 62;
    the keyword is not part of the company name, which is scored by the
    fuzzy match; phone and email add 3 and 2. *)
Lemma acme_lead_score :
  _calculate_relevancy_score partial_ratio acme_lead "Cricket Ball"
  = Z.min 100 (67 + weighted (partial_ratio "cricket ball" "acme sports") w03).
Proof.
  unfold _calculate_relevancy_score. cbv zeta.
  change (description_points partial_ratio (Py.lower "Cricket Ball")
            (Py.lower (Product_Title_Description acme_lead))) with 62.
  change (company_points partial_ratio (Py.lower "Cricket Ball")
            (Py.lower (Company_Name acme_lead)))
    with (weighted (partial_ratio "cricket ball" "acme sports") w03).
  cbn [acme_lead Phone_Number Email Address Product_Catalog_URL Py.truthy].
  f_equal. lia.
Qed.

(** With the fuzzy-match primitive in range, the scenario scores 95 only
    when the keyword matches the company name at 94 to 96 percent. *)
Lemma acme_lead_score_95 :
  (forall a b, 0 <= partial_ratio a b <= 100) ->
  _calculate_relevancy_score partial_ratio acme_lead "Cricket Ball" = 95
  <-> 94 <= partial_ratio "cricket ball" "acme sports" <= 96.
Proof.
  intros Hr. rewrite acme_lead_score.
  specialize (Hr "cricket ball" "acme sports").
  destruct (weighted_exact _ Hr) as [_ ->].
  set (r := partial_ratio "cricket ball" "acme sports") in *.
  pose proof (Z.div_mod (r * 3) 10 ltac:(lia)).
  pose proof (Z.mod_pos_bound (r * 3) 10 ltac:(lia)).
  lia.
Qed.

(** C7.  With a fuzzy-match primitive that answers between 0 and 100, the
    score of every lead for every keyword is between 0 and 100; a lead
    with no description, name, phone, email, address or catalog
    reference scores 0. *)
Theorem relevancy_score_range (seller_info : Lead) (keyword : string) :
  (forall a b, 0 <= partial_ratio a b <= 100) ->
  0 <= _calculate_relevancy_score partial_ratio seller_info keyword <= 100
  /\ (Product_Title_Description seller_info = "" ->
      Company_Name seller_info = "" ->
      Phone_Number seller_info = "" ->
      Email seller_info = "" ->
      Address seller_info = "" ->
      Product_Catalog_URL seller_info = "" ->
      _calculate_relevancy_score partial_ratio seller_info keyword = 0).
Proof.
  intros Hr. split.
  - unfold _calculate_relevancy_score. cbv zeta.
    pose proof (description_points_bounds (Py.lower keyword)
                  (Py.lower (Product_Title_Description seller_info)) Hr).
    pose proof (company_points_bounds (Py.lower keyword)
                  (Py.lower (Company_Name seller_info)) Hr).
    destruct (Py.truthy (Phone_Number seller_info)),
      (Py.truthy (Email seller_info)), (Py.truthy (Address seller_info)),
      (Py.truthy (Product_Catalog_URL seller_info)); lia.
  - intros Hd Hn Hp He Ha Hc. unfold _calculate_relevancy_score.
    rewrite Hd, Hn, Hp, He, Ha, Hc. reflexivity.
Qed.

(** C6, as the code has it.  When the description is not empty and holds
    the keyword, case apart, the description term is at least 60 and does
    not depend on the fuzzy-match primitive. *)
Theorem description_points_at_least_60 (seller_info : Lead) (keyword : string) :
  Product_Title_Description seller_info <> "" ->
  Py.contains (Py.lower keyword)
    (Py.lower (Product_Title_Description seller_info)) = true ->
  60 <= description_points partial_ratio (Py.lower keyword)
          (Py.lower (Product_Title_Description seller_info))
  /\ forall other_ratio,
       description_points other_ratio (Py.lower keyword)
         (Py.lower (Product_Title_Description seller_info))
       = description_points partial_ratio (Py.lower keyword)
           (Py.lower (Product_Title_Description seller_info)).
Proof.
  intros Hne Hin.
  assert (Hl : Py.lower (Product_Title_Description seller_info) <> "")
    by (now rewrite lower_empty).
  split.
  - rewrite description_points_substring by assumption. lia.
  - intros other. now rewrite !description_points_substring.
Qed.

(** C3, as the code has it.  When the description is not empty and holds
    the keyword, case apart, [k] times as [str.count] counts (left to
    right, without overlap), then [k] is at least 1 and the description
    term is 60 plus 2 for each of the [k] occurrences, up to 10.  For the
    lead of the scenario that is 62; its company name does not hold the
    keyword and is scored by the fuzzy match, so the score is 67 plus
    that term. *)
Theorem description_points_per_occurrence :
  (forall (seller_info : Lead) (keyword : string),
     Product_Title_Description seller_info <> "" ->
     Py.contains (Py.lower keyword)
       (Py.lower (Product_Title_Description seller_info)) = true ->
     let k := Py.count (Py.lower keyword)
                (Py.lower (Product_Title_Description seller_info)) in
     (1 <= k)%nat
     /\ description_points partial_ratio (Py.lower keyword)
          (Py.lower (Product_Title_Description seller_info))
        = 60 + Z.min 10 (2 * Z.of_nat k))
  /\ description_points partial_ratio (Py.lower "Cricket Ball")
       (Py.lower (Product_Title_Description acme_lead)) = 62
  /\ Py.contains (Py.lower "Cricket Ball") (Py.lower (Company_Name acme_lead))
     = false
  /\ _calculate_relevancy_score partial_ratio acme_lead "Cricket Ball"
     = Z.min 100 (67 + weighted (partial_ratio "cricket ball" "acme sports") w03).
Proof.
  split; [|split; [|split]].
  - intros seller_info keyword Hne Hin k.
    assert (Hl : Py.lower (Product_Title_Description seller_info) <> "")
      by (now rewrite lower_empty).
    split; [now apply count_contains|].
    now apply description_points_substring.
  - reflexivity.
  - reflexivity.
  - apply acme_lead_score.
Qed.

End ScoringFacts.

Lemma relevancy_score_range_witness :
  0 <= _calculate_relevancy_score (fun _ _ => 50) acme_lead "Cricket Ball" <= 100.
Proof.
  apply (relevancy_score_range (fun _ _ => 50) acme_lead "Cricket Ball").
  intros a b. lia.
Defined.

Lemma description_points_at_least_60_witness :
  60 <= description_points (fun _ _ => 0) (Py.lower "Cricket Ball")
          (Py.lower (Product_Title_Description acme_lead)).
Proof.
  apply (description_points_at_least_60 (fun _ _ => 0) acme_lead "Cricket Ball").
  - discriminate.
  - reflexivity.
Defined.

Lemma description_points_per_occurrence_witness :
  description_points (fun _ _ => 0) (Py.lower "ball")
    (Py.lower (Product_Title_Description acme_lead))
  = 60 + Z.min 10 (2 * Z.of_nat 1).
Proof.
  apply (proj1 (description_points_per_occurrence (fun _ _ => 0))
           acme_lead "ball").
  - discriminate.
  - reflexivity.
Defined.

(** C6, as stated, fails for the empty keyword and a lead without
    description: the empty string is a substring of the empty string, but
    an empty description adds nothing. *)
Lemma empty_keyword_in_empty_description :
  Py.contains (Py.lower "")
    (Py.lower (Product_Title_Description new_seller_info)) = true
  /\ description_points (fun _ _ => 100) (Py.lower "")
       (Py.lower (Product_Title_Description new_seller_info)) < 60.
Proof. split; reflexivity. Qed.

(** C3, as stated, fails on its own example: the keyword occurs once in
    the description, which the code scores 62, not 60. *)
Lemma single_occurrence_scores_62 :
  Py.contains (Py.lower "Cricket Ball")
    (Py.lower (Product_Title_Description acme_lead)) = true
  /\ Py.count (Py.lower "Cricket Ball")
       (Py.lower (Product_Title_Description acme_lead)) = 1%nat
  /\ description_points (fun _ _ => 0) (Py.lower "Cricket Ball")
       (Py.lower (Product_Title_Description acme_lead)) = 62
  /\ claimed_description_points 1 = 60
  /\ description_points (fun _ _ => 0) (Py.lower "Cricket Ball")
       (Py.lower (Product_Title_Description acme_lead))
     <> claimed_description_points 1.
Proof. repeat split; discriminate. Qed.

(* ===================================================================== *)
(** * Export *)
(* ===================================================================== *)

Section SortedFacts.
Context {A : Type}.
Variables (key : A -> value) (ikey : A -> Z).

(** Where every key is the integer [ikey] gives, insertion succeeds,
    keeps a sorted list sorted and leaves the elements of each key in the
    order they had with the new element first. *)
Lemma insert_sorted_int x l :
  key x = VInt (ikey x) ->
  Forall (fun y => key y = VInt (ikey y)) l ->
  exists r,
    insert_sorted key x l = Return r
    /\ Permutation r (x :: l)
    /\ (StronglySorted (fun a b => ikey a <= ikey b) l ->
        StronglySorted (fun a b => ikey a <= ikey b) r)
    /\ forall z,
         List.filter (fun y => ikey y =? z) r
         = List.filter (fun y => ikey y =? z) (x :: l).
Proof.
  intros Hx Hl. induction Hl as [|y l Hy Hl IH].
  - exists [x]. repeat split; auto. intros _. repeat constructor.
  - cbn [insert_sorted]. rewrite Hy, Hx. cbn [value_lt].
    destruct (Z.ltb_spec (ikey y) (ikey x)) as [Hlt|Hge].
    + destruct IH as [r [-> [Hperm [Hsorted Hstable]]]].
      exists (y :: r). split; [reflexivity|]. split; [|split].
      * rewrite Hperm. apply perm_swap.
      * intros Hs. apply StronglySorted_inv in Hs as [Hs Hall].
        constructor; [now apply Hsorted|].
        rewrite List.Forall_forall. intros b Hb.
        apply (Permutation_in _ Hperm) in Hb. destruct Hb as [<-|Hb]; [lia|].
        rewrite List.Forall_forall in Hall. now apply Hall.
      * intros z. cbn [List.filter]. rewrite Hstable. cbn [List.filter].
        destruct (Z.eqb_spec (ikey x) z), (Z.eqb_spec (ikey y) z);
          try reflexivity. lia.
    + exists (x :: y :: l). split; [reflexivity|]. split; [reflexivity|]. split.
      * intros Hs. constructor; [exact Hs|].
        apply StronglySorted_inv in Hs as [_ Hall].
        constructor; [lia|].
        rewrite List.Forall_forall in *. intros b Hb. specialize (Hall b Hb). lia.
      * reflexivity.
Qed.

Lemma sort_stable_int l :
  Forall (fun y => key y = VInt (ikey y)) l ->
  exists r,
    sort_stable key l = Return r
    /\ Permutation r l
    /\ StronglySorted (fun a b => ikey a <= ikey b) r
    /\ forall z,
         List.filter (fun y => ikey y =? z) r
         = List.filter (fun y => ikey y =? z) l.
Proof.
  intros Hl. induction Hl as [|x l Hx Hl IH].
  - exists []. repeat split; auto. constructor.
  - destruct IH as [r [Hr [Hperm [Hsorted Hstable]]]].
    cbn [sort_stable]. rewrite Hr.
    assert (Hkr : Forall (fun y => key y = VInt (ikey y)) r).
    { rewrite List.Forall_forall in *. intros y Hy. apply Hl.
      now apply (Permutation_in _ Hperm). }
    destruct (insert_sorted_int x r Hx Hkr)
      as [r' [Hr' [Hperm' [Hsorted' Hstable']]]].
    exists r'. split; [exact Hr'|]. split; [|split].
    + rewrite Hperm'. now constructor.
    + now apply Hsorted'.
    + intros z. rewrite Hstable'. cbn [List.filter]. now rewrite Hstable.
Qed.

Lemma StronglySorted_snoc (R : A -> A -> Prop) l x :
  StronglySorted R l -> Forall (fun y => R y x) l ->
  StronglySorted R (l ++ [x]).
Proof.
  induction 1 as [|a l Hs IH Ha]; intros Hall.
  - repeat constructor.
  - apply Forall_cons_iff in Hall as [Hax Hall]. cbn [app].
    constructor; [now apply IH|].
    apply Forall_app. split; [exact Ha|]. now constructor.
Qed.

Lemma StronglySorted_rev (R : A -> A -> Prop) l :
  StronglySorted R l -> StronglySorted (fun a b => R b a) (rev l).
Proof.
  induction 1 as [|a l Hs IH Ha].
  - constructor.
  - cbn [rev]. apply StronglySorted_snoc; [exact IH|].
    rewrite List.Forall_forall in *. intros y Hy. apply Ha. now apply in_rev.
Qed.

Lemma filter_rev_list (f : A -> bool) l :
  List.filter f (rev l) = rev (List.filter f l).
Proof.
  induction l as [|a l IH]; [reflexivity|].
  cbn [rev List.filter]. rewrite List.filter_app, IH. cbn [List.filter].
  destruct (f a); [reflexivity|]. now rewrite app_nil_r.
Qed.

(** [sorted(..., reverse=True)] on integer keys: a permutation, in
    descending order, equal keys in their original order. *)
Lemma sorted_reverse_int l :
  Forall (fun y => key y = VInt (ikey y)) l ->
  exists r,
    sorted key true l = Return r
    /\ Permutation r l
    /\ StronglySorted (fun a b => ikey b <= ikey a) r
    /\ forall z,
         List.filter (fun y => ikey y =? z) r
         = List.filter (fun y => ikey y =? z) l.
Proof.
  intros Hl. unfold sorted.
  assert (Hrev : Forall (fun y => key y = VInt (ikey y)) (rev l)).
  { rewrite List.Forall_forall in *. intros y Hy. apply Hl. now apply in_rev. }
  destruct (sort_stable_int (rev l) Hrev) as [r [-> [Hperm [Hsorted Hstable]]]].
  exists (rev r). split; [reflexivity|]. split; [|split].
  - rewrite <- (Permutation_rev r), Hperm. symmetry. apply Permutation_rev.
  - now apply StronglySorted_rev in Hsorted.
  - intros z. rewrite filter_rev_list, Hstable, filter_rev_list.
    apply rev_involutive.
Qed.

End SortedFacts.

(** ** The data frame *)

(** After [reindex], a cell of one of the requested columns reads as the
    record's value, or as the empty field where the record has none:
    whether the cell is NaN or was filled. *)
Lemma reindex_cell (cols : list string) (old : list string)
  (r : gmap string value) (c : string) :
  c ∈ cols ->
  default (VStr "")
    ((filter (fun kv => kv.1 ∈ cols) r
      ∪ gset_to_gmap (VStr "") (list_to_set cols ∖ list_to_set old : gset string))
     !! c)
  = default (VStr "") (r !! c).
Proof.
  intros Hc. rewrite lookup_union.
  destruct (r !! c) as [v|] eqn:Hr.
  - rewrite (map_lookup_filter_Some_2 _ r c v); [|exact Hr|exact Hc].
    now destruct (gset_to_gmap _ _ !! c).
  - rewrite map_lookup_filter_None_2 by (left; exact Hr).
    rewrite lookup_gset_to_gmap. now destruct (guard _).
Qed.

Lemma to_csv_reindex (records : list (gmap string value)) :
  to_csv (reindex fields (VStr "") (pd_DataFrame records))
  = {| header := fields; lines := row_of <$> records |}.
Proof.
  unfold to_csv, reindex. cbn [columns rows]. f_equal.
  unfold pd_DataFrame. cbn [columns rows].
  rewrite <- list_fmap_compose. apply list_fmap_ext. intros _ r _.
  cbn [compose]. apply list_fmap_ext. intros i c Hc.
  apply reindex_cell. eapply list_elem_of_lookup_2. exact Hc.
Qed.

(** C8.  For leads that are there, with integer scores where they have
    one: the export succeeds; the file has the nine columns in their
    order; its lines are the rows of the leads sorted by descending
    score, leads of equal score in the order they were collected; the
    cell of a row under a field is the lead's value there, and the empty
    string where the lead has none. *)
Theorem export_sorted_and_filled (self_leads : list (gmap string value)) :
  self_leads <> [] ->
  Forall (fun x => exists z, score_key x = VInt z) self_leads ->
  exists sorted_leads,
    export_to_csv self_leads
    = (true, Some {| header := fields; lines := row_of <$> sorted_leads |})
    /\ fields
       = ["Company Name"; "Product Title/Description"; "Price"; "Address";
          "Phone Number"; "Email"; "Product Catalog URL";
          "Company Profile URL"; "Relevancy Score (%)"]
    /\ (forall x i c,
          fields !! i = Some c ->
          row_of x !! i = Some (default (VStr "") (x !! c)))
    /\ Permutation sorted_leads self_leads
    /\ StronglySorted (fun a b => int_score b <= int_score a) sorted_leads
    /\ forall z,
         List.filter (has_score z) sorted_leads
         = List.filter (has_score z) self_leads.
Proof.
  intros Hne Hint.
  assert (Hkeyed : Forall (fun x => score_key x = VInt (int_score x)) self_leads).
  { eapply List.Forall_impl; [|exact Hint]. intros x [z Hz]. unfold int_score.
    now rewrite Hz. }
  destruct (sorted_reverse_int score_key int_score self_leads Hkeyed)
    as [r [Hr [Hperm [Hsorted Hstable]]]].
  exists r. split; [|split; [reflexivity|split; [|auto]]].
  - unfold export_to_csv. destruct self_leads as [|x l]; [contradiction|].
    rewrite Hr. now rewrite to_csv_reindex.
  - intros x i c Hc. unfold row_of. rewrite list_lookup_fmap, Hc. reflexivity.
Qed.

Lemma export_sorted_and_filled_witness :
  exists sorted_leads,
    export_to_csv [lead_70; lead_95]
    = (true, Some {| header := fields; lines := row_of <$> sorted_leads |})
    /\ fields
       = ["Company Name"; "Product Title/Description"; "Price"; "Address";
          "Phone Number"; "Email"; "Product Catalog URL";
          "Company Profile URL"; "Relevancy Score (%)"]
    /\ (forall x i c,
          fields !! i = Some c ->
          row_of x !! i = Some (default (VStr "") (x !! c)))
    /\ Permutation sorted_leads [lead_70; lead_95]
    /\ StronglySorted (fun a b => int_score b <= int_score a) sorted_leads
    /\ forall z,
         List.filter (has_score z) sorted_leads
         = List.filter (has_score z) [lead_70; lead_95].
Proof.
  apply (export_sorted_and_filled [lead_70; lead_95]).
  - discriminate.
  - repeat constructor.
    + exists 70. reflexivity.
    + exists 95. reflexivity.
Defined.

(** The export scenario: the lead that scores 95 comes first, and the one
    without a price has an empty field in that column. *)
Lemma export_scenario :
  export_to_csv [lead_70; lead_95]
  = (true,
     Some {| header := fields;
             lines :=
               [[VStr "Acme Sports"; VStr ""; VStr "250"; VStr ""; VStr "";
                 VStr ""; VStr ""; VStr ""; VInt 95];
                [VStr "Bat Makers"; VStr ""; VStr ""; VStr ""; VStr "";
                 VStr ""; VStr ""; VStr ""; VInt 70]] |}).
Proof. vm_compute. reflexivity. Qed.

(* ===================================================================== *)
(** * Invariants of monadic code *)
(* ===================================================================== *)

Section Preserves.
Context {S : Type} (P : S -> Prop).

Lemma preserves_ret {A} (a : A) : preserves P (ret a).
Proof. intros s Hs. exact Hs. Qed.

Lemma preserves_raise {A} e : preserves P (@raise S A e).
Proof. intros s Hs. exact Hs. Qed.

Lemma preserves_observe {A} (o : result A) : preserves P (observe o).
Proof. intros s Hs. exact Hs. Qed.

Lemma preserves_get : preserves P get.
Proof. intros s Hs. exact Hs. Qed.

Lemma preserves_modify (f : S -> S) :
  (forall s, P s -> P (f s)) -> preserves P (modify f).
Proof. intros Hf s Hs. now apply Hf. Qed.

Lemma preserves_bind {A B} (c : M S A) (k : A -> M S B) :
  preserves P c -> (forall a, preserves P (k a)) -> preserves P (bind c k).
Proof.
  intros Hc Hk s Hs. unfold bind. specialize (Hc s Hs).
  destruct (c s) as [[a|e] s']; simpl in *; [now apply Hk|exact Hc].
Qed.

Lemma preserves_try_except {A} (body : M S A) catches handler :
  preserves P body -> (forall e, preserves P (handler e)) ->
  preserves P (try_except body catches handler).
Proof.
  intros Hb Hh s Hs. unfold try_except. specialize (Hb s Hs).
  destruct (body s) as [[a|e] s']; simpl in *; [exact Hb|].
  destruct (catches e); [now apply Hh|exact Hb].
Qed.

Lemma preserves_try_finally {A} (body : M S A) cleanup :
  preserves P body -> preserves P cleanup ->
  preserves P (try_finally body cleanup).
Proof.
  intros Hb Hc s Hs. unfold try_finally. specialize (Hb s Hs).
  destruct (body s) as [r s']. simpl in Hb. specialize (Hc s' Hb).
  destruct (cleanup s') as [[u|e] s'']; exact Hc.
Qed.

Lemma preserves_when c (body : M S unit) :
  preserves P body -> preserves P (when c body).
Proof. intros Hb. destruct c; [exact Hb|apply preserves_ret]. Qed.

End Preserves.

Ltac preserve_step :=
  first
    [ apply preserves_ret | apply preserves_raise | apply preserves_observe
    | apply preserves_get
    | apply preserves_bind; [|intros ?]
    | apply preserves_try_except; [|intros ?]
    | apply preserves_when
    | match goal with
      | |- preserves _ (match ?x with _ => _ end) => destruct x
      end ].

(** ** Stripped names and titles *)

Lemma tidy_new_seller_info : tidy new_seller_info.
Proof. split; reflexivity. Qed.

Ltac tidy_modify :=
  apply preserves_modify; intros [] [? ?]; split;
  unfold set_Company_Name, set_Company_Profile_URL,
    set_Product_Title_Description, set_Product_Catalog_URL, set_Price,
    set_Address, set_Phone_Number, set_Email, set_Relevancy_Score;
  cbn [Company_Name Product_Title_Description] in *;
  auto using strip_idempotent.

Lemma listing_fields_tidy seller_element :
  preserves tidy (listing_fields seller_element).
Proof.
  unfold listing_fields. repeat (preserve_step || tidy_modify).
Qed.

Lemma extract_listing_tidy seller_element seller_info :
  _extract_seller_info_from_listing seller_element = Return seller_info ->
  tidy seller_info.
Proof.
  unfold _extract_seller_info_from_listing.
  pose proof (preserves_try_except tidy (listing_fields seller_element)
                is_Exception (fun _ => ret tt)
                (listing_fields_tidy seller_element)
                (fun _ => preserves_ret tidy tt)
                new_seller_info tidy_new_seller_info) as H.
  destruct (try_except _ _ _ _) as [[u|e] l]; [|discriminate].
  intros [= <-]. exact H.
Qed.

Lemma extract_all_tidy seller_elements infos :
  extract_all seller_elements = Return infos -> Forall tidy infos.
Proof.
  revert infos. induction seller_elements as [|c cs IH]; intros infos.
  - intros [= <-]. constructor.
  - cbn [extract_all].
    destruct (_extract_seller_info_from_listing c) as [l|e] eqn:Hl; [|discriminate].
    destruct (extract_all cs) as [ls|e]; [|discriminate].
    intros [= <-]. constructor; [now apply (extract_listing_tidy c)|now apply IH].
Qed.

Lemma profile_fields_tidy page : preserves tidy (profile_fields page).
Proof.
  unfold profile_fields. repeat (preserve_step || tidy_modify).
Qed.


(* ===================================================================== *)
(** * Profile enrichment *)
(* ===================================================================== *)

(** ** The browser *)

Lemma fresh_handle_new (hs : list handle) : fresh_handle hs ∉ hs.
Proof.
  intros Hin. apply max_list_elem_of_le in Hin. unfold fresh_handle in Hin. lia.
Qed.

Lemma find_new_handle (hs : list handle) (n : handle) :
  n ∉ hs ->
  List.find (fun h => negb (bool_decide (h ∈ hs))) (hs ++ [n]) = Some n.
Proof.
  intros Hn.
  assert (H : forall l, (forall x, x ∈ l -> x ∈ hs) ->
            List.find (fun h => negb (bool_decide (h ∈ hs))) (l ++ [n]) = Some n).
  { induction l as [|x l IH]; intros Hl.
    - cbn. now rewrite bool_decide_eq_false_2.
    - cbn. rewrite bool_decide_eq_true_2 by (apply Hl; left). cbn.
      apply IH. intros y Hy. apply Hl. now right. }
  apply H. auto.
Qed.

Lemma filter_out_new (hs : list handle) (n : handle) :
  n ∉ hs ->
  List.filter (fun h => negb (h =? n)%nat) (hs ++ [n]) = hs.
Proof.
  intros Hn. rewrite List.filter_app. cbn. rewrite Nat.eqb_refl. cbn.
  rewrite app_nil_r. induction hs as [|x hs IH]; [reflexivity|].
  cbn. destruct (Nat.eqb_spec x n) as [->|Hne].
  - exfalso. apply Hn. left.
  - cbn. f_equal. apply IH. intros H. apply Hn. now right.
Qed.

Lemma try_except_reraise {S A} (body : M S A) catches s :
  try_except body catches (fun e => raise e) s = body s.
Proof.
  unfold try_except, raise. destruct (body s) as [[a|e] s']; [reflexivity|].
  now destruct (catches e).
Qed.

Lemma on_seller_info_driver {A} (c : M Lead A) f :
  frame_driver (snd (on_seller_info c f)) = frame_driver f
  /\ new_window_handle (snd (on_seller_info c f)) = new_window_handle f.
Proof. unfold on_seller_info. destruct (c (seller_info f)). split; reflexivity. Qed.

Ltac frame_step :=
  cbn [seller_info frame_driver new_window_handle window_handles
       current_window_handle upcoming fst snd is_WebDriverException].

Lemma cleanup_after_visit (h : handle) l (hs : list handle) (n : handle) cur up :
  n ∉ hs ->
  let f := snd (cleanup h
             {| seller_info := l;
                frame_driver := {| window_handles := hs ++ [n];
                                   current_window_handle := cur;
                                   upcoming := up |};
                new_window_handle := Some n |}) in
  fst (cleanup h
         {| seller_info := l;
            frame_driver := {| window_handles := hs ++ [n];
                               current_window_handle := cur;
                               upcoming := up |};
            new_window_handle := Some n |}) = Return tt
  /\ seller_info f = l
  /\ window_handles (frame_driver f) = hs
  /\ current_window_handle (frame_driver f) = (if bool_decide (h ∈ hs) then h else n)
  /\ upcoming (frame_driver f) = up.
Proof.
  intros Hn. unfold cleanup, bind, get, when, try_except, on_driver,
    switch_to_window, close_window, ret.
  assert (Hin : n ∈ hs ++ [n]) by (apply elem_of_app; right; left).
  frame_step. rewrite ?(bool_decide_eq_true_2 _ Hin). frame_step.
  rewrite ?(bool_decide_eq_true_2 _ Hin). frame_step.
  rewrite ?(bool_decide_eq_true_2 _ Hin). frame_step.
  rewrite filter_out_new by exact Hn.
  destruct (bool_decide (h ∈ hs)); frame_step; auto.
Qed.

Lemma cleanup_without_visit (h : handle) l drv :
  cleanup h {| seller_info := l; frame_driver := drv; new_window_handle := None |}
  = (Return tt,
     {| seller_info := l;
        frame_driver :=
          {| window_handles := window_handles drv;
             current_window_handle :=
               if bool_decide (h ∈ window_handles drv) then h
               else current_window_handle drv;
             upcoming := upcoming drv |};
        new_window_handle := None |}).
Proof.
  unfold cleanup, bind, get, when, try_except, on_driver,
    switch_to_window, close_window, ret.
  frame_step. destruct (bool_decide (h ∈ window_handles drv)); frame_step.
  - reflexivity.
  - now destruct drv.
Qed.

(** What a visit leaves of the driver: the windows that were open, and
    the focus on the handle passed in when that window is open. *)
Lemma visit_profile_driver (h : handle) l drv r f :
  visit_profile h
    {| seller_info := l; frame_driver := drv; new_window_handle := None |}
  = (r, f) ->
  window_handles (frame_driver f) = window_handles drv
  /\ (h ∈ window_handles drv -> current_window_handle (frame_driver f) = h).
Proof.
  unfold visit_profile, try_finally. rewrite try_except_reraise.
  unfold bind at 1. unfold on_driver at 1. unfold bind at 1, get at 1, ret at 1.
  frame_step.
  unfold bind at 1. unfold on_driver at 1, window_open at 1. frame_step.
  set (page := match upcoming drv with p :: _ => p | [] => no_page end).
  unfold bind at 1. unfold on_driver at 1. unfold bind at 1, get at 1, ret at 1.
  frame_step.
  destruct (pf_opens page) eqn:Hopen.
  - rewrite length_app. cbn [length].
    replace (length (window_handles drv) <? length (window_handles drv) + 1)%nat
      with true by (symmetry; apply Nat.ltb_lt; lia).
    unfold bind at 1, ret at 1. unfold bind at 1, set_new_window_handle, modify.
    rewrite find_new_handle by apply fresh_handle_new.
    unfold bind at 1, get at 1. frame_step.
    unfold bind at 1, on_driver at 1, switch_to_window at 1. frame_step.
    rewrite bool_decide_eq_true_2 by (apply elem_of_app; right; left).
    frame_step.
    match goal with
    | |- context [on_seller_info ?c ?f0] =>
        destruct (on_seller_info_driver c f0) as [Hd Hn];
        destruct (on_seller_info c f0) as [r' [l' drv' nw]]
    end.
    cbn [frame_driver new_window_handle snd] in Hd, Hn. subst drv' nw.
    pose proof (cleanup_after_visit h l' (window_handles drv)
                  (fresh_handle (window_handles drv))
                  (fresh_handle (window_handles drv))
                  (tail (upcoming drv)) (fresh_handle_new _)) as Hc.
    cbv zeta in Hc. destruct (cleanup h _) as [[u|e] f']; cbn [fst snd] in *;
      destruct Hc as [Hr [_ [Hh [Hcur _]]]]; try discriminate.
    intros [= _ <-].
    split; [exact Hh|]. intros Hin. rewrite Hcur.
    now rewrite bool_decide_eq_true_2.
  - rewrite Nat.ltb_irrefl. unfold raise. unfold bind at 1. frame_step.
    rewrite cleanup_without_visit. intros [= _ <-]. frame_step.
    split; [reflexivity|]. intros Hin. now rewrite bool_decide_eq_true_2.
Qed.

(** ** The visit *)

Lemma preserves_on_driver {A} (Q : Lead -> Prop) (c : M Browser A) :
  preserves (fun f => Q (seller_info f)) (on_driver c).
Proof.
  intros f Hf. unfold on_driver. now destruct (c (frame_driver f)).
Qed.

Lemma preserves_on_seller_info {A} (Q : Lead -> Prop) (c : M Lead A) :
  preserves Q c -> preserves (fun f => Q (seller_info f)) (on_seller_info c).
Proof.
  intros Hc f Hf. unfold on_seller_info. specialize (Hc _ Hf).
  now destruct (c (seller_info f)).
Qed.

Lemma preserves_set_new_window_handle (Q : Lead -> Prop) h :
  preserves (fun f => Q (seller_info f)) (set_new_window_handle h).
Proof. intros f Hf. exact Hf. Qed.

Lemma visit_profile_tidy h :
  preserves (fun f => tidy (seller_info f)) (visit_profile h).
Proof.
  unfold visit_profile, cleanup.
  apply preserves_try_finally.
  - repeat first
      [ apply preserves_on_driver
      | apply preserves_on_seller_info, profile_fields_tidy
      | apply preserves_set_new_window_handle
      | preserve_step ].
  - repeat first [ apply preserves_on_driver | preserve_step ].
Qed.

Lemma restored_refl h s : restored h s s.
Proof. split; [reflexivity|]. split; auto. Qed.

Lemma restored_trans h s1 s2 s3 :
  restored h s1 s2 -> restored h s2 s3 -> restored h s1 s3.
Proof.
  intros [Hw [Hc Ht]] [Hw' [Hc' Ht']]. split; [congruence|]. split.
  - intros Hcur Hin. apply Hc'; [now apply Hc|]. now rewrite Hw.
  - auto.
Qed.

Lemma profile_function_restored h s :
  restored h s (snd (profile_function h s)).
Proof.
  destruct s as [info drv]. unfold profile_function.
  destruct (lacks_contact info && Py.truthy (Company_Profile_URL info));
    [|apply restored_refl].
  pose proof (visit_profile_tidy h
                {| seller_info := info; frame_driver := drv;
                   new_window_handle := None |}) as Ht.
  destruct (visit_profile h _) as [r f] eqn:Hv.
  destruct (visit_profile_driver _ _ _ _ _ Hv) as [Hw Hc].
  cbn [fst snd] in *. split; [exact Hw|]. split; auto.
Qed.

Lemma wrapper_loop_related {Args S A} (R : S -> S -> Prop)
  max_attempts delay (func : function Args S A) args :
  (forall s, R s s) ->
  (forall s1 s2 s3, R s1 s2 -> R s2 s3 -> R s1 s3) ->
  (forall s, R s (snd (fn_call func args s))) ->
  forall turns attempts s,
    R s (snd (fst (wrapper_loop max_attempts delay func turns attempts args s))).
Proof.
  intros Hrefl Htrans Hcall. induction turns as [|turns IH]; intros attempts s.
  - apply Hrefl.
  - cbn [wrapper_loop]. specialize (Hcall s).
    destruct (fn_call func args s) as [[a|e] s']; cbn [fst snd] in *; [exact Hcall|].
    destruct (is_Exception e); [|exact Hcall].
    destruct (getattr func "_name_"); [|exact Hcall].
    destruct (_ =? _)%nat; [exact Hcall|].
    specialize (IH (attempts + 1)%nat s').
    destruct (wrapper_loop _ _ _ _ _ _ _) as [[r s''] evs].
    cbn [fst snd] in *. eapply Htrans; eauto.
Qed.

Lemma extract_detailed_restored h s :
  restored h s (snd (fst (_extract_detailed_info_from_profile h s))).
Proof.
  unfold _extract_detailed_info_from_profile, retry.
  apply wrapper_loop_related.
  - apply restored_refl.
  - apply restored_trans.
  - intros s0. apply profile_function_restored.
Qed.




(** The scenario: the visit fills in phone and email and leaves the
    browser as it was. *)
Lemma acme_enrichment :
  _extract_detailed_info_from_profile 2%nat (acme_listing, on_results)
  = (Return (Some tt),
     (set_Email "sales@acme.com" (set_Phone_Number "9876543210" acme_listing),
      {| window_handles := [1; 2]%nat; current_window_handle := 2%nat;
         upcoming := [] |}),
     [Invoked]).
Proof. vm_compute. reflexivity. Qed.

(** When the tab does not open the call fails at the first attempt, with
    the [AttributeError] of the wrapper, and the browser is as it was. *)
Lemma acme_enrichment_fails :
  _extract_detailed_info_from_profile 2%nat
    (acme_listing,
     {| window_handles := [1; 2]%nat; current_window_handle := 2%nat;
        upcoming := [] |})
  = (Raise AttributeError,
     (acme_listing,
      {| window_handles := [1; 2]%nat; current_window_handle := 2%nat;
         upcoming := [] |}),
     [Invoked]).
Proof. vm_compute. reflexivity. Qed.

(* ===================================================================== *)
(** * The scraping loop *)
(* ===================================================================== *)

Lemma sanitize_lead_dict l : sanitize_lead l = sanitize_value <$> to_dict l.
Proof. reflexivity. Qed.

Lemma to_dict_company_name l :
  to_dict l !! "Company Name" = Some (VStr (Company_Name l)).
Proof. reflexivity. Qed.

Lemma to_dict_product_title l :
  to_dict l !! "Product Title/Description"
  = Some (VStr (Product_Title_Description l)).
Proof. reflexivity. Qed.

Lemma sanitize_str_nonempty s :
  Py.strip s = s -> s <> "" -> sanitize_str s <> "".
Proof.
  intros Hs Hne H. unfold sanitize_str in H. rewrite Hs in H.
  apply collapse_spaces_empty in H. unfold TAB, NEWLINE in H.
  apply replace_char_empty in H. apply replace_char_empty in H. contradiction.
Qed.

Lemma sanitize_lead_identified l :
  tidy l ->
  Py.truthy (Company_Name l) || Py.truthy (Product_Title_Description l) = true ->
  identified (sanitize_lead l).
Proof.
  intros [Hn Ht] Hor. rewrite sanitize_lead_dict.
  exists (sanitize_str (Company_Name l)),
    (sanitize_str (Product_Title_Description l)).
  rewrite !lookup_fmap, to_dict_company_name, to_dict_product_title.
  split; [reflexivity|]. split; [reflexivity|].
  apply orb_true_iff in Hor as [H|H]; apply truthy_true in H.
  - left. now apply sanitize_str_nonempty.
  - right. now apply sanitize_str_nonempty.
Qed.

Section ScrapeFacts.
Variable partial_ratio : string -> string -> Z.

Lemma preserves_on_self_driver {A} (Q : list (gmap string value) -> Prop)
  (c : M Browser A) :
  preserves (fun self => Q (leads self)) (on_self_driver c).
Proof.
  intros self Hs. unfold on_self_driver. now destruct (c (driver self)).
Qed.

(** A computation that keeps [P] and returns only values in [Q]. *)
Lemma preserves_bind_returning {S A B} (P : S -> Prop) (Q : A -> Prop)
  (c : M S A) (k : A -> M S B) :
  preserves P c ->
  (forall s a, fst (c s) = Return a -> Q a) ->
  (forall a, Q a -> preserves P (k a)) ->
  preserves P (bind c k).
Proof.
  intros Hc Hq Hk s Hs. unfold bind. specialize (Hc s Hs). specialize (Hq s).
  destruct (c s) as [[a|e] s']; cbn [fst snd] in *; [|exact Hc].
  apply Hk; auto.
Qed.

Lemma enrich_stored info h : preserves stored (enrich info h).
Proof.
  intros self Hs. unfold enrich.
  destruct (_extract_detailed_info_from_profile h (info, driver self))
    as [[[u|e] [info' drv]] evs]; exact Hs.
Qed.

Lemma enrich_tidy info h self info' :
  tidy info -> fst (enrich info h self) = Return info' -> tidy info'.
Proof.
  intros Ht. unfold enrich.
  pose proof (extract_detailed_restored h (info, driver self)) as [_ [_ H]].
  destruct (_extract_detailed_info_from_profile h (info, driver self))
    as [[[u|e] [info1 drv]] evs]; cbn [fst snd] in *; [|discriminate].
  intros [= <-]. auto.
Qed.

Lemma tidy_set_Relevancy_Score z l : tidy l -> tidy (set_Relevancy_Score z l).
Proof. intros H. exact H. Qed.

Lemma process_leads_stored keyword min_leads h infos :
  Forall tidy infos ->
  preserves stored (process_leads partial_ratio keyword min_leads h infos).
Proof.
  induction 1 as [|info rest Hinfo Hrest IH]; [apply preserves_ret|].
  cbn [process_leads]. apply preserves_bind; [apply preserves_get|]. intros self.
  destruct (_ <=? _)%nat; [apply preserves_ret|].
  apply (preserves_bind_returning stored tidy).
  - destruct (lacks_contact info); [apply enrich_stored|apply preserves_ret].
  - intros s a. destruct (lacks_contact info).
    + now apply enrich_tidy.
    + now intros [= <-].
  - intros info' Hinfo'. apply preserves_bind; [|intros _; exact IH].
    destruct (_ || _) eqn:Hor; [|apply preserves_ret]. cbn [when].
    intros s Hs. unfold bind, get, set_leads, modify, stored.
    cbn [snd leads]. apply Forall_app. split; [exact Hs|].
    constructor; [|constructor].
    apply sanitize_lead_identified; [exact Hinfo'|exact Hor].
Qed.

Lemma page_body_stored keyword min_leads h page :
  preserves stored (page_body partial_ratio keyword min_leads h page).
Proof.
  unfold page_body.
  apply preserves_bind; [apply (preserves_on_self_driver (Forall identified))|].
  intros _. apply preserves_bind; [apply preserves_observe|]. intros _.
  apply preserves_bind; [apply preserves_observe|]. intros seller_elements.
  destruct seller_elements as [|c cs]; [apply preserves_ret|].
  apply (preserves_bind_returning stored (Forall tidy)).
  - apply preserves_observe.
  - intros s infos. apply extract_all_tidy.
  - intros infos Hinfos.
    apply preserves_bind; [now apply process_leads_stored|]. intros _.
    apply preserves_bind; [apply preserves_get|]. intros self.
    destruct (_ <? _)%nat; [|apply preserves_ret].
    apply preserves_try_except; [|intros; apply preserves_ret].
    apply preserves_bind; [apply (preserves_on_self_driver (Forall identified))|].
    intros _. apply preserves_bind; [apply preserves_observe|]. intros _.
    apply preserves_ret.
Qed.

Lemma page_turn_stored keyword min_leads h page :
  preserves stored
    (try_except (page_body partial_ratio keyword min_leads h page)
       is_Exception (fun _ => ret Break)).
Proof.
  apply preserves_try_except; [apply page_body_stored|].
  intros; apply preserves_ret.
Qed.

Lemma scrape_loop_stored keyword min_leads h pages :
  preserves stored (scrape_loop partial_ratio keyword min_leads h pages).
Proof.
  induction pages as [|page rest IH]; intros self Hs; cbn [scrape_loop];
    destruct (_ <? _)%nat; try exact Hs.
  - pose proof (page_turn_stored keyword min_leads h blank_page self Hs) as H.
    destruct (try_except _ _ _ self) as [r self']. exact H.
  - pose proof (page_turn_stored keyword min_leads h page self Hs) as H.
    destruct (try_except _ _ _ self) as [[[|]|e] self']; cbn [snd] in *;
      [now apply IH|exact H|exact H].
Qed.

Lemma scrape_search_results_stored keyword min_leads pages self r self' :
  scrape_search_results partial_ratio keyword min_leads pages self = (r, self') ->
  stored self' /\ forall collected, r = Return collected -> collected = leads self'.
Proof.
  unfold scrape_search_results, bind at 1, set_leads at 1, modify.
  set (self0 := {| driver := driver self; leads := [] |}).
  assert (H0 : stored self0) by constructor.
  unfold bind at 1.
  pose proof (preserves_on_self_driver (Forall identified)
                get_current_window_handle self0 H0) as H1.
  destruct (on_self_driver get_current_window_handle self0) as [[h|e] self1];
    cbn [snd] in H1; [|intros [= <- <-]; split; [exact H1|intros ? [=]]].
  unfold bind at 1.
  pose proof (scrape_loop_stored keyword min_leads h pages self1 H1) as H2.
  destruct (scrape_loop _ _ _ _ _ self1) as [[u|e] self2]; cbn [snd] in H2;
    [|intros [= <- <-]; split; [exact H2|intros ? [=]]].
  unfold bind, get, ret. intros [= <- <-]. split; [exact H2|].
  now intros collected [= <-].
Qed.

(** C9.  Whatever the site serves, every record [scrape_search_results]
    leaves in the lead store, and so every record it returns, has a
    company name or a product title that is not empty. *)
Theorem retained_leads_are_identified keyword min_leads pages self :
  Forall identified
    (leads (snd (scrape_search_results partial_ratio keyword min_leads pages self)))
  /\ forall collected,
       fst (scrape_search_results partial_ratio keyword min_leads pages self)
       = Return collected ->
       Forall identified collected.
Proof.
  destruct (scrape_search_results partial_ratio keyword min_leads pages self)
    as [r self'] eqn:E.
  apply scrape_search_results_stored in E as [Hs Hr]. cbn [fst snd].
  split; [exact Hs|]. intros collected Hc. now rewrite (Hr _ Hc).
Qed.

End ScrapeFacts.

Lemma retained_leads_are_identified_witness :
  Forall identified
    [sanitize_lead
       (set_Relevancy_Score 77
          (set_Email "sales@acme.com"
             (set_Phone_Number "9876543210" acme_listing)))].
Proof.
  apply (proj2 (retained_leads_are_identified (fun _ _ => 35) "Cricket Ball" 1
                  [one_page] {| driver := on_results; leads := [] |})).
  vm_compute. reflexivity.
Defined.

(** The end-to-end scenario: one card, enriched from its profile, scored
    and stored; a record with neither name nor title is dropped. *)
Lemma scrape_scenario :
  fst (scrape_search_results (fun _ _ => 35) "Cricket Ball" 1 [one_page]
         {| driver := on_results; leads := [] |})
  = Return
      [sanitize_lead
         (set_Relevancy_Score 77
            (set_Email "sales@acme.com"
               (set_Phone_Number "9876543210" acme_listing)))].
Proof. vm_compute. reflexivity. Qed.

(* ===================================================================== *)
(** * What the validators keep *)
(* ===================================================================== *)

(** ** What sanitizing keeps *)

Lemma visible_lstrip s : visible (Py.lstrip s) = visible s.
Proof.
  induction s as [|c s IH]; [reflexivity|]. cbn [Py.lstrip].
  destruct (Py.isspace c) eqn:Hc; [|reflexivity].
  unfold visible in *. cbn [Py.filter_chars]. now rewrite Hc.
Qed.

Lemma visible_rstrip s : visible (Py.rstrip s) = visible s.
Proof.
  induction s as [|c s IH]; [reflexivity|]. cbn [Py.rstrip].
  unfold visible in *.
  destruct (Py.rstrip s) as [|c' r] eqn:Hr.
  - cbn [Py.filter_chars] in IH. cbn [Py.filter_chars]. rewrite <- IH.
    destruct (Py.isspace c) eqn:Hc; cbn [Py.filter_chars negb];
      rewrite ?Hc; reflexivity.
  - cbn [Py.filter_chars]. cbn [Py.filter_chars] in IH. now rewrite IH.
Qed.

Lemma visible_strip s : visible (Py.strip s) = visible s.
Proof. unfold Py.strip. now rewrite visible_rstrip, visible_lstrip. Qed.

Lemma visible_replace_char o n s :
  Py.isspace o = true -> Py.isspace n = true ->
  visible (Py.replace (String o "") (String n "") s) = visible s.
Proof.
  intros Ho Hn. induction s as [|c s IH]; [reflexivity|].
  rewrite replace_char_cons. destruct (bool_decide (o = c)) eqn:Hc.
  - apply bool_decide_eq_true_1 in Hc. subst c. rewrite append_char.
    unfold visible in *. cbn [Py.filter_chars]. now rewrite Ho, Hn.
  - unfold visible in *. cbn [Py.filter_chars]. now rewrite IH.
Qed.

Lemma visible_squeeze s : visible (Py.replace "  " " " s) = visible s.
Proof.
  induction s as [| s IH | c s Hpre IH] using double_space_ind.
  - reflexivity.
  - rewrite squeeze_hit. unfold visible in *. cbn [Py.filter_chars].
    change (Py.isspace " ") with true. cbn [negb]. exact IH.
  - rewrite squeeze_miss by exact Hpre. unfold visible in *.
    cbn [Py.filter_chars]. now rewrite IH.
Qed.

Lemma visible_collapse fuel v : visible (collapse_spaces fuel v) = visible v.
Proof.
  revert v. induction fuel as [|fuel IH]; intros v; [reflexivity|].
  cbn [collapse_spaces]. destruct (Py.contains "  " v); [|reflexivity].
  rewrite IH. apply visible_squeeze.
Qed.

Lemma length_lstrip s : (String.length (Py.lstrip s) <= String.length s)%nat.
Proof.
  induction s as [|c s IH]; [reflexivity|]. cbn [Py.lstrip].
  destruct (Py.isspace c); cbn [String.length]; lia.
Qed.

Lemma length_rstrip s : (String.length (Py.rstrip s) <= String.length s)%nat.
Proof.
  induction s as [|c s IH]; [reflexivity|]. cbn [Py.rstrip].
  destruct (Py.rstrip s) as [|c' r].
  - destruct (Py.isspace c); cbn [String.length]; lia.
  - cbn [String.length] in *. lia.
Qed.

Lemma length_replace_char o n s :
  String.length (Py.replace (String o "") (String n "") s) = String.length s.
Proof.
  induction s as [|c s IH]; [reflexivity|]. rewrite replace_char_cons.
  destruct (bool_decide (o = c)); rewrite ?append_char; cbn [String.length];
    now rewrite IH.
Qed.

Lemma length_collapse fuel v :
  (String.length (collapse_spaces fuel v) <= String.length v)%nat.
Proof.
  revert v. induction fuel as [|fuel IH]; intros v; [reflexivity|].
  cbn [collapse_spaces]. destruct (Py.contains "  " v); [|reflexivity].
  specialize (IH (Py.replace "  " " " v)). pose proof (length_squeeze v). lia.
Qed.

Lemma sanitize_str_visible v :
  visible (sanitize_str v) = visible v
  /\ (String.length (sanitize_str v) <= String.length v)%nat.
Proof.
  unfold sanitize_str, NEWLINE, TAB. split.
  - rewrite visible_collapse, !visible_replace_char by reflexivity.
    apply visible_strip.
  - etransitivity; [apply length_collapse|].
    rewrite !length_replace_char. unfold Py.strip.
    etransitivity; [apply length_rstrip|apply length_lstrip].
Qed.

(** X1.  [sanitize_data] changes white space only: the result has the
    keys of the dictionary it was given; an integer is kept; a string is
    replaced by one with the same characters other than white space, in
    the same order, and no longer than it was. *)
Theorem sanitize_data_keeps_text (d d' : gmap string value) :
  sanitize_data (Dict d) = Dict d' ->
  dom d' = dom d
  /\ (forall key z, d !! key = Some (VInt z) -> d' !! key = Some (VInt z))
  /\ (forall key s,
        d !! key = Some (VStr s) ->
        exists s',
          d' !! key = Some (VStr s')
          /\ visible s' = visible s
          /\ (String.length s' <= String.length s)%nat).
Proof.
  cbn [sanitize_data]. intros [= <-]. split; [|split].
  - apply dom_fmap_L.
  - intros key z Hk. now rewrite lookup_fmap, Hk.
  - intros key s Hk. exists (sanitize_str s). rewrite lookup_fmap, Hk.
    split; [reflexivity|]. apply sanitize_str_visible.
Qed.

Lemma sanitize_data_keeps_text_witness :
  exists s',
    ({[ "Company Name" := VStr "Acme Sports" ]} : gmap string value)
      !! "Company Name" = Some (VStr s')
    /\ visible s' = visible "  Acme   Sports "
    /\ (String.length s' <= String.length "  Acme   Sports ")%nat.
Proof.
  assert (H : sanitize_data
                (Dict ({[ "Company Name" := VStr "  Acme   Sports " ]}
                       : gmap string value))
              = Dict ({[ "Company Name" := VStr "Acme Sports" ]}
                      : gmap string value)).
  { vm_compute. reflexivity. }
  apply (proj2 (proj2 (sanitize_data_keeps_text _ _ H))).
  vm_compute. reflexivity.
Defined.

(** ** The validators as normal forms *)

Lemma all_chars_filter p s : all_chars p (Py.filter_chars p s) = true.
Proof.
  induction s as [|c s IH]; [reflexivity|]. cbn [Py.filter_chars].
  destruct (p c) eqn:Hc; [|exact IH]. cbn [all_chars]. now rewrite Hc, IH.
Qed.

Lemma filter_all_chars p s : all_chars p s = true -> Py.filter_chars p s = s.
Proof.
  induction s as [|c s IH]; [reflexivity|]. cbn [all_chars Py.filter_chars].
  intros H. apply andb_true_iff in H as [Hc Hs]. now rewrite Hc, IH.
Qed.

Lemma all_chars_drop p n s : all_chars p s = true -> all_chars p (Py.drop n s) = true.
Proof.
  revert s. induction n as [|n IH]; intros s Hs; [exact Hs|].
  destruct s as [|c s]; [reflexivity|]. cbn [Py.drop]. apply IH.
  cbn [all_chars] in Hs. now apply andb_true_iff in Hs as [_ Hs].
Qed.

(** Ten digits are what [validate_phone] takes them for. *)
Lemma validate_phone_ten_digits s :
  all_chars Py.isdigit s = true -> String.length s = 10%nat ->
  validate_phone s = s.
Proof.
  intros Hd Hl. unfold validate_phone.
  destruct s as [|c s]; [discriminate|]. cbn [Py.truthy negb].
  rewrite (filter_all_chars _ _ Hd), Hl. reflexivity.
Qed.

(** X2.  [validate_phone] is a normalisation: applied to its own result
    it changes nothing.  The result is the input itself or ten digits. *)
Theorem validate_phone_idempotent (phone : string) :
  validate_phone (validate_phone phone) = validate_phone phone
  /\ (validate_phone phone = phone
      \/ (String.length (validate_phone phone) = 10%nat
          /\ all_chars Py.isdigit (validate_phone phone) = true)).
Proof.
  assert (H : validate_phone phone = phone
              \/ (String.length (validate_phone phone) = 10%nat
                  /\ all_chars Py.isdigit (validate_phone phone) = true)).
  { unfold validate_phone.
    destruct (negb (Py.truthy phone)) eqn:Ht.
    - left. destruct phone; [reflexivity|discriminate].
    - set (digits := Py.filter_chars Py.isdigit phone).
      destruct (Nat.eqb_spec (String.length digits) 10) as [H10|Hne].
      + right. split; [exact H10|apply all_chars_filter].
      + destruct (_ && _) eqn:Hc; [|now left]. right.
        apply andb_true_iff in Hc as [Hlen _]. apply orb_true_iff in Hlen.
        destruct (last_chars_split 10 digits) as [skipped [_ Hl]].
        { destruct Hlen as [Hlen|Hlen]; apply Nat.eqb_eq in Hlen; lia. }
        split; [exact Hl|]. unfold Py.last_chars.
        apply all_chars_drop, all_chars_filter. }
  split; [|exact H].
  destruct H as [H|[Hl Hd]]; [now rewrite !H|].
  now apply validate_phone_ten_digits.
Qed.

Lemma append_nil_l s : String.append "" s = s.
Proof. reflexivity. Qed.

Lemma dot_after_at_no_at s :
  Py.contains "@" s = false -> dot_after_at s = false.
Proof.
  induction s as [|c s IH]; [reflexivity|].
  rewrite contains_char_cons. intros H. apply orb_false_iff in H as [Hc Hs].
  cbn [dot_after_at]. rewrite Hc. auto.
Qed.

Lemma dot_after_at_append local_part t :
  Py.contains "@" local_part = false ->
  dot_after_at (String.append local_part (String "@" t)) = dot_in_segment t.
Proof.
  induction local_part as [|c l IH]; intros H.
  - rewrite append_nil_l. cbn [dot_after_at]. now rewrite bool_decide_eq_true_2.
  - rewrite contains_char_cons in H. apply orb_false_iff in H as [Hc Hl].
    rewrite append_cons. cbn [dot_after_at]. rewrite Hc. auto.
Qed.

Lemma dot_in_segment_append segment rest :
  Py.contains "@" segment = false ->
  rest = "" \/ Py.startswith "@" rest = true ->
  dot_in_segment (String.append segment rest) = Py.contains "." segment.
Proof.
  intros Hs Hrest. induction segment as [|c s IH].
  - rewrite append_nil_l. destruct Hrest as [->|Hrest]; [reflexivity|].
    destruct rest as [|c r]; [discriminate|].
    rewrite startswith_char in Hrest. cbn [dot_in_segment]. now rewrite Hrest.
  - rewrite contains_char_cons in Hs. apply orb_false_iff in Hs as [Hc Hs].
    rewrite append_cons. cbn [dot_in_segment]. rewrite Hc, contains_char_cons.
    now rewrite IH.
Qed.

(** The scan decides what [validate_email] decides. *)
Lemma validate_email_scan email :
  validate_email email
  = if dot_after_at email then Py.lower (Py.strip email) else "".
Proof.
  unfold validate_email. destruct email as [|c0 e0]; [reflexivity|].
  cbn [Py.truthy negb]. set (email := String c0 e0).
  destruct (Py.contains "@" email) eqn:Hat.
  - destruct (first_occurrence _ _ Hat) as [l [after [Hemail Hl]]].
    destruct (up_to_next "@" after) as [segment [rest [-> [Hs Hrest]]]].
    rewrite Hemail at 1 2. rewrite split_at_1_segment by assumption.
    rewrite dot_after_at_append, dot_in_segment_append by assumption.
    reflexivity.
  - now rewrite dot_after_at_no_at.
Qed.

Lemma isspace_not_at c : Py.isspace c = true -> bool_decide ("@"%char = c) = false.
Proof.
  intros H. apply bool_decide_eq_false_2. intros <-. discriminate.
Qed.

Lemma isspace_not_dot c : Py.isspace c = true -> bool_decide ("."%char = c) = false.
Proof.
  intros H. apply bool_decide_eq_false_2. intros <-. discriminate.
Qed.

Lemma dot_after_at_lstrip s : dot_after_at (Py.lstrip s) = dot_after_at s.
Proof.
  induction s as [|c s IH]; [reflexivity|]. cbn [Py.lstrip].
  destruct (Py.isspace c) eqn:Hc; [|reflexivity].
  cbn [dot_after_at]. now rewrite (isspace_not_at _ Hc).
Qed.

Lemma rstrip_cons c s :
  Py.rstrip (String c s)
  = match Py.rstrip s with
    | "" => if Py.isspace c then "" else String c ""
    | r => String c r
    end.
Proof. reflexivity. Qed.

Lemma dot_in_segment_rstrip s : dot_in_segment (Py.rstrip s) = dot_in_segment s.
Proof.
  induction s as [|c s IH]; [reflexivity|]. rewrite rstrip_cons.
  destruct (Py.rstrip s) as [|c' r] eqn:Hr.
  - cbn [dot_in_segment] in *. rewrite <- IH.
    destruct (Py.isspace c) eqn:Hc; [|reflexivity].
    now rewrite (isspace_not_at _ Hc), (isspace_not_dot _ Hc).
  - cbn [dot_in_segment] in *. now rewrite IH.
Qed.

Lemma dot_after_at_rstrip s : dot_after_at (Py.rstrip s) = dot_after_at s.
Proof.
  induction s as [|c s IH]; [reflexivity|]. rewrite rstrip_cons.
  pose proof (dot_in_segment_rstrip s) as Hseg.
  destruct (Py.rstrip s) as [|c' r] eqn:Hr.
  - cbn [dot_after_at dot_in_segment] in *. rewrite <- IH, <- Hseg.
    destruct (Py.isspace c) eqn:Hc.
    + now rewrite (isspace_not_at _ Hc).
    + cbn [dot_after_at dot_in_segment]. now destruct (bool_decide _).
  - cbn [dot_after_at] in *. now rewrite IH, Hseg.
Qed.

(** Lower-casing makes no [@], no dot and no white space, and removes
    none. *)
Lemma lower_char_facts c :
  bool_decide ("@"%char = Py.lower_char c) = bool_decide ("@"%char = c)
  /\ bool_decide ("."%char = Py.lower_char c) = bool_decide ("."%char = c)
  /\ Py.isspace (Py.lower_char c) = Py.isspace c
  /\ Py.lower_char (Py.lower_char c) = Py.lower_char c.
Proof.
  destruct c as [[] [] [] [] [] [] [] []]; vm_compute; auto.
Qed.

Lemma dot_in_segment_lower s : dot_in_segment (Py.lower s) = dot_in_segment s.
Proof.
  induction s as [|c s IH]; [reflexivity|]. cbn [Py.lower dot_in_segment].
  destruct (lower_char_facts c) as (-> & -> & _). now rewrite IH.
Qed.

Lemma dot_after_at_lower s : dot_after_at (Py.lower s) = dot_after_at s.
Proof.
  induction s as [|c s IH]; [reflexivity|]. cbn [Py.lower dot_after_at].
  destruct (lower_char_facts c) as (-> & _). now rewrite IH, dot_in_segment_lower.
Qed.

Lemma lower_idempotent s : Py.lower (Py.lower s) = Py.lower s.
Proof.
  induction s as [|c s IH]; [reflexivity|]. cbn [Py.lower].
  destruct (lower_char_facts c) as (_ & _ & _ & ->). now rewrite IH.
Qed.

Lemma starts_space_lower s : starts_space (Py.lower s) = starts_space s.
Proof.
  destruct s as [|c s]; [reflexivity|]. cbn [Py.lower starts_space].
  now destruct (lower_char_facts c) as (_ & _ & -> & _).
Qed.

Lemma ends_space_lower s : ends_space (Py.lower s) = ends_space s.
Proof.
  induction s as [|c s IH]; [reflexivity|].
  destruct s as [|c' s'].
  - cbn [Py.lower ends_space]. now destruct (lower_char_facts c) as (_ & _ & -> & _).
  - change (ends_space (Py.lower (String c' s')) = ends_space (String c' s')).
    exact IH.
Qed.

Lemma strip_lower_strip s : Py.strip (Py.lower (Py.strip s)) = Py.lower (Py.strip s).
Proof.
  destruct (strip_trimmed s) as [Hs He].
  apply strip_id; [now rewrite starts_space_lower|now rewrite ends_space_lower].
Qed.

Lemma dot_after_at_contains s :
  dot_after_at s = true -> Py.contains "@" s = true /\ Py.contains "." s = true.
Proof.
  assert (Hseg : forall t, dot_in_segment t = true -> Py.contains "." t = true).
  { induction t as [|c t IH]; [discriminate|]. cbn [dot_in_segment].
    rewrite contains_char_cons. destruct (bool_decide ("@"%char = c)); [discriminate|].
    intros H. apply orb_true_iff in H as [H|H]; [now rewrite H|].
    rewrite (IH H). apply orb_true_r. }
  induction s as [|c s IH]; [discriminate|]. cbn [dot_after_at].
  rewrite !contains_char_cons. destruct (bool_decide ("@"%char = c)) eqn:Hc.
  - intros H. split; [reflexivity|]. rewrite (Hseg _ H). apply orb_true_r.
  - intros H. destruct (IH H) as [-> ->]. now rewrite !orb_true_r.
Qed.

Lemma validate_email_fixed email :
  validate_email (validate_email email) = validate_email email.
Proof.
  rewrite !validate_email_scan.
  destruct (dot_after_at email) eqn:Hok; [|reflexivity].
  assert (Hok' : dot_after_at (Py.lower (Py.strip email)) = true).
  { unfold Py.strip.
    now rewrite dot_after_at_lower, dot_after_at_rstrip, dot_after_at_lstrip. }
  now rewrite Hok', strip_lower_strip, lower_idempotent.
Qed.

(** X3.  [validate_email] is a normalisation: applied to its own result
    it changes nothing.  A result that is not empty has an [@] and a dot,
    no white space around it and no capital letter. *)
Theorem validate_email_idempotent (email : string) :
  validate_email (validate_email email) = validate_email email
  /\ (validate_email email = ""
      \/ (Py.contains "@" (validate_email email) = true
          /\ Py.contains "." (validate_email email) = true
          /\ Py.strip (validate_email email) = validate_email email
          /\ Py.lower (validate_email email) = validate_email email)).
Proof.
  split; [apply validate_email_fixed|].
  rewrite (validate_email_scan email).
  destruct (dot_after_at email) eqn:Hok; [|now left].
  assert (Hok' : dot_after_at (Py.lower (Py.strip email)) = true).
  { unfold Py.strip.
    now rewrite dot_after_at_lower, dot_after_at_rstrip, dot_after_at_lstrip. }
  right. destruct (dot_after_at_contains _ Hok') as [Hat Hdot].
  repeat split; auto using strip_lower_strip, lower_idempotent.
Qed.

(* ===================================================================== *)
(** * The bound on retries *)
(* ===================================================================== *)

(** The loop with [turns] turns left and [attempts] failures counted, as
    the wrapper runs it ([turns + attempts = max_attempts]). *)
Lemma wrapper_loop_bounded {Args S A} max_attempts delay
  (func : function Args S A) args :
  forall turns attempts s r s' evs,
    (turns + attempts = max_attempts)%nat ->
    wrapper_loop max_attempts delay func turns attempts args s = (r, s', evs) ->
    (invocations evs <= turns)%nat
    /\ (0 < turns -> 0 < invocations evs)%nat
    /\ (r = Return None -> turns = O).
Proof.
  induction turns as [|turns IH]; intros attempts s r s' evs Hinv Hrun.
  - cbn [wrapper_loop] in Hrun. injection Hrun as <- <- <-.
    repeat split; cbn; lia.
  - cbn [wrapper_loop] in Hrun.
    destruct (fn_call func args s) as [[a|e] s1].
    { injection Hrun as <- <- <-. repeat split; cbn; try lia. discriminate. }
    destruct (is_Exception e).
    2:{ injection Hrun as <- <- <-. repeat split; cbn; try lia. discriminate. }
    destruct (getattr func "_name_") as [name|].
    2:{ injection Hrun as <- <- <-. repeat split; cbn; try lia. discriminate. }
    destruct (Nat.eqb_spec (attempts + 1) max_attempts) as [Hlast|Hmore].
    { injection Hrun as <- <- <-. repeat split; cbn; try lia. discriminate. }
    destruct (wrapper_loop _ _ _ turns _ _ _) as [[r1 s2] evs1] eqn:Hrest.
    injection Hrun as <- <- <-.
    assert (Hinv' : (turns + (attempts + 1) = max_attempts)%nat) by lia.
    destruct (IH _ _ _ _ _ Hinv' Hrest) as (Hle & Hpos & Hnone).
    change (invocations (Invoked :: LogWarning (attempts + 1) max_attempts name e
                         :: Sleep delay :: evs1))
      with (Datatypes.S (invocations evs1)).
    repeat split; try lia.
    intros ->. specialize (Hnone eq_refl). lia.
Qed.

(** The decorated function when the call neither raises an [Exception]
    nor fails to return: one invocation, and the outcome of the call. *)
Lemma retry_once {Args S A} max_attempts delay name
  (body : Args -> M S A) args s r s' :
  (0 < max_attempts)%nat ->
  body args s = (r, s') ->
  match r with Return _ => True | Raise e => is_Exception e = false end ->
  retry max_attempts delay (def name body) args s
  = (match r with Return a => Return (Some a) | Raise e => Raise e end,
     s', [Invoked]).
Proof.
  intros Hmax Hcall Hr. unfold retry.
  destruct max_attempts as [|n]; [lia|]. cbn [wrapper_loop fn_call def].
  rewrite Hcall. destruct r as [a|e]; [reflexivity|]. now rewrite Hr.
Qed.

(** What a decorated [def] returned, the call returned. *)
Lemma retry_def_returned {Args S A} max_attempts delay name
  (body : Args -> M S A) args s a s' evs :
  retry max_attempts delay (def name body) args s = (Return (Some a), s', evs) ->
  body args s = (Return a, s').
Proof.
  unfold retry. destruct max_attempts as [|n]; [discriminate|].
  cbn [wrapper_loop fn_call def]. destruct (body args s) as [[a'|e] s1].
  - now intros [= <- <- _].
  - rewrite getattr_def. destruct (is_Exception e); discriminate.
Qed.

(** X4.  Whatever the function object, its attributes included, the
    wrapper invokes it at most [max_attempts] times, and at least once
    when [max_attempts] is positive; the implicit [None] of a loop that
    ends without a call comes back exactly when [max_attempts] is [0]. *)
Theorem retry_invocation_bound {Args S A} max_attempts delay
  (func : function Args S A) args s r s' evs :
  retry max_attempts delay func args s = (r, s', evs) ->
  (invocations evs <= max_attempts)%nat
  /\ (0 < max_attempts -> 0 < invocations evs)%nat
  /\ (r = Return None <-> max_attempts = O).
Proof.
  unfold retry. intros Hrun.
  destruct (wrapper_loop_bounded _ _ _ _ _ _ _ _ _ _ (Nat.add_0_r _) Hrun)
    as (Hle & Hpos & Hnone).
  repeat split; auto.
  intros ->. cbn in Hrun. now injection Hrun as <- _ _.
Qed.

Lemma retry_invocation_bound_witness :
  (invocations [Invoked; LogWarning 1 3 "operation" TimeoutException; Sleep 2;
                Invoked] <= 3)%nat
  /\ (0 < 3 ->
      0 < invocations [Invoked; LogWarning 1 3 "operation" TimeoutException;
                       Sleep 2; Invoked])%nat
  /\ (Return (Some "ok") = Return None <-> 3%nat = O).
Proof.
  apply (retry_invocation_bound 3 2 named_flaky tt 0%nat (Return (Some "ok"))
           2%nat).
  vm_compute. reflexivity.
Defined.

(* ===================================================================== *)
(** * Listing extraction, continued *)
(* ===================================================================== *)

Ltac setters :=
  unfold set_Company_Name, set_Company_Profile_URL,
    set_Product_Title_Description, set_Product_Catalog_URL, set_Price,
    set_Address, set_Phone_Number, set_Email, set_Relevancy_Score.

Lemma listing_fields_unfilled seller_element :
  preserves unfilled (listing_fields seller_element).
Proof.
  unfold listing_fields.
  repeat (preserve_step
          || (apply preserves_modify; intros [] (? & ? & ?); setters;
              unfold unfilled; cbn; auto)).
Qed.

Lemma preserves_observe_bind {S A B} (P : S -> Prop) (o : result A)
  (k : A -> M S B) :
  (forall a, o = Return a -> preserves P (k a)) ->
  preserves P (bind (observe o) k).
Proof.
  intros Hk s Hs. unfold bind, observe. destruct o as [a|e]; [|exact Hs].
  now apply Hk.
Qed.

Lemma preserves_when_true {S} (P : S -> Prop) c (body : M S unit) :
  (c = true -> preserves P body) -> preserves P (when c body).
Proof. destruct c; [auto|intros _; apply preserves_ret]. Qed.

Lemma listing_fields_read_from seller_element :
  preserves (read_from seller_element) (listing_fields seller_element).
Proof.
  unfold listing_fields.
  repeat lazymatch goal with
  | |- preserves _ (bind (observe _) _) =>
      apply preserves_observe_bind; intros ? ?
  | |- preserves _ (bind _ _) => apply preserves_bind; [|intros ?]
  | |- preserves _ (try_except _ _ _) => apply preserves_try_except; [|intros ?]
  | |- preserves _ (when _ _) => apply preserves_when_true; intros ?
  | |- preserves _ (ret _) => apply preserves_ret
  | |- preserves _ get => apply preserves_get
  | |- preserves _ (modify _) =>
      apply preserves_modify;
      intros [name0 url0 title0 catalog0 price0 address0 phone0 email0 score0]
             (? & ? & ? & ? & ? & ?);
      setters; unfold read_from;
      cbn [Company_Name Company_Profile_URL Product_Title_Description
           Product_Catalog_URL Price Address Phone_Number Email
           Relevancy_Score fst snd] in *;
      repeat split; eauto 6
  end.
  right. destruct a4 as [displayed t]. cbn [fst snd] in *. subst displayed. eauto.
Qed.

Lemma preserves_get_bind {S B} (P : S -> Prop) (k : S -> M S B) :
  (forall s, P s -> P (snd (k s s))) -> preserves P (bind get k).
Proof. intros Hk s Hs. unfold bind, get. now apply Hk. Qed.

Lemma listing_outcome seller_element :
  match _extract_seller_info_from_listing seller_element with
  | Return l => l = snd (listing_fields seller_element new_seller_info)
  | Raise e => is_Exception e = false
  end.
Proof.
  unfold _extract_seller_info_from_listing, try_except.
  destruct (listing_fields seller_element new_seller_info) as [[u|e] l];
    [reflexivity|].
  destruct (is_Exception e) eqn:He; [reflexivity|exact He].
Qed.

Lemma unfilled_lacks_contact l : unfilled l -> lacks_contact l = true.
Proof.
  intros (He & _ & _). unfold lacks_contact. rewrite He. cbn.
  now rewrite orb_true_r.
Qed.

(** X5.  Whatever a card shows, [_extract_seller_info_from_listing] hands
    back a record unless a lookup is interrupted by something that is not
    an [Exception].  The record has no email address, no catalog reference
    and score [0], so the scraping loop asks for its profile. *)
Theorem listing_never_fails (seller_element : Card) :
  match _extract_seller_info_from_listing seller_element with
  | Return l =>
      Email l = "" /\ Product_Catalog_URL l = "" /\ Relevancy_Score l = 0
      /\ lacks_contact l = true
  | Raise e => is_Exception e = false
  end.
Proof.
  pose proof (listing_outcome seller_element) as H.
  destruct (_extract_seller_info_from_listing seller_element) as [l|e];
    [|exact H].
  assert (Hl : unfilled l).
  { subst l. apply listing_fields_unfilled. repeat split. }
  pose proof (unfilled_lacks_contact l Hl) as Hc.
  destruct Hl as (? & ? & ?). auto.
Qed.

(** X6.  Every field of the record read off a card is as the dictionary
    was created, or is the stripped text (for the phone number: the
    validated text, of a displayed element) or the link of the element of
    the card it is read from. *)
Theorem listing_fields_come_from_card (seller_element : Card) (l : Lead) :
  _extract_seller_info_from_listing seller_element = Return l ->
  read_from seller_element l.
Proof.
  intros H. pose proof (listing_outcome seller_element) as Ho.
  rewrite H in Ho. subst l. apply listing_fields_read_from.
  unfold read_from. cbn. repeat split; auto.
Qed.

Lemma bind_establishes {S A B} (Q : S -> Prop) (c : M S A) (k : A -> M S B) s :
  Q (snd (c s)) -> (forall a, preserves Q (k a)) -> Q (snd (bind c k s)).
Proof.
  intros Hc Hk. unfold bind. destruct (c s) as [[a|e] s']; [|exact Hc].
  now apply Hk.
Qed.

(** X7.  When the product link of the card has an address that is not
    empty, that address is the profile address of the record and the
    text of the link its title, whatever the company link says and
    whichever of the later lookups fails. *)
Theorem listing_product_link_first (seller_element : Card)
  (title url : string) (l : Lead) :
  card_product seller_element = Return (title, Some url) ->
  url <> "" ->
  _extract_seller_info_from_listing seller_element = Return l ->
  Product_Title_Description l = Py.strip title /\ Company_Profile_URL l = url.
Proof.
  intros Hp Hurl H. pose proof (listing_outcome seller_element) as Ho.
  rewrite H in Ho. subst l.
  change (product_link_kept (Py.strip title) url
            (snd (listing_fields seller_element new_seller_info))).
  unfold listing_fields. apply bind_establishes.
  - rewrite Hp. split; reflexivity.
  - intros _.
    repeat lazymatch goal with
    | |- preserves _ (bind get _) =>
        let Hu := fresh "Hu" in
        apply preserves_get_bind; intros ? [? Hu]; rewrite Hu;
        destruct url; [congruence|]; cbn [Py.truthy negb when];
        split; assumption
    | |- preserves _ (bind _ _) => apply preserves_bind; [|intros ?]
    | |- preserves _ (try_except _ _ _) =>
        apply preserves_try_except; [|intros ?]
    | |- preserves _ (when _ _) => apply preserves_when
    | |- preserves _ (ret _) => apply preserves_ret
    | |- preserves _ (observe _) => apply preserves_observe
    | |- preserves _ (modify _) =>
        apply preserves_modify; intros [] [? ?]; setters; split; assumption
    end.
Qed.

Lemma listing_fields_come_from_card_witness : read_from acme_card acme_listing.
Proof.
  apply (listing_fields_come_from_card acme_card acme_listing).
  vm_compute. reflexivity.
Defined.

Lemma listing_product_link_first_witness :
  Product_Title_Description acme_listing
  = Py.strip "Leather Cricket Ball, size 5"
  /\ Company_Profile_URL acme_listing = "https://www.indiamart.com/acme-sports/".
Proof.
  apply (listing_product_link_first acme_card "Leather Cricket Ball, size 5"
           "https://www.indiamart.com/acme-sports/" acme_listing).
  - reflexivity.
  - discriminate.
  - vm_compute. reflexivity.
Defined.

(* ===================================================================== *)
(** * Profile enrichment, continued *)
(* ===================================================================== *)

(** ** What a visit keeps *)

Lemma kept_refl l : kept l l.
Proof. repeat split; auto. Qed.

Lemma kept_trans l1 l2 l3 : kept l1 l2 -> kept l2 l3 -> kept l1 l3.
Proof.
  intros (Hu & Hs & Hn & Ht & Hp & Hph & He & Hc)
         (Hu' & Hs' & Hn' & Ht' & Hp' & Hph' & He' & Hc').
  repeat split; try congruence.
  - intros H. rewrite <- (Hn H). apply Hn'. now rewrite (Hn H).
  - intros H. rewrite <- (Ht H). apply Ht'. now rewrite (Ht H).
  - intros H. rewrite <- (Hp H). apply Hp'. now rewrite (Hp H).
  - intros H. rewrite <- (Hph H). apply Hph'. now rewrite (Hph H).
  - intros H. rewrite <- (He H). apply He'. now rewrite (He H).
  - intros H. rewrite <- (Hc H). apply Hc'. now rewrite (Hc H).
Qed.

Lemma truthy_false s : Py.truthy s = false -> s = "".
Proof. destruct s; [reflexivity|discriminate]. Qed.

(** A field is written where the invariant [Hs] of the state [s] lets it
    be: the goal is the invariant of the state with that field set. *)
Ltac fill_field Hs s :=
  destruct s as [name0 url0 title0 catalog0 price0 address0 phone0 email0
                   score0];
  setters; red in Hs; red;
  cbn [Company_Name Company_Profile_URL Product_Title_Description
       Product_Catalog_URL Price Address Phone_Number Email
       Relevancy_Score negb] in *;
  destruct Hs as (? & ? & ? & ? & ? & ? & ? & ?);
  repeat split; try assumption;
  let Hne := fresh "Hne" in
  intros Hne;
  repeat match goal with
         | Hk : ?x <> _ -> _ |- _ => specialize (Hk Hne)
         end;
  try congruence.

Lemma profile_fields_kept page l0 :
  preserves (kept l0) (profile_fields page).
Proof.
  unfold profile_fields.
  apply preserves_bind; [apply preserves_observe|intros _].
  (* title *)
  apply preserves_get_bind; intros s Hs. apply bind_establishes.
  { destruct (Py.truthy (Product_Title_Description s)) eqn:Hg; [exact Hs|].
    apply truthy_false in Hg. cbn [negb when]. unfold try_except, bind, observe.
    destruct (pf_title page) as [t|e]; [|now destruct (is_absent e)].
    cbn [modify snd]. fill_field Hs s. }
  intros _.
  (* price *)
  apply preserves_get_bind; intros s1 Hs1. apply bind_establishes.
  { destruct (String.eqb_spec (Price s1) "Not Listed") as [Hg|Hg]; [|exact Hs1].
    cbn [when]. unfold try_except, bind, observe.
    destruct (pf_price page) as [t|e]; [|now destruct (is_absent e)].
    cbn [modify snd]. fill_field Hs1 s1. }
  intros _.
  (* company *)
  apply preserves_get_bind; intros s2 Hs2. apply bind_establishes.
  { destruct (Py.truthy (Company_Name s2)) eqn:Hg; [exact Hs2|].
    apply truthy_false in Hg. cbn [negb when]. unfold try_except, bind, observe.
    destruct (pf_company page) as [t|e]; [|now destruct (is_absent e)].
    cbn [modify snd]. fill_field Hs2 s2. }
  intros _.
  (* address *)
  apply preserves_bind.
  { assert (Haddr : forall t, preserves (kept l0) (modify (set_Address t))).
    { intros t. apply preserves_modify. intros s3 Hs3. fill_field Hs3 s3. }
    repeat first [ apply Haddr | preserve_step ]. }
  intros _.
  (* phone *)
  apply preserves_get_bind; intros s4 Hs4. apply bind_establishes.
  { destruct (Py.truthy (Phone_Number s4)) eqn:Hg; [exact Hs4|].
    apply truthy_false in Hg. cbn [negb when]. unfold try_except, bind, observe.
    destruct (pf_view_mobile page) as [[]|e]; [|now destruct (is_Exception e)].
    destruct (pf_revealed_phone page) as [t|e]; [|now destruct (is_Exception e)].
    cbn [modify snd]. fill_field Hs4 s4. }
  intros _.
  (* email *)
  apply preserves_get_bind; intros s5 Hs5. apply bind_establishes.
  { destruct (Py.truthy (Email s5)) eqn:Hg; [exact Hs5|].
    apply truthy_false in Hg. cbn [negb when]. unfold try_except, bind, observe.
    destruct (pf_mailto_links page) as [[|[href|] links]|e];
      [| | |now destruct (is_Exception e)].
    - destruct (pf_email_candidates page) as [cands|e];
        [|now destruct (is_Exception e)].
      destruct (first_valid_email cands); [|exact Hs5].
      cbn [modify snd]. fill_field Hs5 s5.
    - cbn [modify snd]. fill_field Hs5 s5.
    - unfold raise. cbn [is_Exception]. exact Hs5. }
  intros _.
  (* catalog *)
  apply preserves_get_bind; intros s6 Hs6.
  destruct (Py.truthy (Product_Catalog_URL s6)) eqn:Hg; [exact Hs6|].
  apply truthy_false in Hg. cbn [negb when]. unfold try_except, bind, observe.
  destruct (pf_catalog_links page) as [links|e]; [|now destruct (is_Exception e)].
  destruct (List.find is_catalog_href links); [|exact Hs6].
  cbn [modify snd]. fill_field Hs6 s6.
Qed.

Lemma visit_profile_kept h l0 :
  preserves (fun f => kept l0 (seller_info f)) (visit_profile h).
Proof.
  unfold visit_profile, cleanup.
  apply preserves_try_finally.
  - repeat first
      [ apply preserves_on_driver
      | apply preserves_on_seller_info, profile_fields_kept
      | apply preserves_set_new_window_handle
      | preserve_step ].
  - repeat first [ apply preserves_on_driver | preserve_step ].
Qed.

Lemma profile_function_kept h (s : Lead * Browser) :
  kept (fst s) (fst (snd (profile_function h s))).
Proof.
  destruct s as [info drv]. unfold profile_function.
  destruct (lacks_contact info && Py.truthy (Company_Profile_URL info));
    [|apply kept_refl].
  pose proof (visit_profile_kept h info
                {| seller_info := info; frame_driver := drv;
                   new_window_handle := None |} (kept_refl info)) as Hk.
  destruct (visit_profile h _) as [r f]. exact Hk.
Qed.

(** X8.  A call of the decorated profile function, whether it returns or
    raises, overwrites nothing the lead already had: the profile address
    and the score are unchanged, and so is a company name, a title, a
    phone number, an email address or a catalog reference that was not
    empty, and a price other than the initial one. *)
Theorem enrichment_keeps_known_fields (h : handle) (info : Lead) (drv : Browser) :
  let '(r, (info', drv'), evs) :=
    _extract_detailed_info_from_profile h (info, drv) in
  Company_Profile_URL info' = Company_Profile_URL info
  /\ Relevancy_Score info' = Relevancy_Score info
  /\ (Company_Name info <> "" -> Company_Name info' = Company_Name info)
  /\ (Product_Title_Description info <> "" ->
      Product_Title_Description info' = Product_Title_Description info)
  /\ (Price info <> "Not Listed" -> Price info' = Price info)
  /\ (Phone_Number info <> "" -> Phone_Number info' = Phone_Number info)
  /\ (Email info <> "" -> Email info' = Email info)
  /\ (Product_Catalog_URL info <> "" ->
      Product_Catalog_URL info' = Product_Catalog_URL info).
Proof.
  assert (H : kept info
                (fst (snd (fst (_extract_detailed_info_from_profile h (info, drv)))))).
  { unfold _extract_detailed_info_from_profile, retry.
    apply (wrapper_loop_related (fun s s' => kept (fst s) (fst s'))).
    - intros s. apply kept_refl.
    - intros s1 s2 s3. apply kept_trans.
    - intros s. apply profile_function_kept. }
  destruct (_extract_detailed_info_from_profile h (info, drv))
    as [[r [info' drv']] evs].
  exact H.
Qed.

(** ** What a visit fills in *)

Lemma first_valid_email_fixed candidates email :
  first_valid_email candidates = Some email -> validate_email email = email.
Proof.
  induction candidates as [|c cs IH]; [discriminate|]. cbn [first_valid_email].
  destruct (Py.truthy _); [|exact IH]. intros [= <-]. apply validate_email_fixed.
Qed.

Lemma find_catalog_href links href :
  List.find is_catalog_href links = Some href ->
  is_catalog_href (Some (href_or_empty href)) = true.
Proof.
  intros H. apply List.find_some in H as [_ H].
  destruct href as [u|]; [exact H|discriminate].
Qed.

Lemma profile_fields_vetted page : preserves vetted (profile_fields page).
Proof.
  unfold profile_fields.
  repeat lazymatch goal with
  | |- preserves _ (bind (observe ?o) _) =>
      apply preserves_observe_bind; intros ? ?
  | |- preserves _ (bind _ _) => apply preserves_bind; [|intros ?]
  | |- preserves _ (try_except _ _ _) => apply preserves_try_except; [|intros ?]
  | |- preserves _ (when _ _) => apply preserves_when
  | |- preserves _ (ret _) => apply preserves_ret
  | |- preserves _ (raise _) => apply preserves_raise
  | |- preserves _ get => apply preserves_get
  | |- preserves _ (observe _) => apply preserves_observe
  | |- preserves _ (modify (set_Email (validate_email _))) =>
      apply preserves_modify; intros [] [? ?]; setters; split;
      [apply validate_email_fixed|assumption]
  | |- preserves _ (modify (set_Product_Catalog_URL _)) => fail
  | |- preserves _ (modify (set_Email _)) => fail
  | |- preserves _ (modify _) =>
      apply preserves_modify; intros [] [? ?]; setters; split; assumption
  | |- preserves _ (match first_valid_email ?c with _ => _ end) =>
      let E := fresh "E" in
      destruct (first_valid_email c) eqn:E;
      [apply preserves_modify; intros [] [? ?]; setters; split;
       [exact (first_valid_email_fixed _ _ E)|assumption]
      |apply preserves_ret]
  | |- preserves _ (match List.find is_catalog_href ?c with _ => _ end) =>
      let E := fresh "E" in
      destruct (List.find is_catalog_href c) eqn:E;
      [apply preserves_modify; intros [] [? ?]; setters; split;
       [assumption|right; exact (find_catalog_href _ _ E)]
      |apply preserves_ret]
  | |- preserves _ (match ?x with _ => _ end) => destruct x
  end.
Qed.

Lemma visit_profile_vetted h :
  preserves (fun f => vetted (seller_info f)) (visit_profile h).
Proof.
  unfold visit_profile, cleanup.
  apply preserves_try_finally.
  - repeat first
      [ apply preserves_on_driver
      | apply preserves_on_seller_info, profile_fields_vetted
      | apply preserves_set_new_window_handle
      | preserve_step ].
  - repeat first [ apply preserves_on_driver | preserve_step ].
Qed.

Lemma profile_function_vetted h :
  preserves (fun s => vetted (fst s)) (profile_function h).
Proof.
  intros [info drv] Hv. unfold profile_function.
  destruct (lacks_contact info && Py.truthy (Company_Profile_URL info));
    [|exact Hv].
  pose proof (visit_profile_vetted h
                {| seller_info := info; frame_driver := drv;
                   new_window_handle := None |} Hv) as Hk.
  destruct (visit_profile h _) as [r f]. exact Hk.
Qed.

(** X9.  What a profile visit stores as email address is what
    [validate_email] makes of it, and what it stores as catalog reference
    passes the test on catalog links: a lead whose two fields are empty or
    pass these tests has them so after the call, returned or raised. *)
Theorem enrichment_fills_vetted (h : handle) (info : Lead) (drv : Browser) :
  validate_email (Email info) = Email info ->
  Product_Catalog_URL info = ""
  \/ is_catalog_href (Some (Product_Catalog_URL info)) = true ->
  let '(r, (info', drv'), evs) :=
    _extract_detailed_info_from_profile h (info, drv) in
  validate_email (Email info') = Email info'
  /\ (Product_Catalog_URL info' = ""
      \/ is_catalog_href (Some (Product_Catalog_URL info')) = true).
Proof.
  intros He Hc.
  assert (H : vetted (fst (snd (fst (_extract_detailed_info_from_profile h
                                       (info, drv)))))).
  { unfold _extract_detailed_info_from_profile, retry.
    apply (wrapper_loop_related
             (fun s s' : Lead * Browser => vetted (fst s) -> vetted (fst s'))
             2 1 (def "_extract_detailed_info_from_profile" profile_function) h);
      [auto|auto| |split; assumption].
    intros s. apply profile_function_vetted. }
  destruct (_extract_detailed_info_from_profile h (info, drv))
    as [[r [info' drv']] evs].
  exact H.
Qed.

Lemma enrichment_fills_vetted_witness :
  validate_email
    (Email (fst (snd (fst (_extract_detailed_info_from_profile 2%nat
                             (acme_listing, on_results))))))
  = Email (fst (snd (fst (_extract_detailed_info_from_profile 2%nat
                            (acme_listing, on_results))))).
Proof.
  generalize (enrichment_fills_vetted 2%nat acme_listing on_results).
  destruct (_extract_detailed_info_from_profile 2%nat (acme_listing, on_results))
    as [[r [info' drv']] evs].
  intros H. cbn [fst snd]. apply H.
  - reflexivity.
  - left. reflexivity.
Defined.

(* ===================================================================== *)
(** * The scraping loop, continued *)
(* ===================================================================== *)

(** ** The invariant of the loop *)

Section ScrapeInvariant.
Variable partial_ratio : string -> string -> Z.
Variable keyword : string.
Variable min_leads : nat.
Variable h : handle.
Variable hs : list handle.
Variable Q : gmap string value -> Prop.
Hypothesis scored_in_Q :
  forall info,
    Q (sanitize_lead
         (set_Relevancy_Score
            (_calculate_relevancy_score partial_ratio info keyword) info)).

Lemma switch_scraping :
  preserves (scraping Q h hs min_leads)
    (on_self_driver (switch_to_window h)).
Proof.
  intros self ((Hw & Hc & Hin) & Hl & Hq).
  unfold on_self_driver, switch_to_window. rewrite Hw.
  rewrite bool_decide_eq_true_2 by exact Hin. cbn [snd driver leads].
  repeat split; auto.
Qed.

Lemma enrich_scraping info :
  preserves (scraping Q h hs min_leads) (enrich info h).
Proof.
  intros self ((Hw & Hc & Hin) & Hl & Hq). unfold enrich.
  pose proof (extract_detailed_restored h (info, driver self)) as (Hw' & Hc' & _).
  destruct (_extract_detailed_info_from_profile h (info, driver self))
    as [[r [info' drv]] evs]. cbn [fst snd] in *.
  assert (Hd : on_window h hs drv).
  { split; [congruence|]. split; [|exact Hin]. apply Hc'; [exact Hc|].
    now rewrite Hw. }
  destruct r; cbn [snd driver leads]; repeat split; auto; apply Hd.
Qed.

Lemma enrich_leads info self :
  leads (snd (enrich info h self)) = leads self.
Proof.
  unfold enrich.
  destruct (_extract_detailed_info_from_profile h (info, driver self))
    as [[[u|e] [info' drv]] evs]; reflexivity.
Qed.

Lemma process_leads_scraping infos :
  preserves (scraping Q h hs min_leads)
    (process_leads partial_ratio keyword min_leads h infos).
Proof.
  induction infos as [|info rest IH]; [apply preserves_ret|].
  cbn [process_leads]. apply preserves_get_bind. intros self Hs.
  destruct (Nat.leb_spec min_leads (length (leads self))) as [Hfull|Hroom];
    [exact Hs|].
  set (visit := if lacks_contact info then enrich info h else ret info).
  assert (Hv : scraping Q h hs min_leads (snd (visit self))
               /\ leads (snd (visit self)) = leads self).
  { unfold visit. destruct (lacks_contact info).
    - split; [now apply enrich_scraping|apply enrich_leads].
    - split; [exact Hs|reflexivity]. }
  destruct Hv as [Hs1 Hl1]. unfold bind at 1.
  destruct (visit self) as [[info'|e] self1]; cbn [snd] in *; [|exact Hs1].
  apply bind_establishes; [|intros _; exact IH].
  destruct (_ || _); [|exact Hs1]. cbn [when].
  destruct Hs1 as (Hd & Hl & Hq). unfold bind, get, set_leads, modify.
  cbn [snd driver leads]. split; [exact Hd|]. split.
  - cbn [leads]. rewrite length_app, Hl1. cbn [length]. lia.
  - cbn [leads]. apply Forall_app. split; [exact Hq|]. constructor; [|constructor].
    apply scored_in_Q.
Qed.

Lemma page_body_scraping page :
  preserves (scraping Q h hs min_leads)
    (page_body partial_ratio keyword min_leads h page).
Proof.
  unfold page_body.
  apply preserves_bind; [apply switch_scraping|intros _].
  apply preserves_bind; [apply preserves_observe|intros _].
  apply preserves_bind; [apply preserves_observe|intros seller_elements].
  destruct seller_elements as [|c cs]; [apply preserves_ret|].
  apply preserves_bind; [apply preserves_observe|intros infos].
  apply preserves_bind; [apply process_leads_scraping|intros _].
  apply preserves_bind; [apply preserves_get|intros self].
  destruct (_ <? _)%nat; [|apply preserves_ret].
  apply preserves_try_except; [|intros; apply preserves_ret].
  apply preserves_bind; [apply switch_scraping|intros _].
  apply preserves_bind; [apply preserves_observe|intros _].
  apply preserves_ret.
Qed.

Lemma scrape_loop_scraping pages :
  preserves (scraping Q h hs min_leads)
    (scrape_loop partial_ratio keyword min_leads h pages).
Proof.
  assert (Hturn : forall page,
            preserves (scraping Q h hs min_leads)
              (try_except (page_body partial_ratio keyword min_leads h page)
                 is_Exception (fun _ => ret Break))).
  { intros page. apply preserves_try_except; [apply page_body_scraping|].
    intros; apply preserves_ret. }
  induction pages as [|page rest IH]; intros self Hs; cbn [scrape_loop];
    destruct (_ <? _)%nat; try exact Hs.
  - pose proof (Hturn blank_page self Hs) as H.
    destruct (try_except _ _ _ self) as [r self']. exact H.
  - pose proof (Hturn page self Hs) as H.
    destruct (try_except _ _ _ self) as [[[|]|e] self']; cbn [snd] in *;
      [now apply IH|exact H|exact H].
Qed.

End ScrapeInvariant.

(** What a call of [scrape_search_results] leaves: the windows and the
    focus it found, at most [min_leads] records, each of them in [Q]. *)
Lemma scrape_search_results_scraping partial_ratio keyword min_leads pages
  (Q : gmap string value -> Prop) self r self' :
  (forall info,
     Q (sanitize_lead
          (set_Relevancy_Score
             (_calculate_relevancy_score partial_ratio info keyword) info))) ->
  scrape_search_results partial_ratio keyword min_leads pages self = (r, self') ->
  window_handles (driver self') = window_handles (driver self)
  /\ current_window_handle (driver self') = current_window_handle (driver self)
  /\ (length (leads self') <= min_leads)%nat
  /\ Forall Q (leads self')
  /\ (forall collected, r = Return collected -> collected = leads self').
Proof.
  intros HQ.
  unfold scrape_search_results, bind at 1, set_leads at 1, modify.
  set (self0 := {| driver := driver self; leads := [] |}).
  unfold bind at 1. unfold on_self_driver, get_current_window_handle.
  cbn [driver leads self0].
  destruct (bool_decide (current_window_handle (driver self)
                         ∈ window_handles (driver self))) eqn:Hopen.
  2:{ intros [= <- <-]. cbn [driver leads length].
      repeat split; auto; try lia. intros ? [=]. }
  apply bool_decide_eq_true_1 in Hopen.
  set (h := current_window_handle (driver self)) in *.
  set (hs := window_handles (driver self)) in *.
  fold self0.
  assert (H0 : scraping Q h hs min_leads self0).
  { repeat split; auto. cbn. lia. }
  unfold bind at 1.
  pose proof (scrape_loop_scraping partial_ratio keyword min_leads h hs Q HQ
                pages self0 H0) as H1.
  destruct (scrape_loop _ _ _ _ _ self0) as [[u|e] self1]; cbn [snd] in H1;
    destruct H1 as ((Hw & Hc & _) & Hl & Hq).
  - unfold bind, get, ret. intros [= <- <-]. repeat split; auto.
    now intros ? [= <-].
  - intros [= <- <-]. repeat split; auto. intros ? [=].
Qed.

(** ** What the loop leaves *)



Lemma sanitize_lead_score l :
  score_key (sanitize_lead l) = VInt (Relevancy_Score l).
Proof. reflexivity. Qed.

(** X10.  [scrape_search_results] never stores more than [min_leads]
    records, whatever the site serves: the bound it is given is an upper
    bound on what it returns. *)
Theorem scrape_stops_at_min_leads partial_ratio keyword (min_leads : nat)
  (pages : list ResultsPage) (self : Scraper) :
  (length (leads (snd (scrape_search_results partial_ratio keyword min_leads
                         pages self))) <= min_leads)%nat
  /\ forall collected,
       fst (scrape_search_results partial_ratio keyword min_leads pages self)
       = Return collected ->
       (length collected <= min_leads)%nat.
Proof.
  destruct (scrape_search_results partial_ratio keyword min_leads pages self)
    as [r self'] eqn:E.
  destruct (scrape_search_results_scraping partial_ratio keyword min_leads pages
              (fun _ => True) self r self' (fun _ => I) E)
    as (_ & _ & Hl & _ & Hr).
  cbn [fst snd]. split; [exact Hl|]. intros collected Hc.
  now rewrite (Hr _ Hc).
Qed.



(** X13.  Scraping and export together: when [scrape_search_results]
    returns leads, [export_to_csv] on the lead store answers [True] and
    writes one line per lead returned, and every cell of the file comes
    from the lead, none from the fill value. *)
Theorem scrape_then_export partial_ratio keyword (min_leads : nat)
  (pages : list ResultsPage) (self self' : Scraper)
  (collected : list (gmap string value)) :
  scrape_search_results partial_ratio keyword min_leads pages self
  = (Return collected, self') ->
  collected <> [] ->
  exists sorted_leads,
    export_to_csv (leads self')
    = (true, Some {| header := fields; lines := row_of <$> sorted_leads |})
    /\ Permutation sorted_leads collected
    /\ Forall (fun x => forall key, key ∈ fields -> is_Some (x !! key))
         sorted_leads.
Proof.
  intros E Hne.
  destruct (scrape_search_results_scraping partial_ratio keyword min_leads pages
              (fun x => score_key x = VInt (int_score x)
                        /\ forall key, key ∈ fields -> is_Some (x !! key))
              self (Return collected) self') with (2 := E)
    as (_ & _ & _ & Hq & Hr).
  { intros info. split.
    - unfold int_score. now rewrite sanitize_lead_score.
    - intros key Hkey. rewrite sanitize_lead_dict, lookup_fmap.
      unfold fields in Hkey.
      repeat (apply elem_of_cons in Hkey as [->|Hkey]; [eexists; reflexivity|]).
      now apply elem_of_nil in Hkey. }
  rewrite (Hr collected eq_refl) in *.
  assert (Hkeyed : Forall (fun x => score_key x = VInt (int_score x)) (leads self')).
  { eapply List.Forall_impl; [|exact Hq]. now intros x [Hx _]. }
  destruct (sorted_reverse_int score_key int_score _ Hkeyed)
    as [sorted_leads [Hsorted [Hperm _]]].
  exists sorted_leads. split; [|split; [exact Hperm|]].
  - unfold export_to_csv. destruct (leads self') as [|x l]; [contradiction|].
    rewrite Hsorted. now rewrite to_csv_reindex.
  - rewrite List.Forall_forall in *. intros x Hx.
    apply Hq. now apply (Permutation_in _ Hperm).
Qed.


Lemma scrape_then_export_witness :
  exists sorted_leads,
    export_to_csv
      (leads (snd (scrape_search_results (fun _ _ => 35) "Cricket Ball" 1
                     [one_page] {| driver := on_results; leads := [] |})))
    = (true, Some {| header := fields; lines := row_of <$> sorted_leads |})
    /\ Permutation sorted_leads
         [sanitize_lead
            (set_Relevancy_Score 77
               (set_Email "sales@acme.com"
                  (set_Phone_Number "9876543210" acme_listing)))]
    /\ Forall (fun x => forall key, key ∈ fields -> is_Some (x !! key))
         sorted_leads.
Proof.
  apply (scrape_then_export (fun _ _ => 35) "Cricket Ball" 1 [one_page]
           {| driver := on_results; leads := [] |}).
  - vm_compute. reflexivity.
  - discriminate.
Defined.

(** ** A visit that fails *)

Lemma enrich_raises info h self e :
  fst (profile_function h (info, driver self)) = Raise e ->
  is_Exception e = true ->
  exists drv,
    enrich info h self
    = (Raise AttributeError, {| driver := drv; leads := leads self |}).
Proof.
  intros Hcall He. unfold enrich, _extract_detailed_info_from_profile, retry.
  cbn [wrapper_loop fn_call def].
  destruct (profile_function h (info, driver self)) as [r [info' drv]].
  cbn [fst] in Hcall. subst r. rewrite He, getattr_def.
  exists drv. reflexivity.
Qed.

Lemma listing_lacks_contact seller_element info :
  _extract_seller_info_from_listing seller_element = Return info ->
  lacks_contact info = true.
Proof.
  intros H. pose proof (listing_outcome seller_element) as Ho.
  rewrite H in Ho. subst info. apply unfilled_lacks_contact.
  apply listing_fields_unfilled. repeat split.
Qed.

(** X14.  The loop has no handler around the profile visit.  When the
    visit of the first lead of a page fails with an [Exception], the
    turn of the loop is given up: [scrape_search_results] stops there,
    with the leads it had before, and looks at no other card or page. *)
Theorem failed_visit_ends_scrape partial_ratio keyword (min_leads : nat)
  (h : handle) (page : ResultsPage) (rest : list ResultsPage) (self : Scraper)
  (seller_element : Card) (seller_elements : list Card)
  (info : Lead) (infos : list Lead) (e : exn) :
  (length (leads self) < min_leads)%nat ->
  h ∈ window_handles (driver self) ->
  pg_container page = Return tt ->
  pg_cards page = Return (seller_element :: seller_elements) ->
  _extract_seller_info_from_listing seller_element = Return info ->
  extract_all seller_elements = Return infos ->
  fst (profile_function h (info, snd (switch_to_window h (driver self))))
  = Raise e ->
  is_Exception e = true ->
  exists self',
    scrape_loop partial_ratio keyword min_leads h (page :: rest) self
    = (Return tt, self')
    /\ leads self' = leads self.
Proof.
  intros Hroom Hopen Hcontainer Hcards Hfirst Hothers Hvisit He.
  cbn [scrape_loop]. rewrite (proj2 (Nat.ltb_lt _ _) Hroom).
  unfold try_except, page_body.
  unfold bind at 1. unfold on_self_driver at 1.
  destruct (switch_to_window h (driver self)) as [r drv1] eqn:Hswitch.
  assert (Hr : r = Return tt).
  { unfold switch_to_window in Hswitch.
    rewrite bool_decide_eq_true_2 in Hswitch by exact Hopen.
    now injection Hswitch as <- _. }
  subst r. cbn [snd] in Hvisit.
  rewrite Hcontainer, Hcards. unfold bind at 1, observe at 1.
  unfold bind at 1, observe at 1.
  cbn [extract_all]. rewrite Hfirst, Hothers.
  unfold bind at 1, observe at 1.
  unfold bind at 1. cbn [process_leads].
  unfold bind at 1, get at 1. cbn [leads].
  rewrite (proj2 (Nat.leb_gt _ _) Hroom).
  rewrite (listing_lacks_contact _ _ Hfirst).
  destruct (enrich_raises info h {| driver := drv1; leads := leads self |} e
              Hvisit He) as [drv Henrich].
  unfold bind at 1. rewrite Henrich. cbn [is_Exception].
  eexists. split; reflexivity.
Qed.

Lemma failed_visit_ends_scrape_witness :
  exists self',
    scrape_loop (fun _ _ => 35) "Cricket Ball" 1 2%nat [one_page]
      {| driver := no_profiles; leads := [] |}
    = (Return tt, self')
    /\ leads self' = [].
Proof.
  apply (failed_visit_ends_scrape (fun _ _ => 35) "Cricket Ball" 1 2%nat
           one_page [] {| driver := no_profiles; leads := [] |}
           acme_card [] acme_listing [] TimeoutException).
  - cbn. lia.
  - cbn. right. left.
  - reflexivity.
  - reflexivity.
  - vm_compute. reflexivity.
  - reflexivity.
  - vm_compute. reflexivity.
  - reflexivity.
Defined.

(* ===================================================================== *)
(** * Login *)
(* ===================================================================== *)




(* ===================================================================== *)
(** * Search *)
(* ===================================================================== *)

Lemma get_current_window_handle_open b :
  current_window_handle b ∈ window_handles b ->
  get_current_window_handle b = (Return (current_window_handle b), b).
Proof.
  intros H. unfold get_current_window_handle.
  now rewrite bool_decide_eq_true_2.
Qed.

Lemma switch_to_window_open h b :
  h ∈ window_handles b ->
  switch_to_window h b
  = (Return tt,
     {| window_handles := window_handles b; current_window_handle := h;
        upcoming := upcoming b |}).
Proof. intros H. unfold switch_to_window. now rewrite bool_decide_eq_true_2. Qed.

Lemma show_more_outcome {S} (clicks : list (result unit)) (s : S) :
  show_more clicks s = (Return tt, s)
  \/ exists e, show_more clicks s = (Raise e, s) /\ is_Exception e = false.
Proof.
  induction clicks as [|[[]|e] rest IH]; cbn [show_more].
  - now left.
  - exact IH.
  - destruct (is_Exception e) eqn:He; [now left|right; now exists e].
Qed.





Lemma bind_not_true {S A} (c : M S A) (k : A -> M S bool) s s' :
  (forall a s1, k a s1 <> (Return true, s')) ->
  bind c k s <> (Return true, s').
Proof.
  intros Hk. unfold bind. destruct (c s) as [[a|e] s1]; [apply Hk|discriminate].
Qed.

Lemma back_to_main_not_true main b b' : back_to_main main b <> (Return true, b').
Proof.
  unfold back_to_main. apply bind_not_true. intros b0 s1.
  apply bind_not_true. intros _ s2. apply bind_not_true. intros _ s3.
  discriminate.
Qed.

Lemma other_window_found main b h b1 :
  other_window main b = (Return h, b1) ->
  b1 = b /\ h ∈ window_handles b /\ h <> main.
Proof.
  unfold other_window.
  destruct (List.filter _ (window_handles b)) as [|h' l] eqn:Hf; [discriminate|].
  intros [= <- <-]. split; [reflexivity|].
  assert (Hin : List.In h' (List.filter (fun h => negb (h =? main)%nat)
                              (window_handles b))).
  { rewrite Hf. now left. }
  apply List.filter_In in Hin as [Hin Hne].
  split; [now apply list_elem_of_In|].
  apply negb_true_iff, Nat.eqb_neq in Hne. exact Hne.
Qed.

(** X17.  Whatever the browser it starts in, when [search_product]
    answers [True] exactly two windows are open, the window it started on
    among them, and the focus is on the other one. *)
Theorem search_success_two_windows (page : SearchPage) (keyword : string)
  (b b' : Browser) (evs : list event) :
  search_product page keyword b = (Return (Some true), b', evs) ->
  length (window_handles b') = 2%nat
  /\ current_window_handle b ∈ window_handles b'
  /\ current_window_handle b' ∈ window_handles b'
  /\ current_window_handle b' <> current_window_handle b
  /\ (forall h, h ∈ window_handles b -> h ∈ window_handles b').
Proof.
  intros H. apply retry_def_returned in H. revert H.
  unfold search_function. unfold bind at 1. unfold get_current_window_handle.
  destruct (bool_decide (current_window_handle b ∈ window_handles b)) eqn:Hopen;
    [|discriminate].
  apply bool_decide_eq_true_1 in Hopen.
  set (main := current_window_handle b) in *.
  unfold try_except at 1.
  match goal with
  | |- (match ?body b with _ => _ end) = _ -> _ =>
      destruct (body b) as [[[|]|e] b1] eqn:Hbody
  end.
  2:{ discriminate. }
  2:{ destruct (is_Exception e); [|discriminate].
      intros Hback. now apply back_to_main_not_true in Hback. }
  intros [= <-]. revert Hbody.
  unfold bind at 1, observe at 1.
  destruct (sp_search_box page) as [[]|e]; [|discriminate].
  unfold bind at 1, observe at 1.
  destruct (sp_first_button page) as [[]|e]; [|discriminate].
  unfold bind at 1, observe at 1.
  destruct (sp_second_button page) as [[]|e]; [|discriminate].
  unfold bind at 1.
  set (b2 := snd (when (sp_opens_tab page) open_tab b)).
  assert (Hb2 : when (sp_opens_tab page) open_tab b = (Return tt, b2)).
  { unfold b2. now destruct (sp_opens_tab page). }
  assert (Hkeep : forall h, h ∈ window_handles b -> h ∈ window_handles b2).
  { intros h Hh. unfold b2. destruct (sp_opens_tab page); [|exact Hh].
    cbn. apply elem_of_app. now left. }
  rewrite Hb2. clearbody b2.
  unfold bind at 1, wait_number_of_windows at 1.
  destruct (Nat.eqb_spec (length (window_handles b2)) 2) as [Htwo|]; [|discriminate].
  unfold bind at 1.
  destruct (other_window main b2) as [[h|e] b3] eqn:Hother; [|discriminate].
  apply other_window_found in Hother as (-> & Hh & Hne).
  unfold bind at 1. rewrite switch_to_window_open by exact Hh.
  set (b4 := {| window_handles := window_handles b2;
                current_window_handle := h; upcoming := upcoming b2 |}).
  unfold bind at 1, observe at 1.
  destruct (sp_container page) as [[]|e]; [|discriminate].
  unfold bind at 1.
  assert (Hcity : snd (try_except (observe (sp_all_india page)) is_Exception
                         (fun _ => ret tt) b4) = b4).
  { unfold try_except, observe, ret.
    destruct (sp_all_india page) as [[]|e]; [reflexivity|].
    now destruct (is_Exception e). }
  destruct (try_except (observe (sp_all_india page)) is_Exception
              (fun _ => ret tt) b4) as [[[]|e] b5]; [|discriminate].
  cbn [snd] in Hcity. subst b5. unfold bind at 1.
  destruct (show_more_outcome (sp_show_more page) b4) as [->|[e [-> He]]];
    [|discriminate].
  unfold ret. intros [= <-]. cbn [b4 window_handles current_window_handle].
  repeat split; auto.
Qed.

(** X18.  Started with two or more windows open, a search whose second
    click opens the results tab answers [False]: the wait for exactly
    two windows times out, and the tab is left open, the focus where it
    was. *)
Theorem search_with_other_windows (page : SearchPage) (keyword : string)
  (b : Browser) :
  (2 <= length (window_handles b))%nat ->
  current_window_handle b ∈ window_handles b ->
  sp_search_box page = Return tt ->
  sp_first_button page = Return tt ->
  sp_second_button page = Return tt ->
  sp_opens_tab page = true ->
  search_product page keyword b
  = (Return (Some false),
     {| window_handles :=
          window_handles b ++ [fresh_handle (window_handles b)];
        current_window_handle := current_window_handle b;
        upcoming := upcoming b |},
     [Invoked]).
Proof.
  intros Hlen Hopen Hbox Hfirst Hsecond Htab. unfold search_product.
  apply (retry_once 3 2 "search_product" (search_function page) keyword b
           (Return false)); [lia| |exact I].
  unfold search_function. unfold bind at 1.
  rewrite get_current_window_handle_open by exact Hopen.
  unfold try_except at 1. rewrite Hbox, Hfirst, Hsecond, Htab.
  unfold bind at 1, observe at 1. unfold bind at 1, observe at 1.
  unfold bind at 1, observe at 1. unfold bind at 1. cbn [when].
  unfold open_tab, modify.
  unfold bind at 1, wait_number_of_windows at 1. cbn [window_handles].
  rewrite length_app. cbn [length].
  destruct (Nat.eqb_spec (length (window_handles b) + 1) 2) as [Heq|_]; [lia|].
  cbn [is_Exception].
  unfold back_to_main. unfold bind at 1, get at 1. cbn [window_handles].
  rewrite length_app. cbn [length].
  destruct (Nat.ltb_spec 1 (length (window_handles b) + 1)) as [_|Hle]; [|lia].
  unfold bind at 1. unfold bind at 1.
  rewrite get_current_window_handle_open
    by (cbn; apply elem_of_app; now left).
  cbn [current_window_handle]. rewrite Nat.eqb_refl. cbn [negb when].
  unfold ret at 1. unfold bind at 1.
  rewrite switch_to_window_open by (cbn; apply elem_of_app; now left).
  reflexivity.
Qed.

Lemma search_success_two_windows_witness :
  length [1; 2]%nat = 2%nat
  /\ 1%nat ∈ [1; 2]%nat
  /\ 2%nat ∈ [1; 2]%nat
  /\ 2%nat <> 1%nat
  /\ (forall h : nat, h ∈ [1]%nat -> h ∈ [1; 2]%nat).
Proof.
  apply (search_success_two_windows smooth_search "Cricket Ball" on_home
           {| window_handles := [1; 2]%nat; current_window_handle := 2%nat;
              upcoming := [] |} [Invoked]).
  vm_compute. reflexivity.
Defined.

Lemma search_with_other_windows_witness :
  search_product smooth_search "Cricket Ball" on_results
  = (Return (Some false),
     {| window_handles :=
          window_handles on_results ++ [fresh_handle (window_handles on_results)];
        current_window_handle := current_window_handle on_results;
        upcoming := upcoming on_results |},
     [Invoked]).
Proof.
  apply (search_with_other_windows smooth_search "Cricket Ball" on_results).
  - cbn. lia.
  - cbn. right. left.
  - reflexivity.
  - reflexivity.
  - reflexivity.
  - reflexivity.
Defined.

(* ===================================================================== *)
(** * Shutdown *)
(* ===================================================================== *)

Lemma filter_out_middle (pre rest : list handle) (x : handle) :
  x ∉ pre -> x ∉ rest ->
  List.filter (fun h => negb (h =? x)%nat) (pre ++ x :: rest) = pre ++ rest.
Proof.
  intros Hpre Hrest.
  assert (Hid : forall l : list handle, x ∉ l ->
            List.filter (fun h => negb (h =? x)%nat) l = l).
  { induction l as [|y l IH]; intros Hl; [reflexivity|]. cbn [List.filter].
    destruct (Nat.eqb_spec y x) as [->|Hne].
    - exfalso. apply Hl. left.
    - cbn [negb]. f_equal. apply IH. intros H. apply Hl. now right. }
  rewrite List.filter_app. cbn [List.filter]. rewrite Nat.eqb_refl. cbn [negb].
  now rewrite !Hid.
Qed.

(** The loop closes the tabs it is given, one after the other, and
    leaves the other windows open. *)
Lemma close_tabs_closes (rest pre : list handle) cur up ended :
  NoDup (pre ++ rest) ->
  exists cur',
    close_tabs rest
      {| session_driver :=
           {| window_handles := pre ++ rest; current_window_handle := cur;
              upcoming := up |};
         session_ended := ended |}
    = (Return tt,
       {| session_driver :=
            {| window_handles := pre; current_window_handle := cur';
               upcoming := up |};
          session_ended := ended |}).
Proof.
  revert cur. induction rest as [|x rest IH]; intros cur Hnd.
  - exists cur. cbn [close_tabs]. now rewrite app_nil_r.
  - apply NoDup_app in Hnd as (Hpre & Hdisj & Hrest).
    apply NoDup_cons in Hrest as [Hx Hrest].
    assert (Hxpre : x ∉ pre).
    { intros Hin. apply (Hdisj x Hin). left. }
    destruct (IH x) as [cur' Hloop].
    { apply NoDup_app. split; [exact Hpre|]. split; [|exact Hrest].
      intros y Hy Hy'. apply (Hdisj y Hy). now right. }
    exists cur'. cbn [close_tabs]. unfold bind at 1. unfold try_except.
    unfold bind at 1. unfold on_session at 1. cbn [session_driver session_ended].
    rewrite switch_to_window_open
      by (cbn; apply elem_of_app; right; left).
    cbn [window_handles upcoming].
    unfold on_session, close_window.
    cbn [session_driver session_ended window_handles current_window_handle
         upcoming].
    rewrite bool_decide_eq_true_2 by (apply elem_of_app; right; left).
    rewrite filter_out_middle by assumption.
    exact Hloop.
Qed.

(** The whole of [close] on a driver with windows of their own. *)
Lemma close_distinct_windows (s : Session) (main : handle) (others : list handle) :
  window_handles (session_driver s) = main :: others ->
  NoDup (main :: others) ->
  close (Some s)
  = (Return tt,
     Some {| session_driver :=
               {| window_handles := [main]; current_window_handle := main;
                  upcoming := upcoming (session_driver s) |};
             session_ended := true |}).
Proof.
  destruct s as [[hs cur up] ended]. cbn [session_driver window_handles upcoming].
  intros -> Hnd. unfold close. cbn [session_driver window_handles tail length].
  assert (Hloop : exists cur',
            when (1 <? S (length others))%nat (close_tabs others)
              {| session_driver :=
                   {| window_handles := main :: others;
                      current_window_handle := cur; upcoming := up |};
                 session_ended := ended |}
            = (Return tt,
               {| session_driver :=
                    {| window_handles := [main]; current_window_handle := cur';
                       upcoming := up |};
                  session_ended := ended |})).
  { destruct others as [|x others]; [now exists cur|].
    cbn [length Nat.ltb Nat.leb when].
    apply (close_tabs_closes (x :: others) [main] cur up ended Hnd). }
  destruct Hloop as [cur' Hloop]. unfold bind at 1. rewrite Hloop.
  unfold try_except, bind, on_session. cbn [session_driver session_ended].
  rewrite switch_to_window_open by (cbn; left).
  reflexivity.
Qed.

(** X19.  With a driver whose windows are distinct, [close] closes every
    window but the first, whichever has the focus, switches to the first
    and quits the browser; it raises nothing. *)
Theorem close_ends_session (s : Session) (main : handle) (others : list handle) :
  window_handles (session_driver s) = main :: others ->
  NoDup (main :: others) ->
  close (Some s)
  = (Return tt,
     Some {| session_driver :=
               {| window_handles := [main]; current_window_handle := main;
                  upcoming := upcoming (session_driver s) |};
             session_ended := true |}).
Proof.
  intros Hwindows Hdistinct.
  exact (close_distinct_windows s main others Hwindows Hdistinct).
Qed.

Lemma close_ends_session_witness :
  close (Some {| session_driver := on_results; session_ended := false |})
  = (Return tt,
     Some {| session_driver :=
               {| window_handles := [1]%nat; current_window_handle := 1%nat;
                  upcoming := upcoming on_results |};
             session_ended := true |}).
Proof.
  apply (close_ends_session
           {| session_driver := on_results; session_ended := false |}
           1%nat [2]%nat).
  - reflexivity.
  - apply (bool_decide_eq_true_1 (NoDup [1; 2]%nat)). vm_compute. reflexivity.
Defined.

(* ===================================================================== *)
(** * The command line *)
(* ===================================================================== *)

(** ** Windows with handles of their own *)










(** ** The stages on the scraper object *)




Section RunFacts.
Variable partial_ratio : string -> string -> Z.




End RunFacts.


